(** * Plant watering tracker: the due-date rule, its two evaluators and the store

    A shallow embedding of [backend/src/db.js], of the request handlers of the
    backend's entry point, and of the client helpers [isDueNow] and [dueLabel],
    with the client's form ([validateDraft], the date input helpers) and the
    requests its buttons send.

    Conventions.
    - A time value is a [Z]: milliseconds since 1970-01-01T00:00:00Z, as in
      ECMAScript.  A Date object holds [option Z]; [None] is the NaN of an
      invalid date.
    - A JavaScript [string | null] is an [option string].  A string stands
      for the bytes of its UTF-8 encoding: the code looks at strings through
      the host's functions, for emptiness and as the ASCII text of dates;
      SQL compares TEXT byte by byte, and the body parser counts bytes.
    - The store is the in-memory database: the table [plants] as a finite
      map from the primary key, and the AUTOINCREMENT counter.  Writing the
      database file after a change is not modelled.
    - What the JavaScript engine and the SQL engine supply (time zone, the two
      date parsers, string-to-number coercion, trimming) is gathered in the
      class [Host]; the repository's own code is written over an arbitrary
      host.  [reference_host] is a small concrete host used to evaluate the
      code on explicit inputs. *)

From Stdlib Require Import ZArith String Ascii Lia.
From stdpp Require Import base option list gmap sorting strings.

Local Open Scope Z_scope.

(** ** ECMAScript time values *)

Definition msPerSecond : Z := 1000.
Definition msPerMinute : Z := 60000.
Definition msPerHour : Z := 3600000.
Definition msPerDay : Z := 86400000.

(** Largest magnitude of a time value: 8.64e15 ms. *)
Definition maxTime : Z := 8640000000000000.

Definition TimeClip (t : Z) : option Z :=
  if Z.abs t <=? maxTime then Some t else None.

Definition Day (t : Z) : Z := t / msPerDay.
Definition TimeWithinDay (t : Z) : Z := t mod msPerDay.

Definition DaysInYear (y : Z) : Z :=
  if negb (y mod 4 =? 0) then 365
  else if negb (y mod 100 =? 0) then 366
  else if negb (y mod 400 =? 0) then 365
  else 366.

Definition DayFromYear (y : Z) : Z :=
  365 * (y - 1970) + (y - 1969) / 4 - (y - 1901) / 100 + (y - 1601) / 400.

(** The largest [y] with [DayFromYear y <= Day t]: an estimate from the mean
    year length, corrected by at most one year. *)
Definition YearFromTime (t : Z) : Z :=
  let d := Day t in
  let y := 1970 + (400 * d) / 146097 in
  if d <? DayFromYear y then y - 1
  else if DayFromYear (y + 1) <=? d then y + 1
  else y.

Definition InLeapYear (t : Z) : Z :=
  if DaysInYear (YearFromTime t) =? 366 then 1 else 0.

Definition DayWithinYear (t : Z) : Z := Day t - DayFromYear (YearFromTime t).

(** Day number within the year on which month [m] (0 = January) starts. *)
Definition monthStart (m leap : Z) : Z :=
  match m with
  | 0 => 0
  | 1 => 31
  | 2 => 59 + leap
  | 3 => 90 + leap
  | 4 => 120 + leap
  | 5 => 151 + leap
  | 6 => 181 + leap
  | 7 => 212 + leap
  | 8 => 243 + leap
  | 9 => 273 + leap
  | 10 => 304 + leap
  | _ => 334 + leap
  end.

Definition MonthFromTime (t : Z) : Z :=
  let d := DayWithinYear t in
  let leap := InLeapYear t in
  if d <? 31 then 0
  else if d <? 59 + leap then 1
  else if d <? 90 + leap then 2
  else if d <? 120 + leap then 3
  else if d <? 151 + leap then 4
  else if d <? 181 + leap then 5
  else if d <? 212 + leap then 6
  else if d <? 243 + leap then 7
  else if d <? 273 + leap then 8
  else if d <? 304 + leap then 9
  else if d <? 334 + leap then 10
  else 11.

Definition DateFromTime (t : Z) : Z :=
  DayWithinYear t - monthStart (MonthFromTime t) (InLeapYear t) + 1.

Definition HourFromTime (t : Z) : Z := (t / msPerHour) mod 24.
Definition MinFromTime (t : Z) : Z := (t / msPerMinute) mod 60.
Definition SecFromTime (t : Z) : Z := (t / msPerSecond) mod 60.
Definition msFromTime (t : Z) : Z := t mod msPerSecond.

(** [MakeDay]: the day number of the first of the month, plus [date - 1]. *)
Definition MakeDay (year month date : Z) : Z :=
  let ym := year + month / 12 in
  let mn := month mod 12 in
  let leap := if DaysInYear ym =? 366 then 1 else 0 in
  DayFromYear ym + monthStart mn leap + date - 1.

Definition MakeTime (hour min sec ms : Z) : Z :=
  hour * msPerHour + min * msPerMinute + sec * msPerSecond + ms.

Definition MakeDate (day time : Z) : Z := day * msPerDay + time.

(** ** Decimal text *)

Definition digit (n : Z) : ascii := ascii_of_N (48 + Z.to_N (n mod 10)).

(** The [w] low decimal digits of [n], zero padded. *)
Fixpoint pad (w : nat) (n : Z) : string :=
  match w with
  | O => EmptyString
  | S w' => pad w' (n / 10) +:+ String (digit n) EmptyString
  end.

Fixpoint decimal_go (fuel : nat) (n : Z) (acc : string) : string :=
  match fuel with
  | O => acc
  | S fuel' =>
      let acc' := String (digit n) acc in
      if n <? 10 then acc' else decimal_go fuel' (n / 10) acc'
  end.

(** Number-to-string for a non-negative integer (no exponent below 1e21). *)
Definition decimal (n : Z) : string :=
  decimal_go (S (Z.to_nat (Z.log2 n))) n EmptyString.

Definition digit_value (c : ascii) : option Z :=
  let n := Z.of_N (N_of_ascii c) in
  if (48 <=? n) && (n <=? 57) then Some (n - 48) else None.

Fixpoint digits_value (acc : Z) (cs : list ascii) : option Z :=
  match cs with
  | [] => Some acc
  | c :: cs' =>
      match digit_value c with
      | Some d => digits_value (10 * acc + d) cs'
      | None => None
      end
  end.

Definition number_of (cs : list ascii) : option Z :=
  match cs with
  | [] => None
  | _ => digits_value 0 cs
  end.

(** ** Date.prototype.toISOString *)

Definition iso_year (y : Z) : string :=
  if (0 <=? y) && (y <=? 9999) then pad 4 y
  else if y <? 0 then "-" +:+ pad 6 (- y)
  else "+" +:+ pad 6 y.

Definition toISOString (t : Z) : string :=
  iso_year (YearFromTime t) +:+ "-" +:+ pad 2 (MonthFromTime t + 1) +:+ "-"
  +:+ pad 2 (DateFromTime t) +:+ "T" +:+ pad 2 (HourFromTime t) +:+ ":"
  +:+ pad 2 (MinFromTime t) +:+ ":" +:+ pad 2 (SecFromTime t) +:+ "."
  +:+ pad 3 (msFromTime t) +:+ "Z".

(** ** JavaScript values *)

(** A Number as far as the code looks at it: [Number.isInteger] holds of
    [NInt z] only; [NOther] stands for NaN, the infinities and the fractions. *)
Inductive jsnum : Type :=
  | NInt (z : Z)
  | NOther.

(** A decoded JSON value or an absent key.  [VObj prim] is an array or an
    object, with the string its conversion to a primitive yields. *)
Inductive jsval : Type :=
  | VUndefined
  | VNull
  | VBool (b : bool)
  | VNum (n : jsnum)
  | VStr (s : string)
  | VObj (prim : string).

(** [!s] on a [string | null]: null and the empty string are falsy. *)
Definition falsy (s : option string) : bool :=
  match s with
  | None => true
  | Some EmptyString => true
  | Some _ => false
  end.

(** A call either returns or raises; the only exception raised by the code
    below is the RangeError of [toISOString] on an invalid date. *)
Inductive completion (A : Type) : Type :=
  | Normal (a : A)
  | RangeError.
Arguments Normal {A} a.
Arguments RangeError {A}.

Definition cbind {A B} (c : completion A) (k : A → completion B) : completion B :=
  match c with
  | Normal a => k a
  | RangeError => RangeError
  end.

Fixpoint cmap {A B} (f : A → completion B) (l : list A) : completion (list B) :=
  match l with
  | [] => Normal []
  | x :: l' =>
      cbind (f x) (λ y, cbind (cmap f l') (λ ys, Normal (y :: ys)))
  end.

(** ** The host: what the two engines supply *)

Class Host : Type := {
  (** offset of local time from UTC in ms; the flag tells whether the
      argument is a UTC time value or a local one *)
  LocalTZA : Z → bool → Z;
  (** [Date.parse]; [None] is NaN *)
  Date_parse : string → option Z;
  (** the SQL engine's reading of a time string, as a UTC time value in ms *)
  sqlite_time : string → option Z;
  (** the Number a string converts to *)
  StringToNumber : string → jsnum;
  (** [Number.parseInt(s, 10)] *)
  parseInt10 : string → jsnum;
  (** [String.prototype.trim] *)
  String_trim : string → string
}.

Section Dates.
Context `{Host}.

Definition LocalTime (t : Z) : Z := t + LocalTZA t true.
Definition UTC (t : Z) : Z := t - LocalTZA t false.

(** [new Date(s)] for a string [s]: the [[DateValue]] slot. *)
Definition new_Date (s : string) : option Z :=
  match Date_parse s with
  | Some t => TimeClip t
  | None => None
  end.

Definition getDate (t : Z) : Z := DateFromTime (LocalTime t).

(** [setDate(date)] on a valid date: the new [[DateValue]]. *)
Definition setDate (t date : Z) : option Z :=
  let lt := LocalTime t in
  let newDate :=
    MakeDate (MakeDay (YearFromTime lt) (MonthFromTime lt) date)
             (TimeWithinDay lt) in
  TimeClip (UTC newDate).

(** The instant [n] calendar days after [t] at the same local wall-clock
    time: the day number of the local time moves by [n], its time within
    the day stays. *)
Definition addDays (t n : Z) : Z := UTC (LocalTime t + n * msPerDay).

(** ** backend/src/db.js: nextWateringDueAt *)

Definition nextWateringDueAt (lastWateredAt : option string)
    (wateringIntervalDays : Z) : completion (option string) :=
  match lastWateredAt with
  | None | Some EmptyString => Normal None
  | Some s =>
      match new_Date s with
      | None => Normal None
      | Some last =>
          match setDate last (getDate last + wateringIntervalDays) with
          | Some last' => Normal (Some (toISOString last'))
          | None => RangeError
          end
      end
  end.
End Dates.

(** ** Records *)

(** An object returned by [statement.getAsObject()]. *)
Module Row.
Record t : Type := mk {
  id : Z;
  name : string;
  species : string;
  watering_interval_days : Z;
  last_watered_at : option string;
  notes : string;
  created_at : string
}.
End Row.

(** The object built by [mapRow]; the client's [Plant] type. *)
Module Plant.
Record t : Type := mk {
  id : Z;
  name : string;
  species : string;
  wateringIntervalDays : Z;
  lastWateredAt : option string;
  notes : string;
  createdAt : string;
  nextWateringDueAt : option string
}.
End Plant.

Section Display.
Context `{Host}.

Definition mapRow (row : Row.t) : completion Plant.t :=
  cbind (nextWateringDueAt (Row.last_watered_at row) (Row.watering_interval_days row))
    (λ due,
      Normal {| Plant.id := Row.id row;
                Plant.name := Row.name row;
                Plant.species := Row.species row;
                Plant.wateringIntervalDays := Row.watering_interval_days row;
                Plant.lastWateredAt := Row.last_watered_at row;
                Plant.notes := Row.notes row;
                Plant.createdAt := Row.created_at row;
                Plant.nextWateringDueAt := due |}).

(** ** client: isDueNow, with [now] for [Date.now()] *)

Definition isDueNow (plant : Plant.t) (now : Z) : bool :=
  if falsy (Plant.lastWateredAt plant) then true
  else
    match Plant.nextWateringDueAt plant with
    | None | Some EmptyString => true
    | Some s =>
        match new_Date s with
        | None => true
        | Some dueDate => dueDate <=? now
        end
    end.

(** ** client: dueLabel *)

Inductive tone : Type := due | soon | ok.

Record label : Type := mk_label { text : string; label_tone : tone }.

(** The double nearest to an integer.  An integer of magnitude up to 2^53
    is a double; a larger one is rounded to 53 significant bits, to the even
    significand when it lies half way (no integer met here is near the
    largest double).  Time values are integers below 2^53 in magnitude, so
    the code's [dueDate.getTime() - Date.now()], a subtraction of doubles,
    is the exact difference rounded in this way. *)
Definition to_double (x : Z) : Z :=
  let a := Z.abs x in
  if a <=? 2 ^ 53 then x
  else
    let e := Z.log2 a - 52 in
    let q := a / 2 ^ e in
    let r := a mod 2 ^ e in
    let q' := if (2 ^ (e - 1) <? r) || ((r =? 2 ^ (e - 1)) && Z.odd q)
              then q + 1 else q in
    Z.sgn x * (q' * 2 ^ e).

(** [Math.ceil(a / b)] for a double [a] that holds an integer and
    [b = 86400000].  The quotient of the code is a double as well, the
    exact quotient rounded, and [ceil_div] is the ceiling of the exact
    quotient; the two ceilings are the same for every [a] below 2^54 in
    magnitude, which the difference of two time values is.  For the exact
    quotient is either an integer, and then a double, or at least [1 / b]
    away from every integer, which is more than the rounding can move it:
    half the spacing of the doubles is 2^-27 below 2^27, where [a] may be
    any integer, and 2^-26 from 2^27 to 2^28, where [a] is above 2^53 and so
    an even integer, at least [2 / b] away ([quotient_clear_of_integers]).
    A quotient between -1 and 0 has the ceiling -0, which the comparisons
    of the code treat as 0. *)
Definition ceil_div (a b : Z) : Z := - ((- a) / b).

Definition dueLabel (plant : Plant.t) (now : Z) : label :=
  if falsy (Plant.lastWateredAt plant)
  then {| text := "Needs water"; label_tone := due |}
  else
    match Plant.nextWateringDueAt plant with
    | None | Some EmptyString => {| text := "Needs water"; label_tone := due |}
    | Some s =>
        match new_Date s with
        | None => {| text := "Needs water"; label_tone := due |}
        | Some dueDate =>
            let msPerDay := 1000 * 60 * 60 * 24 in
            let diffDays := ceil_div (to_double (dueDate - now)) msPerDay in
            if diffDays <=? 0 then
              {| text := if diffDays <? 0
                         then "Overdue " +:+ decimal (Z.abs diffDays) +:+ "d"
                         else "Due today";
                 label_tone := due |}
            else if diffDays <=? 2 then
              {| text := "Due in " +:+ decimal diffDays +:+ "d"; label_tone := soon |}
            else
              {| text := "Due in " +:+ decimal diffDays +:+ "d"; label_tone := ok |}
        end
    end.
End Display.

(** ** The SQL engine: values, three-valued logic, datetime() *)

(** An SQL truth value; [None] is NULL (unknown). *)
Definition sql_or (a b : option bool) : option bool :=
  match a, b with
  | Some true, _ => Some true
  | _, Some true => Some true
  | Some false, Some false => Some false
  | _, _ => None
  end.

Definition sql_and (a b : option bool) : option bool :=
  match a, b with
  | Some false, _ => Some false
  | _, Some false => Some false
  | Some true, Some true => Some true
  | _, _ => None
  end.

Definition sql_is_null {A} (v : option A) : option bool :=
  match v with
  | None => Some true
  | Some _ => Some false
  end.

Definition sql_is_not_null {A} (v : option A) : option bool :=
  match v with
  | None => Some false
  | Some _ => Some true
  end.

(** [a <= b] and [a > b] on TEXT values, compared byte by byte. *)
Definition sql_le (a b : option string) : option bool :=
  match a, b with
  | Some x, Some y =>
      Some (match String.compare x y with Gt => false | _ => true end)
  | _, _ => None
  end.

Definition sql_gt (a b : option string) : option bool :=
  match a, b with
  | Some x, Some y =>
      Some (match String.compare x y with Gt => true | _ => false end)
  | _, _ => None
  end.

(** A WHERE clause keeps a row when its condition is true, not when it is
    false or NULL. *)
Definition where_true (c : option bool) : bool :=
  match c with
  | Some true => true
  | _ => false
  end.

(** The engine's dates run from Julian day 0 to 9999-12-31 23:59:59.999. *)
Definition sqliteMinTime : Z := -210866760000000.
Definition sqliteMaxTime : Z := 253402300799999.

Definition validJulianDay (t : Z) : bool :=
  (sqliteMinTime <=? t) && (t <=? sqliteMaxTime).

(** The text [YYYY-MM-DD HH:MM:SS] of a time value; the milliseconds are
    dropped. *)
Definition datetime_text (t : Z) : string :=
  let y := YearFromTime t in
  (if y <? 0 then "-" +:+ pad 4 (- y) else pad 4 y) +:+ "-"
  +:+ pad 2 (MonthFromTime t + 1) +:+ "-" +:+ pad 2 (DateFromTime t) +:+ " "
  +:+ pad 2 (HourFromTime t) +:+ ":" +:+ pad 2 (MinFromTime t) +:+ ":"
  +:+ pad 2 (SecFromTime t).

(** [datetime('now')] and [CURRENT_TIMESTAMP] at clock reading [now]. *)
Definition datetime_now (now : Z) : option string :=
  if validJulianDay now then Some (datetime_text now) else None.

Section Engine.
Context `{Host}.

(** [datetime(timestring, '+' || days || ' days')].  The modifier is
    well formed only when the integer printed after the plus sign has no
    sign of its own. *)
Definition datetime_plus_days (timestring : option string) (days : Z)
    : option string :=
  match timestring with
  | None => None
  | Some s =>
      match sqlite_time s with
      | None => None
      | Some t =>
          if days <? 0 then None
          else
            let t' := t + days * msPerDay in
            if validJulianDay t' then Some (datetime_text t') else None
      end
  end.

(** The condition of the 'due' query. *)
Definition due_condition (now : Z) (row : Row.t) : option bool :=
  sql_or (sql_is_null (Row.last_watered_at row))
         (sql_le (datetime_plus_days (Row.last_watered_at row)
                                     (Row.watering_interval_days row))
                 (datetime_now now)).

(** The condition of the 'upcoming' query. *)
Definition upcoming_condition (now : Z) (row : Row.t) : option bool :=
  sql_and (sql_is_not_null (Row.last_watered_at row))
          (sql_gt (datetime_plus_days (Row.last_watered_at row)
                                      (Row.watering_interval_days row))
                  (datetime_now now)).
End Engine.

(** ** The store *)

(** A stored row of table [plants]; its key in the table is the id. *)
Module Tuple.
Record t : Type := mk {
  name : string;
  species : string;
  watering_interval_days : Z;
  last_watered_at : option string;
  notes : string;
  created_at : string
}.
End Tuple.

(** The table, keyed by its INTEGER PRIMARY KEY, and the AUTOINCREMENT
    counter: the largest id ever handed out. *)
Record database : Type := mk_database {
  plants : gmap Z Tuple.t;
  sqlite_sequence : Z
}.

Definition empty_database : database :=
  {| plants := ∅; sqlite_sequence := 0 |}.

(** Every stored interval is between 1 and 365. *)
Definition intervals_valid (db : database) : Prop :=
  ∀ id x, plants db !! id = Some x →
          1 <= Tuple.watering_interval_days x <= 365.

Definition row_of (id : Z) (x : Tuple.t) : Row.t :=
  {| Row.id := id;
     Row.name := Tuple.name x;
     Row.species := Tuple.species x;
     Row.watering_interval_days := Tuple.watering_interval_days x;
     Row.last_watered_at := Tuple.last_watered_at x;
     Row.notes := Tuple.notes x;
     Row.created_at := Tuple.created_at x |}.

Definition select_plants (db : database) : list Row.t :=
  (λ ix, row_of (fst ix) (snd ix)) <$> map_to_list (plants db).

(** [ORDER BY created_at DESC, id DESC]: [a] may come before [b]. *)
Definition order_by (a b : Row.t) : bool :=
  match String.compare (Row.created_at a) (Row.created_at b) with
  | Gt => true
  | Lt => false
  | Eq => Row.id b <=? Row.id a
  end.

Definition ordered (a b : Row.t) : Prop := order_by a b = true.

Global Instance ordered_dec a b : Decision (ordered a b).
Proof. unfold ordered. apply _. Defined.

(** The order of a listing: [p] is listed before [q] when it was created
    later, or at the same time with the larger id. *)
Definition newest_first (p q : Plant.t) : Prop :=
  String.compare (Plant.createdAt p) (Plant.createdAt q) = Gt
  ∨ (Plant.createdAt p = Plant.createdAt q ∧ Plant.id q < Plant.id p).

Section Queries.
Context `{Host}.

(** The condition [listPlants] appends for its [filter] argument
    ([None] is undefined); anything but 'due' and 'upcoming' selects all. *)
Definition where_clause (filter : option string) (now : Z) (row : Row.t)
    : option bool :=
  if decide (filter = Some "due") then due_condition now row
  else if decide (filter = Some "upcoming") then upcoming_condition now row
  else Some true.

Definition query_rows (filter : option string) (now : Z) (db : database)
    : list Row.t :=
  merge_sort ordered
    (List.filter (λ row, where_true (where_clause filter now row))
                 (select_plants db)).

Definition listPlants (filter : option string) (now : Z) (db : database)
    : completion (list Plant.t) :=
  cmap mapRow (query_rows filter now db).

Definition getPlant (id : Z) (db : database) : completion (option Plant.t) :=
  match plants db !! id with
  | Some x => cbind (mapRow (row_of id x)) (λ plant, Normal (Some plant))
  | None => Normal None
  end.
End Queries.

(** ** backend/src/db.js: createPlant, updatePlant, deletePlant *)

(** An object with the five editable fields; an absent key reads as
    [VUndefined].  It is both a request body and the [updates] argument. *)
Module Payload.
Record t : Type := mk {
  name : jsval;
  species : jsval;
  wateringIntervalDays : jsval;
  lastWateredAt : jsval;
  notes : jsval
}.
End Payload.

Definition max_rowid (m : gmap Z Tuple.t) : Z :=
  foldr Z.max 0 (fst <$> map_to_list m).

Section Mutations.
Context `{Host}.

(** [clock] is the engine's clock at the INSERT, for CURRENT_TIMESTAMP. *)
Definition createPlant (name species : string) (wateringIntervalDays : Z)
    (lastWateredAt : option string) (notes : string) (clock : Z)
    (db : database) : completion (option Plant.t) * database :=
  let id := Z.max (sqlite_sequence db) (max_rowid (plants db)) + 1 in
  let inserted :=
    {| Tuple.name := name;
       Tuple.species := species;
       Tuple.watering_interval_days := wateringIntervalDays;
       Tuple.last_watered_at := lastWateredAt;
       Tuple.notes := notes;
       Tuple.created_at := datetime_text clock |} in
  let db' := {| plants := <[id := inserted]> (plants db);
                sqlite_sequence := id |} in
  (if id =? 0 then Normal None else getPlant id db', db').

Definition updatePlant (id : Z) (updates : Payload.t) (db : database)
    : completion (option Plant.t) * database :=
  match getPlant id db with
  | RangeError => (RangeError, db)
  | Normal None => (Normal None, db)
  | Normal (Some existing) =>
      let nextName :=
        match Payload.name updates with
        | VStr s => if 0 <? Z.of_nat (String.length s) then s
                    else Plant.name existing
        | _ => Plant.name existing
        end in
      let nextSpecies :=
        match Payload.species updates with
        | VStr s => if 0 <? Z.of_nat (String.length s) then s
                    else Plant.species existing
        | _ => Plant.species existing
        end in
      let nextWateringIntervalDays :=
        match Payload.wateringIntervalDays updates with
        | VNum (NInt z) => z
        | _ => Plant.wateringIntervalDays existing
        end in
      let nextLastWateredAt :=
        match Payload.lastWateredAt updates with
        | VStr s => Some s
        | VNull => None
        | _ => Plant.lastWateredAt existing
        end in
      let nextNotes :=
        match Payload.notes updates with
        | VStr s => s
        | _ => Plant.notes existing
        end in
      let db' :=
        {| plants :=
             alter (λ x, {| Tuple.name := nextName;
                            Tuple.species := nextSpecies;
                            Tuple.watering_interval_days := nextWateringIntervalDays;
                            Tuple.last_watered_at := nextLastWateredAt;
                            Tuple.notes := nextNotes;
                            Tuple.created_at := Tuple.created_at x |})
                   id (plants db);
           sqlite_sequence := sqlite_sequence db |} in
      (getPlant id db', db')
  end.

Definition deletePlant (id : Z) (db : database) : bool * database :=
  match plants db !! id with
  | Some _ => (true, {| plants := delete id (plants db);
                        sqlite_sequence := sqlite_sequence db |})
  | None => (false, db)
  end.
End Mutations.

(** ** The HTTP layer: validation and the mutating routes

    A route is a function of the body that [express.json()] has parsed and
    of the store.  The error middleware answers 500 "Unexpected server
    error" to every exception: here, to the RangeError of [mapRow]; outside
    these functions, to a body the parser refuses (see [send]) and to a
    failure of the database file, which is not modelled. *)

Inductive response : Type :=
  | RError (status : Z) (error : string)
  | RPlant (status : Z) (plant : Plant.t)
  | RNoContent.

Inductive request : Type :=
  | POST_plants (body : Payload.t)
  | PUT_plants (id : string) (body : Payload.t)
  | PATCH_plants (id : string) (body : Payload.t)
  | DELETE_plants (id : string).

(** The result of [parseDateOrNull]: [undefined] rejects the request. *)
Inductive date_or_null : Type :=
  | DateUndefined
  | DateValue (v : option string).

Section Http.
Context `{Host}.

Definition ToNumber (v : jsval) : jsnum :=
  match v with
  | VUndefined => NOther
  | VNull => NInt 0
  | VBool b => NInt (if b then 1 else 0)
  | VNum n => n
  | VStr s => StringToNumber s
  | VObj prim => StringToNumber prim
  end.

Definition formatText (raw : jsval) : string :=
  match raw with
  | VStr s => String_trim s
  | _ => EmptyString
  end.

Definition parseId (raw : string) : option Z :=
  match parseInt10 raw with
  | NInt id => if 0 <? id then Some id else None
  | NOther => None
  end.

Definition parseInterval (raw : jsval) : option Z :=
  match ToNumber raw with
  | NOther => None
  | NInt value => if (1 <=? value) && (value <=? 365) then Some value else None
  end.

Definition parseDateOrNull (raw : jsval) : date_or_null :=
  match raw with
  | VUndefined => DateValue None
  | VNull => DateValue None
  | VStr EmptyString => DateValue None
  | VStr s =>
      match new_Date s with
      | None => DateUndefined
      | Some t => DateValue (Some (toISOString t))
      end
  | _ => DateUndefined
  end.

Definition formatNotes (raw : jsval) : string :=
  match raw with
  | VStr s => String_trim s
  | _ => EmptyString
  end.

Definition is_empty (s : string) : bool :=
  match s with
  | EmptyString => true
  | _ => false
  end.

Definition is_undefined (v : jsval) : bool :=
  match v with
  | VUndefined => true
  | _ => false
  end.

Definition date_value (v : option string) : jsval :=
  match v with
  | None => VNull
  | Some s => VStr s
  end.

(** The outcome of a db call as the route reports it; a raised exception
    reaches the error middleware. *)
Definition respond (missing : response) (status : Z)
    (r : completion (option Plant.t)) : response :=
  match r with
  | RangeError => RError 500 "Unexpected server error"
  | Normal None => missing
  | Normal (Some plant) => RPlant status plant
  end.

(** [app.post('/plants')] *)
Definition post_plants (body : Payload.t) (clock : Z) (db : database)
    : response * database :=
  let name := formatText (Payload.name body) in
  let species := formatText (Payload.species body) in
  let wateringIntervalDays := parseInterval (Payload.wateringIntervalDays body) in
  let notes := formatNotes (Payload.notes body) in
  let lastWateredAt := parseDateOrNull (Payload.lastWateredAt body) in
  if is_empty name then (RError 400 "Name is required", db)
  else if is_empty species then (RError 400 "Species is required", db)
  else
    match wateringIntervalDays with
    | None => (RError 400 "wateringIntervalDays must be between 1 and 365", db)
    | Some interval =>
        match lastWateredAt with
        | DateUndefined =>
            (RError 400 "lastWateredAt must be a valid date or null", db)
        | DateValue last =>
            let (plant, db') :=
              createPlant name species interval last notes clock db in
            (respond (RError 500 "Could not create plant") 201 plant, db')
        end
    end.

(** [app.put('/plants/:id')] *)
Definition put_plants (rawId : string) (body : Payload.t) (db : database)
    : response * database :=
  match parseId rawId with
  | None => (RError 400 "Invalid id", db)
  | Some id =>
      let name := formatText (Payload.name body) in
      let species := formatText (Payload.species body) in
      let wateringIntervalDays := parseInterval (Payload.wateringIntervalDays body) in
      let notes := formatNotes (Payload.notes body) in
      let lastWateredAt := parseDateOrNull (Payload.lastWateredAt body) in
      match is_empty name || is_empty species, wateringIntervalDays with
      | false, Some interval =>
          match lastWateredAt with
          | DateUndefined =>
              (RError 400 "lastWateredAt must be a valid date or null", db)
          | DateValue last =>
              let (updated, db') :=
                updatePlant id
                  {| Payload.name := VStr name;
                     Payload.species := VStr species;
                     Payload.wateringIntervalDays := VNum (NInt interval);
                     Payload.lastWateredAt := date_value last;
                     Payload.notes := VStr notes |} db in
              (respond (RError 404 "Plant not found") 200 updated, db')
          end
      | _, _ =>
          (RError 400 "name, species, and wateringIntervalDays are required", db)
      end
  end.

(** The assignments [payload.key = value] of [app.patch('/plants/:id')]. *)
Definition empty_payload : Payload.t :=
  {| Payload.name := VUndefined;
     Payload.species := VUndefined;
     Payload.wateringIntervalDays := VUndefined;
     Payload.lastWateredAt := VUndefined;
     Payload.notes := VUndefined |}.

Definition set_name (v : jsval) (p : Payload.t) : Payload.t :=
  {| Payload.name := v;
     Payload.species := Payload.species p;
     Payload.wateringIntervalDays := Payload.wateringIntervalDays p;
     Payload.lastWateredAt := Payload.lastWateredAt p;
     Payload.notes := Payload.notes p |}.

Definition set_species (v : jsval) (p : Payload.t) : Payload.t :=
  {| Payload.name := Payload.name p;
     Payload.species := v;
     Payload.wateringIntervalDays := Payload.wateringIntervalDays p;
     Payload.lastWateredAt := Payload.lastWateredAt p;
     Payload.notes := Payload.notes p |}.

Definition set_wateringIntervalDays (v : jsval) (p : Payload.t) : Payload.t :=
  {| Payload.name := Payload.name p;
     Payload.species := Payload.species p;
     Payload.wateringIntervalDays := v;
     Payload.lastWateredAt := Payload.lastWateredAt p;
     Payload.notes := Payload.notes p |}.

Definition set_lastWateredAt (v : jsval) (p : Payload.t) : Payload.t :=
  {| Payload.name := Payload.name p;
     Payload.species := Payload.species p;
     Payload.wateringIntervalDays := Payload.wateringIntervalDays p;
     Payload.lastWateredAt := v;
     Payload.notes := Payload.notes p |}.

Definition set_notes (v : jsval) (p : Payload.t) : Payload.t :=
  {| Payload.name := Payload.name p;
     Payload.species := Payload.species p;
     Payload.wateringIntervalDays := Payload.wateringIntervalDays p;
     Payload.lastWateredAt := Payload.lastWateredAt p;
     Payload.notes := v |}.

(** Each block of the route either answers 400 or carries the payload on. *)
Definition patch_name (body payload : Payload.t) : response + Payload.t :=
  match Payload.name body with
  | VStr _ =>
      let name := formatText (Payload.name body) in
      if is_empty name then inl (RError 400 "Name cannot be empty")
      else inr (set_name (VStr name) payload)
  | _ => inr payload
  end.

Definition patch_species (body payload : Payload.t) : response + Payload.t :=
  match Payload.species body with
  | VStr _ =>
      let species := formatText (Payload.species body) in
      if is_empty species then inl (RError 400 "Species cannot be empty")
      else inr (set_species (VStr species) payload)
  | _ => inr payload
  end.

Definition patch_interval (body payload : Payload.t) : response + Payload.t :=
  match Payload.wateringIntervalDays body with
  | VUndefined => inr payload
  | raw =>
      match parseInterval raw with
      | None => inl (RError 400 "wateringIntervalDays must be between 1 and 365")
      | Some wateringIntervalDays =>
          inr (set_wateringIntervalDays (VNum (NInt wateringIntervalDays)) payload)
      end
  end.

Definition patch_notes (body payload : Payload.t) : response + Payload.t :=
  match Payload.notes body with
  | VUndefined => inr payload
  | raw => inr (set_notes (VStr (formatNotes raw)) payload)
  end.

(** A decoded JSON body owns the key exactly when its value is not
    undefined. *)
Definition patch_lastWateredAt (body payload : Payload.t)
    : response + Payload.t :=
  match Payload.lastWateredAt body with
  | VUndefined => inr payload
  | raw =>
      match parseDateOrNull raw with
      | DateUndefined =>
          inl (RError 400 "lastWateredAt must be a valid date or null")
      | DateValue lastWateredAt =>
          inr (set_lastWateredAt (date_value lastWateredAt) payload)
      end
  end.

Definition and_then (r : response + Payload.t)
    (k : Payload.t → response + Payload.t) : response + Payload.t :=
  match r with
  | inl rejected => inl rejected
  | inr payload => k payload
  end.

Definition patch_payload (body : Payload.t) : response + Payload.t :=
  and_then (patch_name body empty_payload) (λ p1,
  and_then (patch_species body p1) (λ p2,
  and_then (patch_interval body p2) (λ p3,
  and_then (patch_notes body p3) (λ p4,
  patch_lastWateredAt body p4)))).

(** [Object.keys(payload).length] is zero. *)
Definition no_keys (payload : Payload.t) : bool :=
  is_undefined (Payload.name payload)
  && is_undefined (Payload.species payload)
  && is_undefined (Payload.wateringIntervalDays payload)
  && is_undefined (Payload.lastWateredAt payload)
  && is_undefined (Payload.notes payload).

Definition patch_plants (rawId : string) (body : Payload.t) (db : database)
    : response * database :=
  match parseId rawId with
  | None => (RError 400 "Invalid id", db)
  | Some id =>
      match patch_payload body with
      | inl rejected => (rejected, db)
      | inr payload =>
          if no_keys payload then (RError 400 "Nothing to update", db)
          else
            let (updated, db') := updatePlant id payload db in
            (respond (RError 404 "Plant not found") 200 updated, db')
      end
  end.

(** [app.delete('/plants/:id')] *)
Definition delete_plants (rawId : string) (db : database)
    : response * database :=
  match parseId rawId with
  | None => (RError 400 "Invalid id", db)
  | Some id =>
      let (removed, db') := deletePlant id db in
      if removed then (RNoContent, db')
      else (RError 404 "Plant not found", db')
  end.

(** One request served at clock reading [clock]. *)
Definition handle (req : request) (clock : Z) (db : database)
    : response * database :=
  match req with
  | POST_plants body => post_plants body clock db
  | PUT_plants id body => put_plants id body db
  | PATCH_plants id body => patch_plants id body db
  | DELETE_plants id => delete_plants id db
  end.

(** The stores the service can be in: the empty one, and any store a
    request leads to. *)
Inductive reachable : database → Prop :=
  | reachable_empty : reachable empty_database
  | reachable_handle req clock db :
      reachable db → reachable (snd (handle req clock db)).
End Http.

(** ** A concrete host

    Local time is UTC.  The date parsers read the format that [toISOString]
    writes, [YYYY-MM-DDTHH:MM:SS.sssZ], the JavaScript one also with the
    six-digit signed years; the number parsers read plain decimal integers.
    The engines accept more text than that (other date layouts, fractions,
    exponents); on the text read here, and on text that is no date or number
    in any layout, this host answers as they do. *)

Module Reference.
Definition is_space (c : ascii) : bool :=
  let n := N_of_ascii c in
  ((9 <=? n) && (n <=? 13))%N || (n =? 32)%N.

Fixpoint drop_spaces (cs : list ascii) : list ascii :=
  match cs with
  | c :: cs' => if is_space c then drop_spaces cs' else cs
  | [] => []
  end.

Definition trim (s : string) : string :=
  string_of_list_ascii
    (rev (drop_spaces (rev (drop_spaces (list_ascii_of_string s))))).

Definition days_in_month (year month : Z) : Z :=
  if month =? 2 then (if DaysInYear year =? 366 then 29 else 28)
  else if (month =? 4) || (month =? 6) || (month =? 9) || (month =? 11) then 30
  else 31.

(** The part after the year: [-MM-DDTHH:MM:SS.sssZ]. *)
Definition month_to_zone (year : Z) (cs : list ascii) : option Z :=
  match cs with
  | [p1; m1; m2; p2; d1; d2; p3; h1; h2; p4; n1; n2; p5; s1; s2; p6;
     f1; f2; f3; p7] =>
      if String.eqb (string_of_list_ascii [p1; p2; p3; p4; p5; p6; p7]) "--T::.Z"
      then
        month ← number_of [m1; m2];
        day ← number_of [d1; d2];
        hour ← number_of [h1; h2];
        minute ← number_of [n1; n2];
        second ← number_of [s1; s2];
        ms ← number_of [f1; f2; f3];
        if (1 <=? month) && (month <=? 12) && (1 <=? day)
           && (day <=? days_in_month year month)
           && (hour <=? 23) && (minute <=? 59) && (second <=? 59)
        then Some (MakeDate (MakeDay year (month - 1) day)
                            (MakeTime hour minute second ms))
        else None
      else None
  | _ => None
  end.

Definition four_digit_year (cs : list ascii) : option Z :=
  match cs with
  | y1 :: y2 :: y3 :: y4 :: rest =>
      year ← number_of [y1; y2; y3; y4];
      month_to_zone year rest
  | _ => None
  end.

Definition six_digit_year (sign : Z) (cs : list ascii) : option Z :=
  match cs with
  | y1 :: y2 :: y3 :: y4 :: y5 :: y6 :: rest =>
      year ← number_of [y1; y2; y3; y4; y5; y6];
      if (sign <? 0) && (year =? 0) then None
      else month_to_zone (sign * year) rest
  | _ => None
  end.

Definition date_parse (s : string) : option Z :=
  match list_ascii_of_string s with
  | c :: cs =>
      if Ascii.eqb c "+" then six_digit_year 1 cs
      else if Ascii.eqb c "-" then six_digit_year (-1) cs
      else four_digit_year (c :: cs)
  | [] => None
  end.

Definition sqlite_parse (s : string) : option Z :=
  four_digit_year (list_ascii_of_string s).

Definition signed_digits (cs : list ascii) : jsnum :=
  match cs with
  | c :: cs' =>
      if Ascii.eqb c "-" then
        match number_of cs' with Some n => NInt (- n) | None => NOther end
      else if Ascii.eqb c "+" then
        match number_of cs' with Some n => NInt n | None => NOther end
      else
        match number_of cs with Some n => NInt n | None => NOther end
  | [] => NOther
  end.

(** The empty and the blank string convert to 0. *)
Definition string_to_number (s : string) : jsnum :=
  match list_ascii_of_string (trim s) with
  | [] => NInt 0
  | cs => signed_digits cs
  end.

Fixpoint leading_digits (cs : list ascii) : list ascii :=
  match cs with
  | c :: cs' =>
      match digit_value c with
      | Some _ => c :: leading_digits cs'
      | None => []
      end
  | [] => []
  end.

Definition parse_int (s : string) : jsnum :=
  match drop_spaces (list_ascii_of_string s) with
  | c :: cs =>
      if Ascii.eqb c "-" then signed_digits (c :: leading_digits cs)
      else if Ascii.eqb c "+" then signed_digits (c :: leading_digits cs)
      else signed_digits (leading_digits (c :: cs))
  | [] => NOther
  end.
End Reference.

Definition reference_host : Host :=
  {| LocalTZA := λ _ _, 0;
     Date_parse := Reference.date_parse;
     sqlite_time := Reference.sqlite_parse;
     StringToNumber := Reference.string_to_number;
     parseInt10 := Reference.parse_int;
     String_trim := Reference.trim |}.

(** The reference host in a zone that moves its clocks forward by an hour
    at 2024-03-31T01:00:00Z, as Europe/London does.  Local times in the
    skipped hour are read with the offset before the change. *)
Definition spring_forward : Z := 1711846800000.

Definition london_host : Host :=
  {| LocalTZA := λ t isUTC,
       if isUTC
       then (if t <? spring_forward then 0 else msPerHour)
       else (if t <? spring_forward + msPerHour then 0 else msPerHour);
     Date_parse := Reference.date_parse;
     sqlite_time := Reference.sqlite_parse;
     StringToNumber := Reference.string_to_number;
     parseInt10 := Reference.parse_int;
     String_trim := Reference.trim |}.

(** ** Stores used to evaluate the code *)

Module Examples.
(** 2024-01-01T00:00:00.000Z *)
Definition new_year : Z := 1704067200000.

Definition fern (lastWateredAt : jsval) (interval : Z) : Payload.t :=
  {| Payload.name := VStr "Fern";
     Payload.species := VStr "Nephrolepis";
     Payload.wateringIntervalDays := VNum (NInt interval);
     Payload.lastWateredAt := lastWateredAt;
     Payload.notes := VStr "" |}.

(** The store after one POST /plants at [new_year]. *)
Definition posted (lastWateredAt : jsval) (interval : Z) : database :=
  snd (@handle reference_host (POST_plants (fern lastWateredAt interval))
         new_year empty_database).

(** Watered half a second after midnight, to be watered daily. *)
Definition half_second : database :=
  posted (VStr "2024-01-01T00:00:00.500Z") 1.

(** Watered on the last day the SQL engine can print. *)
Definition year_9999 : database :=
  posted (VStr "9999-12-31T00:00:00.000Z") 1.

(** Watered at noon on the day before the clocks move, on [london_host]. *)
Definition before_clock_change : database :=
  snd (@handle london_host
         (POST_plants (fern (VStr "2024-03-30T12:00:00.000Z") 1))
         new_year empty_database).

(** A row whose [last_watered_at] is no date, written by [createPlant]. *)
Definition unreadable : database :=
  snd (@createPlant reference_host "Fern" "Nephrolepis" 7 (Some "yesterday")
         "" new_year empty_database).

(** The record [mapRow] builds from the one row of a store above. *)
Definition listed (interval : Z) (lastWateredAt nextWateringDueAt : option string)
    : Plant.t :=
  {| Plant.id := 1;
     Plant.name := "Fern";
     Plant.species := "Nephrolepis";
     Plant.wateringIntervalDays := interval;
     Plant.lastWateredAt := lastWateredAt;
     Plant.notes := "";
     Plant.createdAt := "2024-01-01 00:00:00";
     Plant.nextWateringDueAt := nextWateringDueAt |}.

(** Two plants, the second created a day after the first. *)
Definition two_plants : database :=
  snd (@handle reference_host (POST_plants (fern VNull 7))
         (new_year + msPerDay) (posted (VStr "2023-12-30T12:00:00.000Z") 3)).

(** The listing of [two_plants]. *)
Definition two_listed : list Plant.t :=
  [ {| Plant.id := 2;
       Plant.name := "Fern";
       Plant.species := "Nephrolepis";
       Plant.wateringIntervalDays := 7;
       Plant.lastWateredAt := None;
       Plant.notes := "";
       Plant.createdAt := "2024-01-02 00:00:00";
       Plant.nextWateringDueAt := None |};
    listed 3 (Some "2023-12-30T12:00:00.000Z") (Some "2024-01-02T12:00:00.000Z") ].

(** A body that sets the interval and the notes only. *)
Definition water_weekly : Payload.t :=
  {| Payload.name := VUndefined;
     Payload.species := VStr "";
     Payload.wateringIntervalDays := VNum (NInt 14);
     Payload.lastWateredAt := VUndefined;
     Payload.notes := VStr "shade" |}.
End Examples.

(** ** Conditions on a store *)

(** Every id in the table is positive and at most the AUTOINCREMENT
    counter. *)
Definition ids_issued (db : database) : Prop :=
  ∀ id x, plants db !! id = Some x → 0 < id <= sqlite_sequence db.

(** Every stored name and species is a non-empty string. *)
Definition names_present (db : database) : Prop :=
  ∀ id x, plants db !! id = Some x →
          Tuple.name x ≠ EmptyString ∧ Tuple.species x ≠ EmptyString.

(** Every stored [last_watered_at] is NULL or the ISO text of a valid
    Date. *)
Definition dates_normal (db : database) : Prop :=
  ∀ id x, plants db !! id = Some x →
          Tuple.last_watered_at x = None
          ∨ ∃ t, Z.abs t <= maxTime
                 ∧ Tuple.last_watered_at x = Some (toISOString t).

(** ** client: the form, the summary and the requests it sends *)

(** The text of the five inputs of a form. *)
Module Draft.
Record t : Type := mk {
  name : string;
  species : string;
  wateringIntervalDays : string;
  lastWateredAt : string;
  notes : string
}.
End Draft.

(** The [value] of a draft that [validateDraft] accepts. *)
Module Value.
Record t : Type := mk {
  name : string;
  species : string;
  wateringIntervalDays : Z;
  lastWateredAt : option string;
  notes : string
}.
End Value.

Inductive validated : Type :=
  | DraftError (error : string)
  | DraftOk (value : Value.t).

Section Form.
Context `{Host}.

Definition fromDateInputValue (value : string) : option string :=
  match value with
  | EmptyString => None
  | _ =>
      match new_Date (value +:+ "T12:00:00") with
      | None => None
      | Some date => Some (toISOString date)
      end
  end.

(** [slice(0, 10)] of the ISO text. *)
Definition toDateInputValue (value : option string) : string :=
  match value with
  | None | Some EmptyString => EmptyString
  | Some s =>
      match new_Date s with
      | None => EmptyString
      | Some date => substring 0 10 (toISOString date)
      end
  end.

Definition validateDraft (draft : Draft.t) : validated :=
  let name := String_trim (Draft.name draft) in
  if is_empty name then DraftError "Plant name is required"
  else
    let species := String_trim (Draft.species draft) in
    if is_empty species then DraftError "Species is required"
    else
      match parseInt10 (Draft.wateringIntervalDays draft) with
      | NInt wateringIntervalDays =>
          if (wateringIntervalDays <? 1) || (365 <? wateringIntervalDays)
          then DraftError "Watering interval must be between 1 and 365 days"
          else
            DraftOk
              {| Value.name := name;
                 Value.species := species;
                 Value.wateringIntervalDays := wateringIntervalDays;
                 Value.lastWateredAt := fromDateInputValue (Draft.lastWateredAt draft);
                 Value.notes := String_trim (Draft.notes draft) |}
      | NOther => DraftError "Watering interval must be between 1 and 365 days"
      end.

(** [plants.filter((plant) => isDueNow(plant)).length] and
    [plants.length - dueNowCount] *)
Definition dueNowCount (plants : list Plant.t) (now : Z) : Z :=
  Z.of_nat (length (List.filter (λ plant, isDueNow plant now) plants)).

Definition upcomingCount (plants : list Plant.t) (now : Z) : Z :=
  Z.of_nat (length plants) - dueNowCount plants now.

(** The body [express.json()] hands to the route when it accepts the text
    [JSON.stringify] wrote for a value: parsing that text gives the value
    again. *)
Definition body_of (value : Value.t) : Payload.t :=
  {| Payload.name := VStr (Value.name value);
     Payload.species := VStr (Value.species value);
     Payload.wateringIntervalDays := VNum (NInt (Value.wateringIntervalDays value));
     Payload.lastWateredAt := date_value (Value.lastWateredAt value);
     Payload.notes := VStr (Value.notes value) |}.

(** The id as the template [`/plants/${id}`] prints it. *)
Definition id_text (id : Z) : string :=
  if id <? 0 then "-" +:+ decimal (- id) else decimal id.

(** The text [JSON.stringify] writes for a value, with the keys in the
    order of the object literal of [validateDraft].  A string stands for
    the bytes of its UTF-8 encoding, which is how the body is sent and how
    the body parser counts it; of these bytes JSON.stringify escapes the
    quotation mark, the backslash and the control characters. *)
Definition quotation_mark : string := String (ascii_of_N 34) EmptyString.

Definition hex_digit (n : N) : ascii :=
  if (n <? 10)%N then ascii_of_N (48 + n) else ascii_of_N (87 + n).

Definition backslash : string := String (ascii_of_N 92) EmptyString.

Definition json_escape (c : ascii) : string :=
  let n := N_of_ascii c in
  if (n =? 34)%N then backslash +:+ quotation_mark
  else if (n =? 92)%N then backslash +:+ backslash
  else if (n =? 8)%N then backslash +:+ "b"
  else if (n =? 9)%N then backslash +:+ "t"
  else if (n =? 10)%N then backslash +:+ "n"
  else if (n =? 12)%N then backslash +:+ "f"
  else if (n =? 13)%N then backslash +:+ "r"
  else if (n <? 32)%N then
    backslash +:+ "u00"
    +:+ String (hex_digit (n / 16)) (String (hex_digit (n mod 16)) EmptyString)
  else String c EmptyString.

Fixpoint json_chars (s : string) : string :=
  match s with
  | EmptyString => EmptyString
  | String c s' => json_escape c +:+ json_chars s'
  end.

Definition json_string (s : string) : string :=
  quotation_mark +:+ json_chars s +:+ quotation_mark.

Definition json_member (key value : string) : string :=
  json_string key +:+ ":" +:+ value.

Definition JSON_stringify (value : Value.t) : string :=
  "{" +:+ json_member "name" (json_string (Value.name value))
  +:+ "," +:+ json_member "species" (json_string (Value.species value))
  +:+ "," +:+ json_member "wateringIntervalDays"
                (id_text (Value.wateringIntervalDays value))
  +:+ "," +:+ json_member "lastWateredAt"
                (match Value.lastWateredAt value with
                 | None => "null"
                 | Some s => json_string s
                 end)
  +:+ "," +:+ json_member "notes" (json_string (Value.notes value))
  +:+ "}".

(** [express.json()] with its default limit of 100kb: the parsed body, or
    nothing when the text is longer and the body parser raises. *)
Definition body_limit : Z := 102400.

Definition express_json (value : Value.t) : option Payload.t :=
  if Z.of_nat (String.length (JSON_stringify value)) <=? body_limit
  then Some (body_of value)
  else None.

(** A request with the JSON text of [value] as body, as the server answers
    it at clock reading [clock]: the body parser runs before the route, and
    what it raises reaches the error middleware. *)
Definition send (route : Payload.t → request) (value : Value.t) (clock : Z)
    (db : database) : response * database :=
  match express_json value with
  | Some body => handle (route body) clock db
  | None => (RError 500 "Unexpected server error", db)
  end.

(** [handleCreatePlant]: nothing is sent for a draft that is not valid;
    for a valid one, the answer to [createPlant(parsed.value)] and the
    store it leaves. *)
Definition handleCreatePlant (newPlant : Draft.t) (clock : Z) (db : database)
    : option (response * database) :=
  match validateDraft newPlant with
  | DraftError _ => None
  | DraftOk value => Some (send POST_plants value clock db)
  end.

(** [saveEdit]: likewise for [updatePlant(id, parsed.value)], a PATCH. *)
Definition saveEdit (id : Z) (editingPlant : Draft.t) (clock : Z)
    (db : database) : option (response * database) :=
  match validateDraft editingPlant with
  | DraftError _ => None
  | DraftOk value => Some (send (PATCH_plants (id_text id)) value clock db)
  end.

(** [markWateredNow] at clock reading [now]: the request it sends.  Its
    body, one key with an ISO date, is below fifty bytes. *)
Definition markWateredNow (plant : Plant.t) (now : Z) : request :=
  PATCH_plants (id_text (Plant.id plant))
    (set_lastWateredAt (VStr (toISOString now)) empty_payload).

(** [removePlant] *)
Definition removePlant (plant : Plant.t) : request :=
  DELETE_plants (id_text (Plant.id plant)).

(** [startEditing]: the draft the edit form opens with.  [String(n)] of
    the interval is the text [id_text] writes for an integer. *)
Definition startEditing (plant : Plant.t) : Draft.t :=
  {| Draft.name := Plant.name plant;
     Draft.species := Plant.species plant;
     Draft.wateringIntervalDays := id_text (Plant.wateringIntervalDays plant);
     Draft.lastWateredAt := toDateInputValue (Plant.lastWateredAt plant);
     Draft.notes := Plant.notes plant |}.
End Form.

(** ** A host for the form

    [reference_host] that reads also the date-time without a zone which the
    form writes, [YYYY-MM-DDTHH:MM:SS], as local time; local time is UTC. *)
Definition browser_host : Host :=
  {| LocalTZA := λ _ _, 0;
     Date_parse := λ s,
       match Reference.date_parse s with
       | Some t => Some t
       | None => Reference.date_parse (s +:+ ".000Z")
       end;
     sqlite_time := Reference.sqlite_parse;
     StringToNumber := Reference.string_to_number;
     parseInt10 := Reference.parse_int;
     String_trim := Reference.trim |}.

(** Forms and stores used to evaluate the client and the routes. *)
Module Forms.
Definition fern : Draft.t :=
  {| Draft.name := " Fern ";
     Draft.species := "Nephrolepis";
     Draft.wateringIntervalDays := "7";
     Draft.lastWateredAt := "2024-01-01";
     Draft.notes := " shade " |}.

(** What [validateDraft] makes of [fern] on [browser_host]. *)
Definition fern_value : Value.t :=
  {| Value.name := "Fern";
     Value.species := "Nephrolepis";
     Value.wateringIntervalDays := 7;
     Value.lastWateredAt := Some "2024-01-01T12:00:00.000Z";
     Value.notes := "shade" |}.

(** The first row of [Examples.two_plants]. *)
Definition first_row : Tuple.t :=
  {| Tuple.name := "Fern";
     Tuple.species := "Nephrolepis";
     Tuple.watering_interval_days := 3;
     Tuple.last_watered_at := Some "2023-12-30T12:00:00.000Z";
     Tuple.notes := "";
     Tuple.created_at := "2024-01-01 00:00:00" |}.

(** The second row of [Examples.two_plants], never watered. *)
Definition second_row : Tuple.t :=
  {| Tuple.name := "Fern";
     Tuple.species := "Nephrolepis";
     Tuple.watering_interval_days := 7;
     Tuple.last_watered_at := None;
     Tuple.notes := "";
     Tuple.created_at := "2024-01-02 00:00:00" |}.

(** The last instant of a Date, which the validation accepts. *)
Definition last_instant : string := "+275760-09-13T00:00:00.000Z".

(** The row a POST with [last_instant] leaves. *)
Definition last_row : Tuple.t :=
  {| Tuple.name := "Fern";
     Tuple.species := "Nephrolepis";
     Tuple.watering_interval_days := 1;
     Tuple.last_watered_at := Some last_instant;
     Tuple.notes := "";
     Tuple.created_at := "2024-01-01 00:00:00" |}.

(** A body that holds the key [notes] only. *)
Definition shade : Payload.t := set_notes (VStr " shade ") empty_payload.

(** A plant watered in the evening: 2024-01-01T18:30:15.250Z. *)
Definition evening : Z := 1704133815250.

Definition watered_evening : Plant.t :=
  {| Plant.id := 1;
     Plant.name := "Fern";
     Plant.species := "Nephrolepis";
     Plant.wateringIntervalDays := 3;
     Plant.lastWateredAt := Some (toISOString evening);
     Plant.notes := "";
     Plant.createdAt := "2024-01-01 00:00:00";
     Plant.nextWateringDueAt := Some "2024-01-04T18:30:15.250Z" |}.

(** What [validateDraft] makes of the edit form opened on it. *)
Definition evening_value : Value.t :=
  {| Value.name := "Fern";
     Value.species := "Nephrolepis";
     Value.wateringIntervalDays := 3;
     Value.lastWateredAt := Some "2024-01-01T12:00:00.000Z";
     Value.notes := "" |}.
End Forms.

(** * Properties *)

(** ** Calendar arithmetic *)

(** [YearFromTime t] is the year whose days include [Day t]. *)
Lemma YearFromTime_spec t :
  DayFromYear (YearFromTime t) <= Day t < DayFromYear (YearFromTime t + 1).
Proof.
  unfold YearFromTime. cbv zeta.
  generalize (Day t). intros d.
  repeat case_match;
    rewrite ?Z.ltb_lt, ?Z.ltb_ge, ?Z.leb_le, ?Z.leb_gt in *;
    unfold DayFromYear in *; Z.div_mod_to_equations; lia.
Qed.

Lemma DayWithinYear_range t : 0 <= DayWithinYear t < DaysInYear (YearFromTime t).
Proof.
  pose proof (YearFromTime_spec t) as Hy.
  unfold DayWithinYear, DaysInYear. generalize dependent (YearFromTime t).
  intros y Hy. unfold DayFromYear in *.
  repeat case_match;
    rewrite ?negb_true_iff, ?negb_false_iff, ?Z.eqb_eq, ?Z.eqb_neq in *;
    Z.div_mod_to_equations; lia.
Qed.

Lemma DateFromTime_range t : 1 <= DateFromTime t <= 31.
Proof.
  pose proof (DayWithinYear_range t) as Hd.
  unfold DateFromTime, MonthFromTime, InLeapYear in *.
  generalize dependent (DayWithinYear t). intros d.
  destruct (DaysInYear (YearFromTime t) =? 366) eqn:Hleap.
  - apply Z.eqb_eq in Hleap. rewrite Hleap. intros Hd.
    repeat case_match; simpl; lia.
  - assert (DaysInYear (YearFromTime t) = 365) as ->.
    { unfold DaysInYear in *. repeat case_match; done. }
    intros Hd. repeat case_match; simpl; lia.
Qed.

Lemma MonthFromTime_range t : 0 <= MonthFromTime t <= 11.
Proof. unfold MonthFromTime. repeat case_match; lia. Qed.

Lemma MakeDay_from_time t date :
  MakeDay (YearFromTime t) (MonthFromTime t) date
  = Day t + (date - DateFromTime t).
Proof.
  pose proof (MonthFromTime_range t) as Hm.
  unfold MakeDay, DateFromTime, DayWithinYear, InLeapYear.
  rewrite (Z.div_small (MonthFromTime t) 12) by lia.
  rewrite (Z.mod_small (MonthFromTime t) 12) by lia.
  rewrite Z.add_0_r. lia.
Qed.

Lemma MakeDate_shift t n :
  MakeDate (Day t + n) (TimeWithinDay t) = t + n * msPerDay.
Proof.
  unfold MakeDate, Day, TimeWithinDay.
  pose proof (Z.div_mod t msPerDay) as Hdm.
  assert (msPerDay ≠ 0) as Hnz by (unfold msPerDay; lia).
  specialize (Hdm Hnz). lia.
Qed.

Lemma TimeClip_Some t t' : TimeClip t = Some t' ↔ t' = t ∧ Z.abs t <= maxTime.
Proof.
  unfold TimeClip. destruct (Z.leb_spec (Z.abs t) maxTime); split.
  - intros [= <-]. done.
  - intros [-> _]. done.
  - discriminate.
  - intros [_ ?]. lia.
Qed.

Lemma TimeClip_None t : TimeClip t = None ↔ maxTime < Z.abs t.
Proof.
  unfold TimeClip. destruct (Z.leb_spec (Z.abs t) maxTime); split;
    try discriminate; try done; lia.
Qed.

Lemma falsy_false l : falsy l = false ↔ ∃ s, l = Some s ∧ s ≠ EmptyString.
Proof.
  split.
  - destruct l as [[|c s]|]; try discriminate. intros _. by eexists.
  - intros (s & -> & Hs). by destruct s.
Qed.

Lemma falsy_true l : falsy l = true ↔ l = None ∨ l = Some EmptyString.
Proof.
  split.
  - destruct l as [[|c s]|]; try discriminate; auto.
  - by intros [-> | ->].
Qed.

Section DateFacts.
Context `{Host}.

(** [last.setDate(last.getDate() + n)] moves the date by [n] calendar
    days of local time. *)
Lemma setDate_getDate t n :
  setDate t (getDate t + n) = TimeClip (addDays t n).
Proof.
  unfold setDate, getDate, addDays.
  rewrite MakeDay_from_time.
  replace (DateFromTime (LocalTime t) + n - DateFromTime (LocalTime t))
    with n by lia.
  by rewrite MakeDate_shift.
Qed.

Lemma addDays_local_day t n :
  Day (LocalTime t + n * msPerDay) = Day (LocalTime t) + n
  ∧ TimeWithinDay (LocalTime t + n * msPerDay) = TimeWithinDay (LocalTime t).
Proof.
  unfold Day, TimeWithinDay. split.
  - rewrite Z.div_add; [done | unfold msPerDay; lia].
  - rewrite Z.mod_add; [done | unfold msPerDay; lia].
Qed.

Lemma nextWateringDueAt_absent l n :
  falsy l = true → nextWateringDueAt l n = Normal None.
Proof. by destruct l as [[|c s]|]. Qed.

Lemma nextWateringDueAt_present s n :
  s ≠ EmptyString →
  nextWateringDueAt (Some s) n =
    match new_Date s with
    | None => Normal None
    | Some t =>
        match TimeClip (addDays t n) with
        | Some t' => Normal (Some (toISOString t'))
        | None => RangeError
        end
    end.
Proof.
  intros Hs. unfold nextWateringDueAt.
  destruct s as [|c s]; [done|]. simpl.
  destruct (new_Date _) as [t|]; [|done].
  by rewrite setDate_getDate.
Qed.

Lemma nextWateringDueAt_null l n :
  nextWateringDueAt l n = Normal None
  ↔ falsy l = true ∨ ∃ s, l = Some s ∧ new_Date s = None.
Proof.
  destruct (falsy l) eqn:Hf.
  - rewrite nextWateringDueAt_absent by done. split; auto.
  - apply falsy_false in Hf as (s & -> & Hs).
    rewrite nextWateringDueAt_present by done.
    destruct (new_Date s) as [t|] eqn:Ht.
    + split.
      * destruct (TimeClip _); discriminate.
      * intros [? | (s' & [= <-] & ?)]; congruence.
    + split; [|done]. intros _. right. by exists s.
Qed.
End DateFacts.

(** ** The next due date *)

Section NextDue.
Context `{Host}.

(** In a zone with a fixed offset, calendar days are 24-hour days. *)
Lemma addDays_fixed_offset (offset : Z) t n :
  (∀ x isUTC, LocalTZA x isUTC = offset) →
  addDays t n = t + n * msPerDay.
Proof.
  intros Hzone. unfold addDays, UTC, LocalTime. rewrite !Hzone. lia.
Qed.

Lemma mapRow_Normal row plant :
  mapRow row = Normal plant →
  Plant.id plant = Row.id row
  ∧ Plant.name plant = Row.name row
  ∧ Plant.species plant = Row.species row
  ∧ Plant.wateringIntervalDays plant = Row.watering_interval_days row
  ∧ Plant.lastWateredAt plant = Row.last_watered_at row
  ∧ Plant.notes plant = Row.notes row
  ∧ Plant.createdAt plant = Row.created_at row
  ∧ nextWateringDueAt (Row.last_watered_at row) (Row.watering_interval_days row)
    = Normal (Plant.nextWateringDueAt plant).
Proof.
  unfold mapRow.
  destruct (nextWateringDueAt _ _) as [next|]; [|discriminate].
  simpl. intros [= <-]. simpl. tauto.
Qed.

(** What [nextWateringDueAt] does, case by case.  It returns null exactly
    when [lastWateredAt] is null, empty or not a valid date.  Otherwise the
    date is moved by [wateringIntervalDays] calendar days of local time
    (the local day number grows by that many, the time within the day is
    kept); if the moved instant is within the range of a Date, its ISO
    text is returned, and beyond that range the call raises RangeError.
    A record built by [mapRow] carries that value: absent exactly when
    [lastWateredAt] is absent or unparseable, and else the ISO text of the
    moved instant. *)
Lemma nextWateringDueAt_calendar_days (l : option string) (n : Z) :
  (nextWateringDueAt l n = Normal None
   ↔ falsy l = true ∨ ∃ s, l = Some s ∧ new_Date s = None)
  ∧ (∀ s t, l = Some s → s ≠ EmptyString → new_Date s = Some t →
       Day (LocalTime t + n * msPerDay) = Day (LocalTime t) + n
       ∧ TimeWithinDay (LocalTime t + n * msPerDay) = TimeWithinDay (LocalTime t)
       ∧ (Z.abs (addDays t n) <= maxTime →
          nextWateringDueAt l n = Normal (Some (toISOString (addDays t n))))
       ∧ (maxTime < Z.abs (addDays t n) → nextWateringDueAt l n = RangeError))
  ∧ (∀ row plant,
       Row.last_watered_at row = l → Row.watering_interval_days row = n →
       mapRow row = Normal plant →
       (Plant.nextWateringDueAt plant = None
        ↔ falsy l = true ∨ ∃ s, l = Some s ∧ new_Date s = None)
       ∧ (∀ s t, l = Some s → s ≠ EmptyString → new_Date s = Some t →
            Plant.nextWateringDueAt plant = Some (toISOString (addDays t n)))).
Proof.
  assert (∀ s t, l = Some s → s ≠ EmptyString → new_Date s = Some t →
            nextWateringDueAt l n =
              match TimeClip (addDays t n) with
              | Some t' => Normal (Some (toISOString t'))
              | None => RangeError
              end) as Hpresent.
  { intros s t -> Hs Ht. by rewrite nextWateringDueAt_present, Ht. }
  split; [apply nextWateringDueAt_null|]. split.
  - intros s t Hl Hs Ht.
    destruct (addDays_local_day t n) as [Hday Htime].
    repeat split; [done | done | |].
    + intros Hrange. rewrite (Hpresent s t) by done.
      destruct (TimeClip _) as [t'|] eqn:Hclip.
      * apply TimeClip_Some in Hclip as [-> _]. done.
      * apply TimeClip_None in Hclip. lia.
    + intros Hrange. rewrite (Hpresent s t) by done.
      destruct (TimeClip _) as [t'|] eqn:Hclip; [|done].
      apply TimeClip_Some in Hclip as [_ ?]. lia.
  - intros row plant Hl Hn Hrow.
    apply mapRow_Normal in Hrow as (_ & _ & _ & _ & _ & _ & _ & Hnext).
    rewrite Hl, Hn in Hnext. split.
    + rewrite <- nextWateringDueAt_null with (n := n). rewrite Hnext.
      split; [by intros -> | by intros [= ->]].
    + intros s t Hs Hne Ht. rewrite (Hpresent s t) in Hnext by done.
      destruct (TimeClip _) as [t'|] eqn:Hclip; [|done].
      apply TimeClip_Some in Hclip as [-> _]. by injection Hnext as <-.
Qed.

(** Where both calls return: for a valid [lastWateredAt] and intervals
    [d1 <= d2], the due date computed for [d1] is not later than the one
    computed for [d2].  The offsets of the host's zone are taken to lie
    within one day of each other, as they do in a zone with a fixed offset
    or with daylight saving. *)
Lemma nextWateringDueAt_monotone (s : string) (t d1 d2 : Z) (r1 r2 : string) :
  (∀ a b, LocalTZA b false - LocalTZA a false <= msPerDay) →
  s ≠ EmptyString →
  new_Date s = Some t →
  1 <= d1 → d1 <= d2 → d2 <= 365 →
  nextWateringDueAt (Some s) d1 = Normal (Some r1) →
  nextWateringDueAt (Some s) d2 = Normal (Some r2) →
  r1 = toISOString (addDays t d1)
  ∧ r2 = toISOString (addDays t d2)
  ∧ addDays t d1 <= addDays t d2.
Proof.
  intros Hzone Hs Ht _ Hle _ H1 H2.
  rewrite nextWateringDueAt_present, Ht in H1, H2 by done.
  destruct (TimeClip (addDays t d1)) as [t1|] eqn:Hc1; [|done].
  destruct (TimeClip (addDays t d2)) as [t2|] eqn:Hc2; [|done].
  apply TimeClip_Some in Hc1 as [-> _].
  apply TimeClip_Some in Hc2 as [-> _].
  injection H1 as <-. injection H2 as <-.
  repeat split.
  unfold addDays, UTC.
  destruct (decide (d1 = d2)) as [->|Hne]; [lia|].
  specialize (Hzone (LocalTime t + d1 * msPerDay) (LocalTime t + d2 * msPerDay)).
  unfold msPerDay in *. nia.
Qed.
End NextDue.

(** At the reference host the 25th of February of a leap year plus seven
    days is the 3rd of March, at the same time of day. *)
Lemma nextWateringDueAt_calendar_days_witness :
  @nextWateringDueAt reference_host (Some "2024-02-25T10:00:00.000Z") 7
  = Normal (Some "2024-03-03T10:00:00.000Z").
Proof.
  destruct (@nextWateringDueAt_calendar_days reference_host
              (Some "2024-02-25T10:00:00.000Z") 7) as (_ & Hpresent & _).
  destruct (Hpresent "2024-02-25T10:00:00.000Z" 1708855200000)
    as (_ & _ & Hreturns & _); [reflexivity | discriminate | reflexivity |].
  rewrite Hreturns; [reflexivity | vm_compute; discriminate].
Defined.

(** C3 fails at the end of the range of a Date.  The last instant a Date
    can hold is a valid [lastWateredAt], which the validation accepts, but
    one more day does not fit: [setDate] leaves an invalid date, the check
    for an invalid date has already been passed, and [toISOString] raises
    RangeError.  The call returns neither null nor a timestamp, and
    [mapRow] builds no record. *)
Theorem nextWateringDueAt_raises_at_range_end :
  falsy (Some "+275760-09-13T00:00:00.000Z") = false
  ∧ @new_Date reference_host "+275760-09-13T00:00:00.000Z" = Some maxTime
  ∧ @nextWateringDueAt reference_host (Some "+275760-09-13T00:00:00.000Z") 1
    = RangeError
  ∧ @mapRow reference_host
      {| Row.id := 1; Row.name := "Fern"; Row.species := "Nephrolepis";
         Row.watering_interval_days := 1;
         Row.last_watered_at := Some "+275760-09-13T00:00:00.000Z";
         Row.notes := ""; Row.created_at := "2024-01-01 00:00:00" |}
    = RangeError.
Proof. vm_compute. done. Qed.

(** C7 fails near the end of the range of a Date.  For the valid
    [lastWateredAt] one day before the last instant, the call with the
    interval 1 returns and the call with the larger interval 2 raises
    RangeError: it has no result to compare with the first. *)
Theorem nextWateringDueAt_larger_interval_raises :
  @new_Date reference_host "+275760-09-12T00:00:00.000Z"
  = Some (maxTime - msPerDay)
  ∧ @nextWateringDueAt reference_host (Some "+275760-09-12T00:00:00.000Z") 1
    = Normal (Some "+275760-09-13T00:00:00.000Z")
  ∧ @nextWateringDueAt reference_host (Some "+275760-09-12T00:00:00.000Z") 2
    = RangeError.
Proof. vm_compute. done. Qed.

Lemma nextWateringDueAt_monotone_witness :
  "2024-01-02T08:30:00.000Z" = toISOString (@addDays reference_host 1704097800000 1)
  ∧ "2024-01-08T08:30:00.000Z" = toISOString (@addDays reference_host 1704097800000 7)
  ∧ @addDays reference_host 1704097800000 1 <= @addDays reference_host 1704097800000 7.
Proof.
  apply (@nextWateringDueAt_monotone reference_host "2024-01-01T08:30:00.000Z").
  - intros a b. simpl. unfold msPerDay. lia.
  - discriminate.
  - reflexivity.
  - lia.
  - lia.
  - lia.
  - reflexivity.
  - reflexivity.
Defined.

(** ** The client's classification *)

Lemma ceil_div_spec a b :
  0 < b → b * (ceil_div a b - 1) < a <= b * ceil_div a b.
Proof.
  intros Hb. unfold ceil_div.
  pose proof (Z.div_mod (- a) b) as Hdm.
  pose proof (Z.mod_pos_bound (- a) b Hb) as Hmod.
  assert (b ≠ 0) as Hnz by lia. specialize (Hdm Hnz). nia.
Qed.

Lemma ceil_div_sign a b : 0 < b → (ceil_div a b <= 0 ↔ a <= 0).
Proof. intros Hb. pose proof (ceil_div_spec a b Hb). nia. Qed.


(** Rounding keeps the sign. *)
Lemma to_double_sign x : to_double x <= 0 ↔ x <= 0.
Proof.
  unfold to_double. cbv zeta.
  destruct (Z.leb_spec (Z.abs x) (2 ^ 53)) as [|Hbig]; [done|].
  set (a := Z.abs x) in *. set (e := Z.log2 a - 52).
  assert (2 ^ 53 = 9007199254740992) as E53 by reflexivity.
  assert (0 < a) as Ha by lia.
  pose proof (Z.log2_spec a Ha) as [Hlog _].
  assert (53 <= Z.log2 a) as Hl.
  { apply Z.log2_le_pow2; lia. }
  assert (0 < 2 ^ e) as He by (apply Z.pow_pos_nonneg; lia).
  assert (2 ^ e <= a) as Hea.
  { etrans; [|exact Hlog]. apply Z.pow_le_mono_r; lia. }
  assert (1 <= a / 2 ^ e) as Hq.
  { apply Z.div_le_lower_bound; lia. }
  match goal with |- context [Z.sgn x * (?t * _)] => set (q' := t) end.
  assert (1 <= q') as Hq' by (unfold q'; case_match; lia).
  assert (0 < q' * 2 ^ e) as Hpos by nia.
  destruct (Z.sgn_spec x) as [[? ->]|[[? ->]|[? ->]]]; lia.
Qed.

(** Above 2^53 a double is an even integer. *)
Lemma to_double_even x :
  2 ^ 53 < Z.abs x < 2 ^ 54 → to_double x mod 2 = 0.
Proof.
  intros [Hlow Hhigh]. unfold to_double. cbv zeta.
  destruct (Z.leb_spec (Z.abs x) (2 ^ 53)); [lia|].
  assert (Z.log2 (Z.abs x) = 53) as ->.
  { apply Z.log2_unique; [lia|]. split; [|exact Hhigh]. lia. }
  change (53 - 52) with 1. change (2 ^ 1) with 2.
  match goal with |- context [Z.sgn x * (?t * _)] => set (q' := t) end.
  replace (Z.sgn x * (q' * 2)) with ((Z.sgn x * q') * 2) by lia.
  apply Z.mod_mul. lia.
Qed.

(** A quotient by [msPerDay] that is no integer stays clear of the
    integers by more than the rounding of a double division can move it:
    by more than 2^-27 for any integer dividend, and by more than 2^-26
    for a dividend that is a double above 2^53. *)
Lemma quotient_clear_of_integers x :
  to_double x = x → Z.abs x < 2 ^ 54 → x mod msPerDay ≠ 0 →
  msPerDay < 2 ^ 27 * (x mod msPerDay)
  ∧ msPerDay < 2 ^ 27 * (msPerDay - x mod msPerDay)
  ∧ (2 ^ 53 < Z.abs x →
     msPerDay < 2 ^ 26 * (x mod msPerDay)
     ∧ msPerDay < 2 ^ 26 * (msPerDay - x mod msPerDay)).
Proof.
  intros Hdouble Hrange Hrem.
  pose proof (Z.mod_pos_bound x msPerDay eq_refl) as Hbound.
  assert (2 ^ 27 = 134217728) as E27 by reflexivity.
  assert (2 ^ 26 = 67108864) as E26 by reflexivity.
  unfold msPerDay in *.
  split; [lia|]. split; [lia|]. intros Hbig.
  pose proof (to_double_even x (conj Hbig Hrange)) as Heven.
  rewrite Hdouble in Heven.
  assert ((x mod 86400000) mod 2 = 0) as Hr.
  { rewrite <- Heven. symmetry.
    rewrite (Z.div_mod x 86400000) at 1 by lia.
    replace (86400000 * (x / 86400000)) with (43200000 * (x / 86400000) * 2)
      by lia.
    rewrite Z.add_comm, Z.mod_add by lia. done. }
  Z.div_mod_to_equations. lia.
Qed.

Lemma append_nonempty (a b : string) : b ≠ EmptyString → a +:+ b ≠ EmptyString.
Proof. intros Hb. destruct a; [done|]. discriminate. Qed.

Lemma toISOString_nonempty t : toISOString t ≠ EmptyString.
Proof. unfold toISOString. apply append_nonempty. discriminate. Qed.

Section Classifier.
Context `{Host}.

Lemma elem_of_query_rows filter now db row :
  row ∈ query_rows filter now db
  ↔ row ∈ select_plants db ∧ where_true (where_clause filter now row) = true.
Proof.
  unfold query_rows. rewrite merge_sort_Permutation.
  by rewrite !list_elem_of_In, filter_In.
Qed.

Lemma isDueNow_present plant now s :
  falsy (Plant.lastWateredAt plant) = false →
  Plant.nextWateringDueAt plant = Some s → s ≠ EmptyString →
  isDueNow plant now =
    match new_Date s with
    | None => true
    | Some dueDate => dueDate <=? now
    end.
Proof.
  intros Hlast Hnext Hs. unfold isDueNow. rewrite Hlast, Hnext.
  by destruct s.
Qed.

Lemma dueLabel_present plant now s dueDate :
  falsy (Plant.lastWateredAt plant) = false →
  Plant.nextWateringDueAt plant = Some s → s ≠ EmptyString →
  new_Date s = Some dueDate →
  dueLabel plant now =
    let diffDays := ceil_div (to_double (dueDate - now)) msPerDay in
    if diffDays <=? 0 then
      {| text := if diffDays <? 0
                 then "Overdue " +:+ decimal (Z.abs diffDays) +:+ "d"
                 else "Due today";
         label_tone := due |}
    else if diffDays <=? 2 then
      {| text := "Due in " +:+ decimal diffDays +:+ "d"; label_tone := soon |}
    else
      {| text := "Due in " +:+ decimal diffDays +:+ "d"; label_tone := ok |}.
Proof.
  intros Hlast Hnext Hs Hdate. unfold dueLabel.
  rewrite Hlast, Hnext. destruct s as [|c s]; [done|].
  rewrite Hdate. reflexivity.
Qed.


(** A record built by [mapRow] has a due date only with a [lastWateredAt],
    and the due date is never the empty string. *)
Lemma mapRow_due_present row plant s :
  mapRow row = Normal plant → Plant.nextWateringDueAt plant = Some s →
  falsy (Plant.lastWateredAt plant) = false ∧ s ≠ EmptyString.
Proof.
  intros Hrow Hnext.
  apply mapRow_Normal in Hrow as (_ & _ & _ & _ & Hlast & _ & _ & Hdue).
  rewrite Hlast, Hnext in *. clear Hlast Hnext.
  destruct (Row.last_watered_at row) as [[|c l]|]; try discriminate.
  split; [done|].
  rewrite nextWateringDueAt_present in Hdue by done.
  destruct (new_Date _); [|discriminate].
  destruct (TimeClip _); [|discriminate].
  injection Hdue as <-. apply toISOString_nonempty.
Qed.

(** C4: [isDueNow] holds exactly when [lastWateredAt] is absent (null or
    empty), or [nextWateringDueAt] is absent or not a valid date, or the
    due instant is at or before [now]; on a record built by [mapRow],
    absent can be read as null.  The comparison is inclusive; a record
    without [lastWateredAt] is always due, and the stored row with a NULL
    [last_watered_at] is selected by the 'due' query and not by the
    'upcoming' one. *)
Theorem isDueNow_rule (plant : Plant.t) (now : Z) :
  (isDueNow plant now = true
   ↔ falsy (Plant.lastWateredAt plant) = true
     ∨ falsy (Plant.nextWateringDueAt plant) = true
     ∨ (∃ s, Plant.nextWateringDueAt plant = Some s ∧ new_Date s = None)
     ∨ (∃ s dueDate, Plant.nextWateringDueAt plant = Some s
                     ∧ new_Date s = Some dueDate ∧ dueDate <= now))
  ∧ (∀ s, Plant.nextWateringDueAt plant = Some s → new_Date s = Some now →
       isDueNow plant now = true)
  ∧ (falsy (Plant.lastWateredAt plant) = true → isDueNow plant now = true)
  ∧ (∀ row, mapRow row = Normal plant →
       (isDueNow plant now = true
        ↔ Plant.lastWateredAt plant = None
          ∨ Plant.nextWateringDueAt plant = None
          ∨ (∃ s, Plant.nextWateringDueAt plant = Some s ∧ new_Date s = None)
          ∨ (∃ s dueDate, Plant.nextWateringDueAt plant = Some s
                          ∧ new_Date s = Some dueDate ∧ dueDate <= now)))
  ∧ (∀ row db,
       Row.last_watered_at row = None →
       (mapRow row = Normal plant → isDueNow plant now = true)
       ∧ where_true (where_clause (Some "due") now row) = true
       ∧ where_true (where_clause (Some "upcoming") now row) = false
       ∧ (row ∈ select_plants db →
          row ∈ query_rows (Some "due") now db
          ∧ row ∉ query_rows (Some "upcoming") now db)).
Proof.
  assert (isDueNow plant now = true
   ↔ falsy (Plant.lastWateredAt plant) = true
     ∨ falsy (Plant.nextWateringDueAt plant) = true
     ∨ (∃ s, Plant.nextWateringDueAt plant = Some s ∧ new_Date s = None)
     ∨ (∃ s dueDate, Plant.nextWateringDueAt plant = Some s
                     ∧ new_Date s = Some dueDate ∧ dueDate <= now)) as Hrule.
  { destruct (falsy (Plant.lastWateredAt plant)) eqn:Hlast.
    { unfold isDueNow. rewrite Hlast. split; auto. }
    destruct (falsy (Plant.nextWateringDueAt plant)) eqn:Hnext.
    { unfold isDueNow. rewrite Hlast.
      apply falsy_true in Hnext as Hcase. split; [auto|]. intros _.
      by destruct Hcase as [-> | ->]. }
    apply falsy_false in Hnext as (s & Hnext & Hs).
    rewrite (isDueNow_present plant now s) by done.
    destruct (new_Date s) as [dueDate|] eqn:Hdate.
    - rewrite Z.leb_le. split.
      + intros Hle. right. right. right. by exists s, dueDate.
      + intros [? | [? | [(s' & Hs' & Hd') | (s' & d' & Hs' & Hd' & Hle)]]];
          try done; rewrite Hnext in Hs'; injection Hs' as <-; congruence.
    - split; [|done]. intros _. right. right. left. by exists s. }
  split; [exact Hrule|]. split; [|split; [|split]].
  - intros s Hnext Hdate. apply Hrule. right. right. right.
    exists s, now. repeat split; [done | done | lia].
  - intros Hlast. apply Hrule. by left.
  - intros row Hrow. rewrite Hrule, !falsy_true. split.
    + intros [[? | Hempty] | [[? | Hempty] | Hrest]]; auto.
      * right. left.
        apply mapRow_Normal in Hrow as (_ & _ & _ & _ & Hl & _ & _ & Hdue).
        rewrite <- Hl, Hempty in Hdue. simpl in Hdue. by injection Hdue as <-.
      * by destruct (mapRow_due_present row plant EmptyString Hrow Hempty).
    + intros [? | [? | Hrest]]; auto.
  - intros row db Hnull. split; [|split; [|split]].
    + intros Hrow. apply mapRow_Normal in Hrow as (_ & _ & _ & _ & Hl & _).
      apply Hrule. left. by rewrite Hl, Hnull.
    + unfold where_clause. simpl. unfold due_condition. by rewrite Hnull.
    + unfold where_clause. simpl. unfold upcoming_condition. by rewrite Hnull.
    + intros Hin. rewrite !elem_of_query_rows.
      unfold where_clause. simpl.
      unfold due_condition, upcoming_condition. rewrite Hnull. simpl.
      split; [done|]. intros [_ ?]. done.
Qed.

End Classifier.

(** ** The order of a listing *)

Lemma ascii_compare_gt_trans a b c :
  Ascii.compare a b = Gt → Ascii.compare b c = Gt → Ascii.compare a c = Gt.
Proof.
  unfold Ascii.compare. rewrite !N.compare_gt_iff. lia.
Qed.

Lemma string_compare_gt_trans s1 s2 s3 :
  String.compare s1 s2 = Gt → String.compare s2 s3 = Gt →
  String.compare s1 s3 = Gt.
Proof.
  revert s2 s3. induction s1 as [|c1 s1 IH]; intros [|c2 s2] [|c3 s3];
    simpl; try done.
  destruct (Ascii.compare c1 c2) eqn:H12; try done.
  - apply Ascii.compare_eq_iff in H12 as ->.
    destruct (Ascii.compare c2 c3); try done. apply IH.
  - destruct (Ascii.compare c2 c3) eqn:H23; try done.
    + apply Ascii.compare_eq_iff in H23 as <-. by rewrite H12.
    + by rewrite (ascii_compare_gt_trans c1 c2 c3).
Qed.

Global Instance ordered_trans : Transitive ordered.
Proof.
  intros a b c. unfold ordered, order_by.
  destruct (String.compare (Row.created_at a) (Row.created_at b)) eqn:Hab;
    try done.
  - apply String.compare_eq_iff in Hab. rewrite Hab.
    destruct (String.compare (Row.created_at b) (Row.created_at c)); try done.
    rewrite !Z.leb_le. lia.
  - destruct (String.compare (Row.created_at b) (Row.created_at c)) eqn:Hbc;
      try done.
    + apply String.compare_eq_iff in Hbc. rewrite <- Hbc, Hab. done.
    + by rewrite (string_compare_gt_trans _ _ _ Hab Hbc).
Qed.

Global Instance ordered_total : Total ordered.
Proof.
  intros a b. unfold ordered, order_by.
  rewrite (String.compare_antisym (Row.created_at a) (Row.created_at b)).
  destruct (String.compare (Row.created_at b) (Row.created_at a)); simpl; auto.
  rewrite !Z.leb_le. lia.
Qed.

Lemma StronglySorted_distinct {A B} (R : relation A) (f : A → B) (l : list A) :
  StronglySorted R l → NoDup (f <$> l) →
  StronglySorted (λ a b, R a b ∧ f a ≠ f b) l.
Proof.
  induction 1 as [|a l Hsorted IH Hall]; intros Hnodup; [constructor|].
  rewrite fmap_cons in Hnodup. apply NoDup_cons in Hnodup as [Hnotin Hnodup].
  constructor; [by apply IH|].
  rewrite Forall_forall in Hall. apply Forall_forall.
  intros b Hb. split; [by apply Hall|].
  intros Heq. apply Hnotin. rewrite Heq. by apply list_elem_of_fmap_2.
Qed.

Lemma cmap_Normal {A B} (f : A → completion B) (l : list A) (out : list B) :
  cmap f l = Normal out ↔ Forall2 (λ x y, f x = Normal y) l out.
Proof.
  revert out. induction l as [|x l IH]; intros out; simpl.
  - split; [by intros [= <-]; constructor | by inversion 1].
  - destruct (f x) as [y|] eqn:Hfx; simpl.
    + destruct (cmap f l) as [ys|]; simpl.
      * split.
        -- intros [= <-]. constructor; [done|]. by apply IH.
        -- inversion 1 as [|? y' ? ys' Hy Hys]; subst.
           apply IH in Hys. congruence.
      * split; [done|]. inversion 1 as [|? y' ? ys' Hy Hys]; subst.
        by apply IH in Hys.
    + split; [done|]. inversion 1; congruence.
Qed.

Lemma StronglySorted_Forall2 {A B} (P : A → B → Prop) (R1 : relation A)
    (R2 : relation B) (l : list A) (k : list B) :
  (∀ a b p q, P a p → P b q → R1 a b → R2 p q) →
  Forall2 P l k → StronglySorted R1 l → StronglySorted R2 k.
Proof.
  intros Hrel Hall. induction Hall as [|a p l k Hap Hall IH]; [constructor|].
  intros Hsorted. apply StronglySorted_inv in Hsorted as [Hsorted Hhead].
  constructor; [by apply IH|].
  rewrite Forall_forall in Hhead. apply Forall_forall. intros q Hq.
  apply (list_elem_of_lookup_1 k) in Hq as [i Hi].
  destruct (Forall2_lookup_r _ _ _ _ _ Hall Hi) as (b & Hb & Hbq).
  apply (Hrel a b); [done | done |]. apply Hhead.
  by apply list_elem_of_lookup_2 with i.
Qed.

Lemma select_plants_ids db : NoDup (Row.id <$> select_plants db).
Proof.
  unfold select_plants. rewrite <- list_fmap_compose.
  apply (NoDup_fst_map_to_list (plants db)).
Qed.

Section Listing.
Context `{Host}.

Lemma query_rows_sorted filter now db :
  StronglySorted (λ a b, ordered a b ∧ Row.id a ≠ Row.id b)
                 (query_rows filter now db).
Proof.
  apply StronglySorted_distinct.
  - unfold query_rows. apply StronglySorted_merge_sort; apply _.
  - unfold query_rows. rewrite merge_sort_Permutation.
    eapply sublist_NoDup; [apply (select_plants_ids db)|].
    apply fmap_sublist.
    induction (select_plants db) as [|r l IH]; simpl; [constructor|].
    destruct (where_true _); by constructor.
Qed.

(** [listPlants] returns unless [mapRow] raises on a selected row. *)
Lemma listPlants_returns filter now db :
  (∀ row, row ∈ query_rows filter now db → ∃ plant, mapRow row = Normal plant) →
  ∃ plants, listPlants filter now db = Normal plants.
Proof.
  unfold listPlants. induction (query_rows filter now db) as [|r l IH];
    intros Hall; simpl; [by eexists|].
  destruct (Hall r) as [p Hp]; [by left|]. rewrite Hp. simpl.
  destruct IH as [ps Hps]; [intros row Hrow; apply Hall; by right|].
  rewrite Hps. simpl. by eexists.
Qed.

(** C6: for every filter, the records [listPlants] returns are ordered by
    descending [createdAt], and by descending [id] where [createdAt] is
    equal. *)
Theorem listPlants_newest_first (filter : option string) (now : Z)
    (db : database) (listed : list Plant.t) :
  listPlants filter now db = Normal listed →
  StronglySorted newest_first listed.
Proof.
  unfold listPlants. rewrite cmap_Normal. intros Hall.
  eapply StronglySorted_Forall2; [|exact Hall|apply (query_rows_sorted filter now db)].
  intros a b p q Hp Hq [Hab Hne].
  apply mapRow_Normal in Hp as (Hpid & _ & _ & _ & _ & _ & Hpc & _).
  apply mapRow_Normal in Hq as (Hqid & _ & _ & _ & _ & _ & Hqc & _).
  unfold newest_first. rewrite Hpid, Hqid, Hpc, Hqc.
  unfold ordered, order_by in Hab.
  destruct (String.compare (Row.created_at a) (Row.created_at b)) eqn:Hcmp;
    [|done|by left].
  right. apply String.compare_eq_iff in Hcmp. apply Z.leb_le in Hab.
  split; [done | lia].
Qed.
End Listing.

(** ** The store under updates *)

Section Store.
Context `{Host}.

Lemma getPlant_None id db :
  plants db !! id = None → getPlant id db = Normal None.
Proof. intros Hx. unfold getPlant. by rewrite Hx. Qed.

Lemma getPlant_Some id db x :
  plants db !! id = Some x →
  getPlant id db = cbind (mapRow (row_of id x)) (λ plant, Normal (Some plant)).
Proof. intros Hx. unfold getPlant. by rewrite Hx. Qed.

Lemma updatePlant_not_found id updates db :
  plants db !! id = None → updatePlant id updates db = (Normal None, db).
Proof. intros Hx. unfold updatePlant. by rewrite getPlant_None. Qed.

Lemma updatePlant_raises id updates db x :
  plants db !! id = Some x → mapRow (row_of id x) = RangeError →
  updatePlant id updates db = (RangeError, db).
Proof.
  intros Hx Hrow. unfold updatePlant. by rewrite (getPlant_Some id db x), Hrow.
Qed.

Lemma updatePlant_found id updates db x existing :
  plants db !! id = Some x → mapRow (row_of id x) = Normal existing →
  ∃ x',
    plants (snd (updatePlant id updates db)) !! id = Some x'
    ∧ (∀ j, j ≠ id →
         plants (snd (updatePlant id updates db)) !! j = plants db !! j)
    ∧ sqlite_sequence (snd (updatePlant id updates db)) = sqlite_sequence db
    ∧ fst (updatePlant id updates db)
      = getPlant id (snd (updatePlant id updates db))
    ∧ Tuple.created_at x' = Tuple.created_at x
    ∧ Tuple.name x' =
        match Payload.name updates with
        | VStr s => if 0 <? Z.of_nat (String.length s) then s else Tuple.name x
        | _ => Tuple.name x
        end
    ∧ Tuple.species x' =
        match Payload.species updates with
        | VStr s => if 0 <? Z.of_nat (String.length s) then s else Tuple.species x
        | _ => Tuple.species x
        end
    ∧ Tuple.watering_interval_days x' =
        match Payload.wateringIntervalDays updates with
        | VNum (NInt z) => z
        | _ => Tuple.watering_interval_days x
        end
    ∧ Tuple.last_watered_at x' =
        match Payload.lastWateredAt updates with
        | VStr s => Some s
        | VNull => None
        | _ => Tuple.last_watered_at x
        end
    ∧ Tuple.notes x' =
        match Payload.notes updates with
        | VStr s => s
        | _ => Tuple.notes x
        end.
Proof.
  intros Hx Hrow.
  destruct (mapRow_Normal _ _ Hrow) as (_ & Hn & Hs & Hi & Hl & Ho & _ & _).
  simpl in Hn, Hs, Hi, Hl, Ho.
  unfold updatePlant. rewrite (getPlant_Some id db x), Hrow by done. simpl.
  rewrite Hn, Hs, Hi, Hl, Ho.
  eexists. split; [by rewrite lookup_alter_eq, Hx|].
  split; [by intros j Hj; rewrite lookup_alter_ne|].
  simpl. repeat split.
Qed.

Lemma createPlant_store name species interval last notes clock db :
  ∃ id, plants db !! id = None
    ∧ snd (createPlant name species interval last notes clock db)
      = {| plants :=
             <[id := {| Tuple.name := name;
                        Tuple.species := species;
                        Tuple.watering_interval_days := interval;
                        Tuple.last_watered_at := last;
                        Tuple.notes := notes;
                        Tuple.created_at := datetime_text clock |}]> (plants db);
           sqlite_sequence := id |}.
Proof.
  eexists. split; [|reflexivity].
  destruct (plants db !! _) as [x|] eqn:Hx; [|done]. exfalso.
  assert (∀ (l : list Z) k, k ∈ l → k <= foldr Z.max 0 l) as Hmax.
  { induction l as [|a l IH]; intros k; [by inversion 1|].
    rewrite elem_of_cons. simpl. intros [-> | Hk]; [lia|].
    specialize (IH k Hk). lia. }
  apply elem_of_map_to_list in Hx.
  apply (list_elem_of_fmap_2 fst) in Hx. simpl in Hx.
  apply Hmax in Hx. fold (max_rowid (plants db)) in Hx. lia.
Qed.

Lemma parseInterval_range raw n :
  parseInterval raw = Some n → 1 <= n <= 365.
Proof.
  unfold parseInterval. destruct (ToNumber raw) as [value|]; [|done].
  destruct (Z.leb_spec 1 value), (Z.leb_spec value 365); simpl; try done.
  intros [= <-]. lia.
Qed.

Lemma intervals_valid_insert db id x seq :
  intervals_valid db → 1 <= Tuple.watering_interval_days x <= 365 →
  intervals_valid {| plants := <[id := x]> (plants db); sqlite_sequence := seq |}.
Proof.
  intros Hdb Hx j y. simpl. rewrite lookup_insert_Some.
  intros [[_ <-] | [_ Hy]]; [done | by apply (Hdb j)].
Qed.

Lemma updatePlant_intervals_valid id updates db :
  (∀ z, Payload.wateringIntervalDays updates = VNum (NInt z) → 1 <= z <= 365) →
  intervals_valid db → intervals_valid (snd (updatePlant id updates db)).
Proof.
  intros Hupd Hdb.
  destruct (plants db !! id) as [x|] eqn:Hx;
    [|by rewrite updatePlant_not_found].
  destruct (mapRow (row_of id x)) as [existing|] eqn:Hrow;
    [|by rewrite (updatePlant_raises id updates db x)].
  destruct (updatePlant_found id updates db x existing Hx Hrow)
    as (x' & Hx' & Hother & _ & _ & _ & _ & _ & Hint & _).
  intros j y Hy. destruct (decide (j = id)) as [->|Hne].
  - rewrite Hx' in Hy. injection Hy as <-. rewrite Hint.
    destruct (Payload.wateringIntervalDays updates) as [| |b|[z|]|s|o];
      try by apply (Hdb id). by apply Hupd.
  - rewrite Hother in Hy by done. by apply (Hdb j).
Qed.

Lemma deletePlant_intervals_valid id db :
  intervals_valid db → intervals_valid (snd (deletePlant id db)).
Proof.
  intros Hdb. unfold deletePlant. destruct (plants db !! id); [|done].
  intros j y. simpl. rewrite lookup_delete_Some. intros [_ Hy]. by apply (Hdb j).
Qed.

Lemma patch_payload_interval body payload z :
  patch_payload body = inr payload →
  Payload.wateringIntervalDays payload = VNum (NInt z) → 1 <= z <= 365.
Proof.
  unfold patch_payload, and_then.
  destruct (patch_name body empty_payload) as [|p1] eqn:H1; [done|].
  destruct (patch_species body p1) as [|p2] eqn:H2; [done|].
  destruct (patch_interval body p2) as [|p3] eqn:H3; [done|].
  destruct (patch_notes body p3) as [|p4] eqn:H4; [done|].
  intros H5 Hz.
  assert (Payload.wateringIntervalDays p1 = VUndefined) as E1.
  { unfold patch_name in H1.
    destruct (Payload.name body); try (by injection H1 as <-).
    destruct (is_empty _); [done|]. by injection H1 as <-. }
  assert (Payload.wateringIntervalDays p2 = VUndefined) as E2.
  { unfold patch_species in H2.
    destruct (Payload.species body); try (by injection H2 as <-).
    destruct (is_empty _); [done|]. by injection H2 as <-. }
  assert (∀ z, Payload.wateringIntervalDays p3 = VNum (NInt z) → 1 <= z <= 365)
    as E3.
  { intros z' Hz'. unfold patch_interval in H3.
    destruct (Payload.wateringIntervalDays body) eqn:Hraw;
      try (injection H3 as <-; congruence);
      (destruct (parseInterval _) as [k|] eqn:Hk; [|done]);
      injection H3 as <-; simpl in Hz'; injection Hz' as <-;
      by apply parseInterval_range in Hk. }
  assert (Payload.wateringIntervalDays p4 = Payload.wateringIntervalDays p3) as E4.
  { unfold patch_notes in H4.
    destruct (Payload.notes body); by injection H4 as <-. }
  assert (Payload.wateringIntervalDays payload = Payload.wateringIntervalDays p4)
    as E5.
  { unfold patch_lastWateredAt in H5.
    destruct (Payload.lastWateredAt body); try (by injection H5 as <-);
      (destruct (parseDateOrNull _); [done|]); by injection H5 as <-. }
  apply E3. congruence.
Qed.

Lemma handle_intervals_valid req clock db :
  intervals_valid db → intervals_valid (snd (handle req clock db)).
Proof.
  intros Hdb. destruct req as [body | rawId body | rawId body | rawId]; simpl.
  - unfold post_plants.
    destruct (is_empty _); [done|]. destruct (is_empty _); [done|].
    destruct (parseInterval _) as [interval|] eqn:Hint; [|done].
    destruct (parseDateOrNull _) as [|last]; [done|].
    destruct (createPlant _ _ _ _ _ _ _) as [plant db'] eqn:Hcreate. simpl.
    destruct (createPlant_store (formatText (Payload.name body))
                (formatText (Payload.species body)) interval last
                (formatNotes (Payload.notes body)) clock db) as (id & _ & Hdb').
    rewrite Hcreate in Hdb'. simpl in Hdb'. subst db'.
    apply intervals_valid_insert; [done|]. simpl.
    by apply parseInterval_range in Hint.
  - unfold put_plants. destruct (parseId rawId) as [id|]; [|done].
    destruct (_ || _); [done|].
    destruct (parseInterval _) as [interval|] eqn:Hint; [|done].
    destruct (parseDateOrNull _) as [|last]; [done|].
    destruct (updatePlant _ _ _) as [updated db'] eqn:Hupd. simpl.
    change db' with (snd (updated, db')). rewrite <- Hupd.
    apply updatePlant_intervals_valid; [|done].
    simpl. intros z [= <-]. by apply parseInterval_range in Hint.
  - unfold patch_plants. destruct (parseId rawId) as [id|]; [|done].
    destruct (patch_payload body) as [|payload] eqn:Hpayload; [done|].
    destruct (no_keys payload); [done|].
    destruct (updatePlant _ _ _) as [updated db'] eqn:Hupd. simpl.
    change db' with (snd (updated, db')). rewrite <- Hupd.
    apply updatePlant_intervals_valid; [|done].
    intros z. by apply (patch_payload_interval body).
  - unfold delete_plants. destruct (parseId rawId) as [id|]; [|done].
    destruct (deletePlant id db) as [removed db'] eqn:Hdel.
    assert (intervals_valid db') as Hdb'.
    { change db' with (snd (removed, db')). rewrite <- Hdel.
      by apply deletePlant_intervals_valid. }
    by destruct removed.
Qed.

(** C8: in every store reachable from the empty one through the create,
    update and delete routes, every record's [wateringIntervalDays] is an
    integer between 1 and 365. *)
Theorem reachable_intervals_valid (db : database) :
  reachable db → intervals_valid db.
Proof.
  induction 1 as [|req clock db Hreach IH].
  - intros id x. simpl. by rewrite lookup_empty.
  - by apply handle_intervals_valid.
Qed.
End Store.

Section Update.
Context `{Host}.

Lemma string_length_pos s :
  (0 <? Z.of_nat (String.length s)) = true ↔ s ≠ EmptyString.
Proof.
  destruct s as [|c s]; simpl; [by split|].
  split; [done|]. intros _. apply Z.ltb_lt. lia.
Qed.

(** C9: [updatePlant] keeps the record under its id with its [created_at],
    the record it returns carries that id and [createdAt], and no record
    with another id is touched. *)
Theorem updatePlant_frame (id : Z) (updates : Payload.t) (db : database) :
  (∀ x, plants db !! id = Some x →
     ∃ x', plants (snd (updatePlant id updates db)) !! id = Some x'
           ∧ Tuple.created_at x' = Tuple.created_at x)
  ∧ (∀ j, j ≠ id →
       plants (snd (updatePlant id updates db)) !! j = plants db !! j)
  ∧ (plants db !! id = None →
     plants (snd (updatePlant id updates db)) !! id = None)
  ∧ sqlite_sequence (snd (updatePlant id updates db)) = sqlite_sequence db
  ∧ (∀ plant, fst (updatePlant id updates db) = Normal (Some plant) →
       Plant.id plant = id
       ∧ ∃ x, plants db !! id = Some x
              ∧ Plant.createdAt plant = Tuple.created_at x).
Proof.
  destruct (plants db !! id) as [x|] eqn:Hx.
  - destruct (mapRow (row_of id x)) as [existing|] eqn:Hrow.
    + destruct (updatePlant_found id updates db x existing Hx Hrow)
        as (x' & Hx' & Hother & Hseq & Hret & Hcreated & _).
      split; [|split; [|split; [|split]]]; try done.
      * intros y [= <-]. by exists x'.
      * intros plant. rewrite Hret, (getPlant_Some _ _ x') by done.
        destruct (mapRow (row_of id x')) as [p|] eqn:Hp; [|done].
        simpl. intros [= <-].
        apply mapRow_Normal in Hp as (Hid & _ & _ & _ & _ & _ & Hc & _).
        split; [done|]. exists x. split; [done|]. by rewrite Hc.
    + rewrite (updatePlant_raises id updates db x) by done. simpl.
      split; [|split; [|split; [|split]]]; try done.
      intros y [= <-]. by exists x.
  - rewrite updatePlant_not_found by done. simpl.
    split; [|split; [|split; [|split]]]; done.
Qed.

(** C10: [updatePlant] on a missing id returns null and leaves the store as
    it is.  On an existing record a field changes only when [updates] holds
    an acceptable value for it, which is then the new value: a non-empty
    string for [name] and [species], an integer for [wateringIntervalDays],
    a string or null for [lastWateredAt], a string for [notes]; when the
    existing record can be read, every acceptable value is stored. *)
Theorem updatePlant_partial_merge (id : Z) (updates : Payload.t) (db : database) :
  (plants db !! id = None → updatePlant id updates db = (Normal None, db))
  ∧ (∀ x, plants db !! id = Some x →
       ∃ x', plants (snd (updatePlant id updates db)) !! id = Some x'
         ∧ (Tuple.name x' ≠ Tuple.name x →
            Payload.name updates = VStr (Tuple.name x')
            ∧ Tuple.name x' ≠ EmptyString)
         ∧ (Tuple.species x' ≠ Tuple.species x →
            Payload.species updates = VStr (Tuple.species x')
            ∧ Tuple.species x' ≠ EmptyString)
         ∧ (Tuple.watering_interval_days x' ≠ Tuple.watering_interval_days x →
            Payload.wateringIntervalDays updates
            = VNum (NInt (Tuple.watering_interval_days x')))
         ∧ (Tuple.last_watered_at x' ≠ Tuple.last_watered_at x →
            match Tuple.last_watered_at x' with
            | Some s => Payload.lastWateredAt updates = VStr s
            | None => Payload.lastWateredAt updates = VNull
            end)
         ∧ (Tuple.notes x' ≠ Tuple.notes x →
            Payload.notes updates = VStr (Tuple.notes x'))
         ∧ (∀ existing, mapRow (row_of id x) = Normal existing →
              (∀ s, Payload.name updates = VStr s → s ≠ EmptyString →
                    Tuple.name x' = s)
              ∧ (∀ s, Payload.species updates = VStr s → s ≠ EmptyString →
                      Tuple.species x' = s)
              ∧ (∀ z, Payload.wateringIntervalDays updates = VNum (NInt z) →
                      Tuple.watering_interval_days x' = z)
              ∧ (∀ s, Payload.lastWateredAt updates = VStr s →
                      Tuple.last_watered_at x' = Some s)
              ∧ (Payload.lastWateredAt updates = VNull →
                 Tuple.last_watered_at x' = None)
              ∧ (∀ s, Payload.notes updates = VStr s → Tuple.notes x' = s))).
Proof.
  split; [apply updatePlant_not_found|].
  intros x Hx. destruct (mapRow (row_of id x)) as [existing|] eqn:Hrow.
  - destruct (updatePlant_found id updates db x existing Hx Hrow)
      as (x' & Hx' & _ & _ & _ & _ & Hn & Hs & Hi & Hl & Ho).
    exists x'. split; [done|].
    split; [|split; [|split; [|split; [|split]]]].
    + rewrite Hn. destruct (Payload.name updates) as [| | | |s|]; try done.
      destruct (0 <? _) eqn:Hlen; [|done]. intros _.
      split; [done|]. by apply string_length_pos.
    + rewrite Hs. destruct (Payload.species updates) as [| | | |s|]; try done.
      destruct (0 <? _) eqn:Hlen; [|done]. intros _.
      split; [done|]. by apply string_length_pos.
    + rewrite Hi.
      by destruct (Payload.wateringIntervalDays updates) as [| | |[z|]| |].
    + rewrite Hl. by destruct (Payload.lastWateredAt updates).
    + rewrite Ho. by destruct (Payload.notes updates).
    + intros existing' _. rewrite Hn, Hs, Hi, Hl, Ho.
      split; [|split; [|split; [|split; [|split]]]].
      * intros s -> Hne. apply string_length_pos in Hne. by rewrite Hne.
      * intros s -> Hne. apply string_length_pos in Hne. by rewrite Hne.
      * by intros z ->.
      * by intros s ->.
      * by intros ->.
      * by intros s ->.
  - rewrite (updatePlant_raises id updates db x) by done. simpl.
    exists x. split; [done|]. repeat split; try done.
Qed.
End Update.

(** ** The two queries *)

Section Partition.
Context `{Host}.

(** No row satisfies both conditions. *)
Lemma due_upcoming_disjoint now row :
  ¬ (where_true (due_condition now row) = true
     ∧ where_true (upcoming_condition now row) = true).
Proof.
  unfold due_condition, upcoming_condition.
  destruct (datetime_plus_days _ _) as [d|], (datetime_now now) as [n|],
    (Row.last_watered_at row) as [s|]; simpl; try by intros [? ?].
  destruct (String.compare d n); simpl; by intros [? ?].
Qed.

(** A row is selected by one of the two queries unless its
    [last_watered_at] is text for which the engine's [datetime] is NULL
    (or the clock itself is beyond the engine's dates). *)
Lemma due_upcoming_cover now row :
  where_true (due_condition now row) = false →
  where_true (upcoming_condition now row) = false →
  is_Some (Row.last_watered_at row)
  ∧ (datetime_plus_days (Row.last_watered_at row)
                        (Row.watering_interval_days row) = None
     ∨ datetime_now now = None).
Proof.
  unfold due_condition, upcoming_condition.
  destruct (datetime_plus_days _ _) as [d|], (datetime_now now) as [n|],
    (Row.last_watered_at row) as [s|]; simpl; try done; auto.
  by destruct (String.compare d n).
Qed.

(** With a readable date and clock every row is in exactly one query. *)
Lemma due_xor_upcoming now row d n :
  datetime_plus_days (Row.last_watered_at row) (Row.watering_interval_days row)
  = Some d →
  datetime_now now = Some n →
  where_true (upcoming_condition now row)
  = negb (where_true (due_condition now row)).
Proof.
  unfold due_condition, upcoming_condition. intros Hd ->. rewrite Hd.
  destruct (Row.last_watered_at row); [|done]. simpl.
  by destruct (String.compare d n).
Qed.
End Partition.

(** C1, at a record the validation accepts: the plant was watered at
    2024-01-01T00:00:00.500Z and is due daily; at 2024-01-02T00:00:00.200Z
    the 'due' query lists it and the 'upcoming' query does not, while
    [isDueNow] on that very record answers false. *)
Theorem due_query_and_isDueNow_disagree :
  let plant := Examples.listed 1 (Some "2024-01-01T00:00:00.500Z")
                 (Some "2024-01-02T00:00:00.500Z") in
  @listPlants reference_host (Some "due") 1704153600200 Examples.half_second
  = Normal [plant]
  ∧ @listPlants reference_host (Some "upcoming") 1704153600200
      Examples.half_second = Normal []
  ∧ @isDueNow reference_host plant 1704153600200 = false.
Proof. vm_compute. repeat split. Qed.

(** The same row seen from the engine: both sides of the comparison are cut
    to whole seconds. *)
Lemma due_query_drops_milliseconds :
  @datetime_plus_days reference_host (Some "2024-01-01T00:00:00.500Z") 1
  = Some "2024-01-02 00:00:00"
  ∧ datetime_now 1704153600200 = Some "2024-01-02 00:00:00".
Proof. vm_compute. repeat split. Qed.

(** C2, at a row whose [last_watered_at] is no date: the row is listed
    without a filter and by neither the 'due' nor the 'upcoming' query; the
    client classifies the record as due. *)
Theorem due_upcoming_miss_unreadable_date :
  let plant := Examples.listed 7 (Some "yesterday") None in
  @listPlants reference_host None Examples.new_year Examples.unreadable
  = Normal [plant]
  ∧ @listPlants reference_host (Some "due") Examples.new_year
      Examples.unreadable = Normal []
  ∧ @listPlants reference_host (Some "upcoming") Examples.new_year
      Examples.unreadable = Normal []
  ∧ @isDueNow reference_host plant Examples.new_year = true.
Proof. vm_compute. repeat split. Qed.

(** The same gap behind the validation: a date in the last day of year 9999
    is accepted by POST /plants, and a day later is past the engine's
    dates. *)
Lemma due_upcoming_miss_year_9999 :
  let plant := Examples.listed 1 (Some "9999-12-31T00:00:00.000Z")
                 (Some "+010000-01-01T00:00:00.000Z") in
  @listPlants reference_host None Examples.new_year Examples.year_9999
  = Normal [plant]
  ∧ @listPlants reference_host (Some "due") Examples.new_year
      Examples.year_9999 = Normal []
  ∧ @listPlants reference_host (Some "upcoming") Examples.new_year
      Examples.year_9999 = Normal []
  ∧ @isDueNow reference_host plant Examples.new_year = false.
Proof. vm_compute. repeat split. Qed.

(** ** The code on the inputs of the specification's examples *)

(** Watered seven days ago and due every seven days: the due instant is
    [now], and the plant is due. *)
Lemma isDueNow_rule_witness :
  @isDueNow reference_host
    (Examples.listed 7 (Some "2024-01-01T00:00:00.000Z")
                       (Some "2024-01-08T00:00:00.000Z"))
    1704672000000 = true.
Proof.
  destruct (@isDueNow_rule reference_host
              (Examples.listed 7 (Some "2024-01-01T00:00:00.000Z")
                                 (Some "2024-01-08T00:00:00.000Z"))
              1704672000000) as (_ & Hboundary & _).
  apply (Hboundary "2024-01-08T00:00:00.000Z"); reflexivity.
Defined.



Lemma dueLabel_overdue_one_day :
  @dueLabel reference_host
    (Examples.listed 1 (Some "2024-01-06T00:00:00.000Z")
                       (Some "2024-01-07T00:00:00.000Z"))
    1704672000000
  = {| text := "Overdue 1d"; label_tone := due |}.
Proof. vm_compute. reflexivity. Qed.

Lemma dueLabel_due_in_one_day :
  @dueLabel reference_host
    (Examples.listed 10 (Some "2023-12-30T00:00:00.000Z")
                        (Some "2024-01-09T00:00:00.000Z"))
    1704672000000
  = {| text := "Due in 1d"; label_tone := soon |}.
Proof. vm_compute. reflexivity. Qed.

Lemma dueLabel_never_watered :
  @mapRow reference_host
    {| Row.id := 1; Row.name := "Fern"; Row.species := "Nephrolepis";
       Row.watering_interval_days := 7; Row.last_watered_at := None;
       Row.notes := ""; Row.created_at := "2024-01-01 00:00:00" |}
  = Normal (Examples.listed 7 None None)
  ∧ @dueLabel reference_host (Examples.listed 7 None None) 1704672000000
    = {| text := "Needs water"; label_tone := due |}
  ∧ @isDueNow reference_host (Examples.listed 7 None None) 1704672000000 = true.
Proof. vm_compute. repeat split. Qed.

(** A record created with [lastWateredAt = T] and an interval of [N] days
    is read back with [nextWateringDueAt = T + N days]. *)
Lemma create_then_read :
  @getPlant reference_host 1 (Examples.posted (VStr "2023-12-30T12:00:00.000Z") 3)
  = Normal (Some (Examples.listed 3 (Some "2023-12-30T12:00:00.000Z")
                                    (Some "2024-01-02T12:00:00.000Z"))).
Proof. vm_compute. reflexivity. Qed.

Lemma listPlants_newest_first_witness :
  StronglySorted newest_first Examples.two_listed.
Proof.
  apply (@listPlants_newest_first reference_host None Examples.new_year
           Examples.two_plants).
  vm_compute. reflexivity.
Defined.

Lemma reachable_intervals_valid_witness :
  intervals_valid Examples.two_plants.
Proof.
  apply (@reachable_intervals_valid reference_host).
  apply (@reachable_handle reference_host).
  apply (@reachable_handle reference_host).
  apply reachable_empty.
Defined.

(** Updating plant 1 leaves plant 2 as it is. *)
Lemma updatePlant_frame_witness :
  plants (snd (@updatePlant reference_host 1 Examples.water_weekly
                 Examples.two_plants)) !! 2
  = plants Examples.two_plants !! 2.
Proof.
  destruct (@updatePlant_frame reference_host 1 Examples.water_weekly
              Examples.two_plants) as (_ & Hother & _).
  apply Hother. discriminate.
Defined.

(** There is no plant 5 to update. *)
Lemma updatePlant_partial_merge_witness :
  @updatePlant reference_host 5 Examples.water_weekly Examples.two_plants
  = (Normal None, Examples.two_plants).
Proof.
  destruct (@updatePlant_partial_merge reference_host 5 Examples.water_weekly
              Examples.two_plants) as (Hmissing & _).
  apply Hmissing. vm_compute. reflexivity.
Defined.

(** The update of plant 1: the interval and the notes change, the empty
    species and the absent name and date keep the stored values. *)
Lemma updatePlant_merges_fields :
  fst (@updatePlant reference_host 1 Examples.water_weekly Examples.two_plants)
  = Normal (Some
      {| Plant.id := 1;
         Plant.name := "Fern";
         Plant.species := "Nephrolepis";
         Plant.wateringIntervalDays := 14;
         Plant.lastWateredAt := Some "2023-12-30T12:00:00.000Z";
         Plant.notes := "shade";
         Plant.createdAt := "2024-01-01 00:00:00";
         Plant.nextWateringDueAt := Some "2024-01-13T12:00:00.000Z" |}).
Proof. vm_compute. reflexivity. Qed.

(** A third way the two evaluations part: [nextWateringDueAt] counts
    calendar days of local time, the query counts 24-hour days.  Across the
    spring clock change the client's due instant is 11:00Z and the query's
    12:00; at 11:30Z the client says due and the query says upcoming. *)
Lemma due_query_ignores_clock_change :
  let plant := Examples.listed 1 (Some "2024-03-30T12:00:00.000Z")
                 (Some "2024-03-31T11:00:00.000Z") in
  @listPlants london_host (Some "due") 1711884600000
    Examples.before_clock_change = Normal []
  ∧ @listPlants london_host (Some "upcoming") 1711884600000
      Examples.before_clock_change = Normal [plant]
  ∧ @isDueNow london_host plant 1711884600000 = true.
Proof. vm_compute. repeat split. Qed.

Section QueryPartition.
Context `{Host}.

(** Where the engine can date every watered row and the clock, the 'due'
    and 'upcoming' listings split the full listing in two. *)
Lemma query_rows_partition now db :
  is_Some (datetime_now now) →
  (∀ row, row ∈ select_plants db → is_Some (Row.last_watered_at row) →
          is_Some (datetime_plus_days (Row.last_watered_at row)
                                      (Row.watering_interval_days row))) →
  ∀ row,
    (row ∈ query_rows None now db
     ↔ row ∈ query_rows (Some "due") now db
       ∨ row ∈ query_rows (Some "upcoming") now db)
    ∧ ¬ (row ∈ query_rows (Some "due") now db
         ∧ row ∈ query_rows (Some "upcoming") now db).
Proof.
  intros Hnow Hdated row. rewrite !elem_of_query_rows.
  unfold where_clause. simpl. split.
  - split; [|by intros [[? _] | [? _]]].
    intros [Hin _].
    destruct (where_true (due_condition now row)) eqn:Hdue; [by left|].
    destruct (where_true (upcoming_condition now row)) eqn:Hup; [by right|].
    exfalso.
    destruct (due_upcoming_cover now row Hdue Hup) as [Hlast [Hnone | Hnone]].
    + specialize (Hdated row Hin Hlast). rewrite Hnone in Hdated.
      by destruct Hdated.
    + rewrite Hnone in Hnow. by destruct Hnow.
  - intros [[_ Hdue] [_ Hup]]. by apply (due_upcoming_disjoint now row).
Qed.
End QueryPartition.

(** * Further properties of the code *)

(** ** Inserting, deleting and the ids *)

Lemma max_rowid_bound (m : gmap Z Tuple.t) id x :
  m !! id = Some x → id <= max_rowid m.
Proof.
  intros Hx. unfold max_rowid.
  assert (∀ (l : list Z) k, k ∈ l → k <= foldr Z.max 0 l) as Hmax.
  { induction l as [|a l IH]; intros k; [by inversion 1|].
    rewrite elem_of_cons. simpl. intros [-> | Hk]; [lia|].
    specialize (IH k Hk). lia. }
  apply Hmax. apply elem_of_map_to_list in Hx.
  by apply (list_elem_of_fmap_2 fst) in Hx.
Qed.

Lemma max_rowid_nonneg (m : gmap Z Tuple.t) : 0 <= max_rowid m.
Proof.
  unfold max_rowid. induction (fst <$> map_to_list m) as [|a l IH];
    simpl; lia.
Qed.

Lemma cmap_RangeError {A B} (f : A → completion B) (l : list A) :
  cmap f l = RangeError ↔ ∃ x, x ∈ l ∧ f x = RangeError.
Proof.
  induction l as [|a l IH]; simpl.
  - split; [done|]. intros (x & Hx & _). by inversion Hx.
  - destruct (f a) as [b|] eqn:Hfa; simpl.
    + destruct (cmap f l) as [bs|]; simpl.
      * split; [done|]. intros (x & Hx & Hfx).
        apply elem_of_cons in Hx as [-> | Hx]; [congruence|].
        assert (Normal bs = RangeError) as Hbad by (apply IH; eauto).
        discriminate.
      * split; [|done]. intros _.
        destruct (proj1 IH eq_refl) as (x & Hx & Hfx).
        exists x. split; [by right | done].
    + split; [|done]. intros _. exists a. split; [by left | done].
Qed.

Section Rows.
Context `{Host}.

(** [createPlant] gives the new row an id that is positive, above the
    counter and above every id in the table, stores the five values with
    the clock's text as [created_at], leaves every other row alone, and
    returns the record read back from that row: it never returns null. *)
Theorem createPlant_inserts (name species : string) (interval : Z)
    (last : option string) (notes : string) (clock : Z) (db : database) :
  ∃ id,
    0 < id ∧ sqlite_sequence db < id
    ∧ (∀ j y, plants db !! j = Some y → j < id)
    ∧ sqlite_sequence (snd (createPlant name species interval last notes clock db))
      = id
    ∧ plants (snd (createPlant name species interval last notes clock db)) !! id
      = Some {| Tuple.name := name;
                Tuple.species := species;
                Tuple.watering_interval_days := interval;
                Tuple.last_watered_at := last;
                Tuple.notes := notes;
                Tuple.created_at := datetime_text clock |}
    ∧ (∀ j, j ≠ id →
         plants (snd (createPlant name species interval last notes clock db)) !! j
         = plants db !! j)
    ∧ fst (createPlant name species interval last notes clock db)
      = getPlant id (snd (createPlant name species interval last notes clock db))
    ∧ fst (createPlant name species interval last notes clock db) ≠ Normal None.
Proof.
  pose proof (max_rowid_nonneg (plants db)) as Hnonneg.
  exists (Z.max (sqlite_sequence db) (max_rowid (plants db)) + 1).
  assert ((Z.max (sqlite_sequence db) (max_rowid (plants db)) + 1 =? 0) = false)
    as Hid by (apply Z.eqb_neq; lia).
  split; [lia|]. split; [lia|]. split.
  { intros j y Hj. apply max_rowid_bound in Hj. lia. }
  split; [done|]. split; [apply lookup_insert_eq|]. split.
  { intros j Hj. simpl. by rewrite lookup_insert_ne. }
  unfold createPlant. cbv zeta. simpl fst. simpl snd. rewrite Hid.
  split; [done|].
  unfold getPlant. simpl plants. rewrite lookup_insert_eq.
  by destruct (mapRow _).
Qed.

(** [deletePlant] answers whether the row was there; afterwards the row is
    gone, [getPlant] finds nothing, every other row and the counter are as
    before, and a second delete answers false and changes nothing. *)
Theorem deletePlant_removes (id : Z) (db : database) :
  (fst (deletePlant id db) = true ↔ is_Some (plants db !! id))
  ∧ plants (snd (deletePlant id db)) !! id = None
  ∧ getPlant id (snd (deletePlant id db)) = Normal None
  ∧ (∀ j, j ≠ id → plants (snd (deletePlant id db)) !! j = plants db !! j)
  ∧ sqlite_sequence (snd (deletePlant id db)) = sqlite_sequence db
  ∧ deletePlant id (snd (deletePlant id db)) = (false, snd (deletePlant id db)).
Proof.
  destruct (plants db !! id) as [x|] eqn:Hx.
  - assert (deletePlant id db
            = (true, {| plants := delete id (plants db);
                        sqlite_sequence := sqlite_sequence db |})) as ->.
    { unfold deletePlant. by rewrite Hx. }
    simpl.
    assert (delete id (plants db) !! id = None) as Hgone
      by apply lookup_delete_eq.
    split; [split; [by eexists | done]|]. split; [done|].
    split; [by apply getPlant_None|].
    split; [by intros j Hj; rewrite lookup_delete_ne|]. split; [done|].
    unfold deletePlant. simpl. by rewrite Hgone.
  - assert (deletePlant id db = (false, db)) as Hsame.
    { unfold deletePlant. by rewrite Hx. }
    rewrite !Hsame. simpl.
    split; [split; [done | by intros [? ?]]|]. split; [done|].
    split; [by apply getPlant_None|]. done.
Qed.

(** Deleting the plant just created gives back the table as it was; only
    the counter has moved on, so the id is not handed out again. *)
Theorem createPlant_then_deletePlant (name species : string) (interval : Z)
    (last : option string) (notes : string) (clock : Z) (db : database) :
  let created := snd (createPlant name species interval last notes clock db) in
  let id := sqlite_sequence created in
  fst (deletePlant id created) = true
  ∧ plants (snd (deletePlant id created)) = plants db
  ∧ sqlite_sequence db < sqlite_sequence (snd (deletePlant id created))
  ∧ ∀ name' species' interval' last' notes' clock',
      id < sqlite_sequence
             (snd (createPlant name' species' interval' last' notes' clock'
                     (snd (deletePlant id created)))).
Proof.
  cbv zeta.
  destruct (createPlant_store name species interval last notes clock db)
    as (id & Hfresh & Hdb').
  pose proof (max_rowid_nonneg (plants db)) as Hnonneg.
  assert (sqlite_sequence db < id) as Hlt.
  { unfold createPlant in Hdb'. simpl in Hdb'. injection Hdb' as _ <-. lia. }
  rewrite Hdb'. cbn [sqlite_sequence].
  assert (deletePlant id {| plants := <[id := {| Tuple.name := name;
                                                Tuple.species := species;
                                                Tuple.watering_interval_days := interval;
                                                Tuple.last_watered_at := last;
                                                Tuple.notes := notes;
                                                Tuple.created_at := datetime_text clock |}]>
                                        (plants db);
                            sqlite_sequence := id |}
          = (true, {| plants := plants db; sqlite_sequence := id |})) as ->.
  { unfold deletePlant. cbn [plants sqlite_sequence].
    rewrite lookup_insert_eq. by rewrite delete_insert_id. }
  cbn [fst snd plants sqlite_sequence].
  split; [done|]. split; [done|]. split; [done|].
  intros. unfold createPlant. cbn [fst snd plants sqlite_sequence]. lia.
Qed.
End Rows.

(** ** The routes, case by case *)

Section Routes.
Context `{Host}.

Lemma is_empty_false s : is_empty s = false ↔ s ≠ EmptyString.
Proof. by destruct s. Qed.

Lemma parseDateOrNull_normal raw v :
  parseDateOrNull raw = DateValue v →
  v = None ∨ ∃ t, Z.abs t <= maxTime ∧ v = Some (toISOString t).
Proof.
  unfold parseDateOrNull. destruct raw as [| | | |s|]; try discriminate;
    try (intros [= <-]; by left).
  destruct s as [|c s]; [intros [= <-]; by left|].
  unfold new_Date. destruct (Date_parse _) as [t|]; [|discriminate].
  destruct (TimeClip t) as [t'|] eqn:Hclip; [|discriminate].
  apply TimeClip_Some in Hclip as [-> Hrange].
  intros [= <-]. right. by exists t.
Qed.

(** Where [updatePlant] finds the row, it does not return null. *)
Lemma updatePlant_returns_null id updates db :
  fst (updatePlant id updates db) = Normal None →
  plants db !! id = None ∧ snd (updatePlant id updates db) = db.
Proof.
  destruct (plants db !! id) as [x|] eqn:Hx;
    [|by rewrite updatePlant_not_found].
  destruct (mapRow (row_of id x)) as [existing|] eqn:Hrow;
    [|by rewrite (updatePlant_raises id updates db x)].
  destruct (updatePlant_found id updates db x existing Hx Hrow)
    as (x' & Hx' & _ & _ & Hret & _).
  rewrite Hret, (getPlant_Some _ _ x') by done.
  by destruct (mapRow (row_of id x')).
Qed.

(** The row [updatePlant] leaves under a key: the old one, or the old one
    with some fields taken from [updates]. *)
Lemma updatePlant_row id updates db j y :
  plants (snd (updatePlant id updates db)) !! j = Some y →
  ∃ x, plants db !! j = Some x
    ∧ Tuple.created_at y = Tuple.created_at x
    ∧ (Tuple.name y = Tuple.name x
       ∨ j = id ∧ Tuple.name y ≠ EmptyString
         ∧ Payload.name updates = VStr (Tuple.name y))
    ∧ (Tuple.species y = Tuple.species x
       ∨ j = id ∧ Tuple.species y ≠ EmptyString
         ∧ Payload.species updates = VStr (Tuple.species y))
    ∧ (Tuple.watering_interval_days y = Tuple.watering_interval_days x
       ∨ j = id ∧ Payload.wateringIntervalDays updates
                  = VNum (NInt (Tuple.watering_interval_days y)))
    ∧ (Tuple.last_watered_at y = Tuple.last_watered_at x
       ∨ j = id ∧ Payload.lastWateredAt updates
                  = date_value (Tuple.last_watered_at y))
    ∧ (Tuple.notes y = Tuple.notes x
       ∨ j = id ∧ Payload.notes updates = VStr (Tuple.notes y)).
Proof.
  intros Hy.
  assert (plants db !! j = Some y → ∃ x, plants db !! j = Some x
    ∧ Tuple.created_at y = Tuple.created_at x
    ∧ (Tuple.name y = Tuple.name x
       ∨ j = id ∧ Tuple.name y ≠ EmptyString
         ∧ Payload.name updates = VStr (Tuple.name y))
    ∧ (Tuple.species y = Tuple.species x
       ∨ j = id ∧ Tuple.species y ≠ EmptyString
         ∧ Payload.species updates = VStr (Tuple.species y))
    ∧ (Tuple.watering_interval_days y = Tuple.watering_interval_days x
       ∨ j = id ∧ Payload.wateringIntervalDays updates
                  = VNum (NInt (Tuple.watering_interval_days y)))
    ∧ (Tuple.last_watered_at y = Tuple.last_watered_at x
       ∨ j = id ∧ Payload.lastWateredAt updates
                  = date_value (Tuple.last_watered_at y))
    ∧ (Tuple.notes y = Tuple.notes x
       ∨ j = id ∧ Payload.notes updates = VStr (Tuple.notes y))) as Hsame.
  { intros Hold. exists y. repeat split; auto. }
  destruct (plants db !! id) as [x|] eqn:Hx;
    [|rewrite updatePlant_not_found in Hy by done; by apply Hsame].
  destruct (mapRow (row_of id x)) as [existing|] eqn:Hrow;
    [|rewrite (updatePlant_raises id updates db x) in Hy by done;
      by apply Hsame].
  destruct (updatePlant_found id updates db x existing Hx Hrow)
    as (x' & Hx' & Hother & _ & _ & Hc & Hn & Hs & Hi & Hl & Ho).
  destruct (decide (j = id)) as [->|Hne];
    [|rewrite Hother in Hy by done; by apply Hsame].
  rewrite Hx' in Hy. injection Hy as <-. exists x.
  split; [done|]. split; [done|].
  split; [|split; [|split; [|split]]].
  - rewrite Hn. destruct (Payload.name updates) as [| | | |s|]; auto.
    destruct (0 <? _) eqn:Hlen; auto. right.
    apply string_length_pos in Hlen. done.
  - rewrite Hs. destruct (Payload.species updates) as [| | | |s|]; auto.
    destruct (0 <? _) eqn:Hlen; auto. right.
    apply string_length_pos in Hlen. done.
  - rewrite Hi.
    destruct (Payload.wateringIntervalDays updates) as [| | |[z|]| |]; auto.
  - rewrite Hl. destruct (Payload.lastWateredAt updates); auto.
  - rewrite Ho. destruct (Payload.notes updates); auto.
Qed.

(** What the checks of PATCH put into the payload. *)
Lemma patch_payload_fields body payload :
  patch_payload body = inr payload →
  (Payload.name payload = VUndefined
   ∨ ∃ raw, Payload.name body = VStr raw ∧ String_trim raw ≠ EmptyString
            ∧ Payload.name payload = VStr (String_trim raw))
  ∧ (Payload.species payload = VUndefined
     ∨ ∃ raw, Payload.species body = VStr raw ∧ String_trim raw ≠ EmptyString
              ∧ Payload.species payload = VStr (String_trim raw))
  ∧ (Payload.wateringIntervalDays payload = VUndefined
     ∧ Payload.wateringIntervalDays body = VUndefined
     ∨ ∃ n, parseInterval (Payload.wateringIntervalDays body) = Some n
            ∧ Payload.wateringIntervalDays payload = VNum (NInt n))
  ∧ (Payload.lastWateredAt payload = VUndefined
     ∧ Payload.lastWateredAt body = VUndefined
     ∨ ∃ v, parseDateOrNull (Payload.lastWateredAt body) = DateValue v
            ∧ Payload.lastWateredAt body ≠ VUndefined
            ∧ Payload.lastWateredAt payload = date_value v)
  ∧ (Payload.notes payload = VUndefined ∧ Payload.notes body = VUndefined
     ∨ Payload.notes body ≠ VUndefined
       ∧ Payload.notes payload = VStr (formatNotes (Payload.notes body))).
Proof.
  unfold patch_payload, and_then.
  destruct (patch_name body empty_payload) as [|p1] eqn:H1; [done|].
  destruct (patch_species body p1) as [|p2] eqn:H2; [done|].
  destruct (patch_interval body p2) as [|p3] eqn:H3; [done|].
  destruct (patch_notes body p3) as [|p4] eqn:H4; [done|].
  intros H5.
  assert (p1 = empty_payload
          ∨ ∃ raw, Payload.name body = VStr raw ∧ String_trim raw ≠ EmptyString
                   ∧ p1 = set_name (VStr (String_trim raw)) empty_payload) as E1.
  { unfold patch_name in H1.
    destruct (Payload.name body) as [| | | |raw|] eqn:Hraw;
      try (injection H1 as <-; by left).
    simpl in H1. destruct (is_empty _) eqn:He; [done|].
    injection H1 as <-. right. exists raw. by apply is_empty_false in He. }
  assert (p2 = p1
          ∨ ∃ raw, Payload.species body = VStr raw ∧ String_trim raw ≠ EmptyString
                   ∧ p2 = set_species (VStr (String_trim raw)) p1) as E2.
  { unfold patch_species in H2.
    destruct (Payload.species body) as [| | | |raw|] eqn:Hraw;
      try (injection H2 as <-; by left).
    simpl in H2. destruct (is_empty _) eqn:He; [done|].
    injection H2 as <-. right. exists raw. by apply is_empty_false in He. }
  assert (p3 = p2 ∧ Payload.wateringIntervalDays body = VUndefined
          ∨ ∃ n, parseInterval (Payload.wateringIntervalDays body) = Some n
                 ∧ p3 = set_wateringIntervalDays (VNum (NInt n)) p2) as E3.
  { unfold patch_interval in H3.
    destruct (Payload.wateringIntervalDays body) eqn:Hraw;
      try (injection H3 as <-; by left);
      (destruct (parseInterval _) as [k|] eqn:Hk; [|done]);
      injection H3 as <-; right; by exists k. }
  assert (p4 = p3 ∧ Payload.notes body = VUndefined
          ∨ Payload.notes body ≠ VUndefined
            ∧ p4 = set_notes (VStr (formatNotes (Payload.notes body))) p3) as E4.
  { unfold patch_notes in H4.
    destruct (Payload.notes body) eqn:Hraw; injection H4 as <-; auto. }
  assert (payload = p4 ∧ Payload.lastWateredAt body = VUndefined
          ∨ ∃ v, parseDateOrNull (Payload.lastWateredAt body) = DateValue v
                 ∧ Payload.lastWateredAt body ≠ VUndefined
                 ∧ payload = set_lastWateredAt (date_value v) p4) as E5.
  { unfold patch_lastWateredAt in H5.
    destruct (Payload.lastWateredAt body) eqn:Hraw;
      try (injection H5 as <-; by left);
      (destruct (parseDateOrNull _) as [|v] eqn:Hv; [done|]);
      injection H5 as <-; right; by exists v. }
  clear H1 H2 H3 H4 H5.
  destruct E1 as [-> | (raw1 & Hb1 & Ht1 & ->)];
    destruct E2 as [-> | (raw2 & Hb2 & Ht2 & ->)];
    destruct E3 as [[-> Hb3] | (n & Hb3 & ->)];
    destruct E4 as [[-> Hb4] | [Hb4 ->]];
    destruct E5 as [[-> Hb5] | (v & Hb5 & Hb5' & ->)];
    simpl; repeat split; eauto 6.
Qed.
End Routes.

(** ** What a request leaves in the store *)

Section Steps.
Context `{Host}.

Lemma date_value_inj v w : date_value v = date_value w → v = w.
Proof. destruct v, w; simpl; congruence. Qed.

Lemma createPlant_fresh name species interval last notes clock db :
  ∃ id, plants db !! id = None ∧ 0 < id ∧ sqlite_sequence db < id
    ∧ snd (createPlant name species interval last notes clock db)
      = {| plants :=
             <[id := {| Tuple.name := name;
                        Tuple.species := species;
                        Tuple.watering_interval_days := interval;
                        Tuple.last_watered_at := last;
                        Tuple.notes := notes;
                        Tuple.created_at := datetime_text clock |}]> (plants db);
           sqlite_sequence := id |}.
Proof.
  pose proof (max_rowid_nonneg (plants db)) as Hnonneg.
  exists (Z.max (sqlite_sequence db) (max_rowid (plants db)) + 1).
  split; [|split; [lia|split; [lia|done]]].
  destruct (plants db !! _) as [x|] eqn:Hx; [|done].
  apply max_rowid_bound in Hx. lia.
Qed.

Lemma createPlant_returns name species interval last notes clock db :
  ∃ id, plants db !! id = None
    ∧ plants (snd (createPlant name species interval last notes clock db)) !! id
      = Some {| Tuple.name := name;
                Tuple.species := species;
                Tuple.watering_interval_days := interval;
                Tuple.last_watered_at := last;
                Tuple.notes := notes;
                Tuple.created_at := datetime_text clock |}
    ∧ fst (createPlant name species interval last notes clock db)
      = getPlant id (snd (createPlant name species interval last notes clock db)).
Proof.
  pose proof (max_rowid_nonneg (plants db)) as Hnonneg.
  exists (Z.max (sqlite_sequence db) (max_rowid (plants db)) + 1).
  split; [|split].
  - destruct (plants db !! _) as [x|] eqn:Hx; [|done].
    apply max_rowid_bound in Hx. lia.
  - apply lookup_insert_eq.
  - unfold createPlant. cbv zeta. cbn [fst snd].
    destruct (_ =? 0) eqn:Hzero; [apply Z.eqb_eq in Hzero; lia | done].
Qed.

(** A row found after a request was there before, with the fields the
    request did not replace and validated values in the others, or it is
    the row a POST has just inserted under a new id. *)
Lemma handle_row req clock db j y :
  plants (snd (handle req clock db)) !! j = Some y →
  (∃ x, plants db !! j = Some x
     ∧ Tuple.created_at y = Tuple.created_at x
     ∧ (Tuple.name y = Tuple.name x ∨ Tuple.name y ≠ EmptyString)
     ∧ (Tuple.species y = Tuple.species x ∨ Tuple.species y ≠ EmptyString)
     ∧ (Tuple.last_watered_at y = Tuple.last_watered_at x
        ∨ Tuple.last_watered_at y = None
        ∨ ∃ t, Z.abs t <= maxTime
               ∧ Tuple.last_watered_at y = Some (toISOString t)))
  ∨ (plants db !! j = None ∧ 0 < j ∧ sqlite_sequence db < j
     ∧ sqlite_sequence (snd (handle req clock db)) = j
     ∧ Tuple.created_at y = datetime_text clock
     ∧ Tuple.name y ≠ EmptyString ∧ Tuple.species y ≠ EmptyString
     ∧ (Tuple.last_watered_at y = None
        ∨ ∃ t, Z.abs t <= maxTime
               ∧ Tuple.last_watered_at y = Some (toISOString t))).
Proof.
  assert (∀ y', plants db !! j = Some y' →
    ∃ x, plants db !! j = Some x
     ∧ Tuple.created_at y' = Tuple.created_at x
     ∧ (Tuple.name y' = Tuple.name x ∨ Tuple.name y' ≠ EmptyString)
     ∧ (Tuple.species y' = Tuple.species x ∨ Tuple.species y' ≠ EmptyString)
     ∧ (Tuple.last_watered_at y' = Tuple.last_watered_at x
        ∨ Tuple.last_watered_at y' = None
        ∨ ∃ t, Z.abs t <= maxTime
               ∧ Tuple.last_watered_at y' = Some (toISOString t))) as Hsame.
  { intros y' Hy'. exists y'. repeat split; auto. }
  destruct req as [body | rawId body | rawId body | rawId]; simpl.
  - unfold post_plants.
    destruct (is_empty (formatText (Payload.name body))) eqn:Hname;
      [by left; apply Hsame|].
    destruct (is_empty (formatText (Payload.species body))) eqn:Hspecies;
      [by left; apply Hsame|].
    destruct (parseInterval _) as [interval|] eqn:Hint;
      [|by left; apply Hsame].
    destruct (parseDateOrNull _) as [|last] eqn:Hlast;
      [by left; apply Hsame|].
    destruct (createPlant _ _ _ _ _ _ _) as [plant db'] eqn:Hcreate. simpl.
    destruct (createPlant_fresh (formatText (Payload.name body))
                (formatText (Payload.species body)) interval last
                (formatNotes (Payload.notes body)) clock db)
      as (id & Hfresh & Hpos & Hseq & Hdb').
    rewrite Hcreate in Hdb'. simpl in Hdb'. subst db'. simpl.
    rewrite lookup_insert_Some. intros [[<- <-] | [_ Hy]];
      [|by left; apply Hsame].
    right. simpl. apply is_empty_false in Hname, Hspecies.
    apply parseDateOrNull_normal in Hlast. done.
  - unfold put_plants. destruct (parseId rawId) as [id|];
      [|by left; apply Hsame].
    destruct (is_empty (formatText (Payload.name body))) eqn:Hname;
      [by left; apply Hsame|].
    destruct (is_empty (formatText (Payload.species body))) eqn:Hspecies;
      [by left; apply Hsame|].
    simpl orb. cbv iota.
    destruct (parseInterval _) as [interval|] eqn:Hint;
      [|by left; apply Hsame].
    destruct (parseDateOrNull _) as [|last] eqn:Hlast;
      [by left; apply Hsame|].
    destruct (updatePlant _ _ _) as [updated db'] eqn:Hupd. simpl.
    change db' with (snd (updated, db')). rewrite <- Hupd.
    intros Hy. left. apply updatePlant_row in Hy
      as (x & Hx & Hc & Hn & Hs & _ & Hl & _).
    simpl in Hn, Hs, Hl. exists x. split; [done|]. split; [done|].
    apply parseDateOrNull_normal in Hlast.
    split; [|split].
    + destruct Hn as [? | (_ & ? & _)]; auto.
    + destruct Hs as [? | (_ & ? & _)]; auto.
    + destruct Hl as [? | [_ Hl]]; [by left|]. right.
      apply date_value_inj in Hl. by rewrite <- Hl.
  - unfold patch_plants. destruct (parseId rawId) as [id|];
      [|by left; apply Hsame].
    destruct (patch_payload body) as [|payload] eqn:Hpayload;
      [by left; apply Hsame|].
    destruct (no_keys payload); [by left; apply Hsame|].
    destruct (updatePlant _ _ _) as [updated db'] eqn:Hupd. simpl.
    change db' with (snd (updated, db')). rewrite <- Hupd.
    intros Hy. left. apply updatePlant_row in Hy
      as (x & Hx & Hc & Hn & Hs & _ & Hl & _).
    apply patch_payload_fields in Hpayload as (_ & _ & _ & Hpl & _).
    exists x. split; [done|]. split; [done|]. split; [|split].
    + destruct Hn as [? | (_ & ? & _)]; auto.
    + destruct Hs as [? | (_ & ? & _)]; auto.
    + destruct Hl as [? | [_ Hl]]; [by left|]. right.
      destruct Hpl as [[Hundef _] | (v & Hv & _ & Hpv)].
      * rewrite Hundef in Hl. by destruct (Tuple.last_watered_at y).
      * rewrite Hpv in Hl. apply date_value_inj in Hl. subst v.
        by apply parseDateOrNull_normal in Hv.
  - unfold delete_plants. destruct (parseId rawId) as [id|];
      [|by left; apply Hsame].
    unfold deletePlant. destruct (plants db !! id) eqn:Hid; simpl;
      [|by left; apply Hsame].
    rewrite lookup_delete_Some. intros [_ Hy]. left. by apply Hsame.
Qed.

(** The counter never goes back. *)
Lemma handle_counter req clock db :
  sqlite_sequence db <= sqlite_sequence (snd (handle req clock db)).
Proof.
  assert (∀ id updates, sqlite_sequence (snd (updatePlant id updates db))
                        = sqlite_sequence db) as Hupdate.
  { intros id updates.
    destruct (plants db !! id) as [x|] eqn:Hx;
      [|by rewrite updatePlant_not_found].
    destruct (mapRow (row_of id x)) as [existing|] eqn:Hrow;
      [|by rewrite (updatePlant_raises id updates db x)].
    by destruct (updatePlant_found id updates db x existing Hx Hrow)
      as (x' & _ & _ & Hseq & _). }
  destruct req as [body | rawId body | rawId body | rawId]; simpl.
  - unfold post_plants.
    destruct (is_empty _); [done|]. destruct (is_empty _); [done|].
    destruct (parseInterval _) as [interval|]; [|done].
    destruct (parseDateOrNull _) as [|last]; [done|].
    destruct (createPlant _ _ _ _ _ _ _) as [plant db'] eqn:Hcreate. simpl.
    destruct (createPlant_fresh (formatText (Payload.name body))
                (formatText (Payload.species body)) interval last
                (formatNotes (Payload.notes body)) clock db)
      as (id & _ & _ & Hseq & Hdb').
    rewrite Hcreate in Hdb'. simpl in Hdb'. subst db'. simpl. lia.
  - unfold put_plants. destruct (parseId rawId) as [id|]; [|done].
    destruct (_ || _); [done|].
    destruct (parseInterval _) as [interval|]; [|done].
    destruct (parseDateOrNull _) as [|last]; [done|].
    destruct (updatePlant _ _ _) as [updated db'] eqn:Hupd. simpl.
    change db' with (snd (updated, db')). rewrite <- Hupd, Hupdate. done.
  - unfold patch_plants. destruct (parseId rawId) as [id|]; [|done].
    destruct (patch_payload body) as [|payload]; [done|].
    destruct (no_keys payload); [done|].
    destruct (updatePlant _ _ _) as [updated db'] eqn:Hupd. simpl.
    change db' with (snd (updated, db')). rewrite <- Hupd, Hupdate. done.
  - unfold delete_plants. destruct (parseId rawId) as [id|]; [|done].
    unfold deletePlant. by destruct (plants db !! id).
Qed.

(** Ids are never reused: in a store the routes can reach, every id is
    positive and at most the counter; a request never lowers the counter,
    and a row it adds gets an id above the counter, so above every id the
    table has held. *)
Theorem reachable_ids_never_reused (db : database) :
  reachable db →
  ids_issued db
  ∧ ∀ req clock,
      sqlite_sequence db <= sqlite_sequence (snd (handle req clock db))
      ∧ ∀ j y, plants (snd (handle req clock db)) !! j = Some y →
               plants db !! j = None → sqlite_sequence db < j.
Proof.
  intros Hreach. split.
  - induction Hreach as [|req clock db Hreach IH].
    + intros id x. simpl. by rewrite lookup_empty.
    + intros j y Hy. pose proof (handle_counter req clock db) as Hcounter.
      apply handle_row in Hy as [(x & Hx & _) | (_ & ? & ? & Hseq & _)].
      * specialize (IH j x Hx). lia.
      * lia.
  - intros req clock. split; [apply handle_counter|].
    intros j y Hy Hnew.
    apply handle_row in Hy as [(x & Hx & _) | (_ & _ & ? & _)]; [|done].
    congruence.
Qed.

(** In a store the routes can reach, every name and species is a non-empty
    string. *)
Theorem reachable_names_present (db : database) :
  reachable db → names_present db.
Proof.
  induction 1 as [|req clock db Hreach IH].
  - intros id x. simpl. by rewrite lookup_empty.
  - intros j y Hy.
    apply handle_row in Hy
      as [(x & Hx & _ & Hn & Hs & _) | (_ & _ & _ & _ & _ & ? & ? & _)];
      [|done].
    destruct (IH j x Hx) as [Hxn Hxs]. split.
    + destruct Hn as [-> | ?]; done.
    + destruct Hs as [-> | ?]; done.
Qed.

(** In a store the routes can reach, every [last_watered_at] is NULL or the
    ISO text of a valid Date: text that is no date is never stored. *)
Theorem reachable_dates_normal (db : database) :
  reachable db → dates_normal db.
Proof.
  induction 1 as [|req clock db Hreach IH].
  - intros id x. simpl. by rewrite lookup_empty.
  - intros j y Hy.
    apply handle_row in Hy
      as [(x & Hx & _ & _ & _ & Hl) | (_ & _ & _ & _ & _ & _ & _ & ?)];
      [|done].
    destruct Hl as [-> | Hl]; [by apply (IH j x)|done].
Qed.
End Steps.

(** ** Rejections and failures *)

Section Failures.
Context `{Host}.

(** A request answered with an error other than 500 (a 400 or a 404) has
    changed nothing in the store. *)
Theorem rejected_request_changes_nothing (req : request) (clock : Z)
    (db : database) (status : Z) (error : string) :
  fst (handle req clock db) = RError status error →
  status ≠ 500 →
  snd (handle req clock db) = db.
Proof.
  destruct req as [body | rawId body | rawId body | rawId]; simpl.
  - unfold post_plants.
    destruct (is_empty _); [done|]. destruct (is_empty _); [done|].
    destruct (parseInterval _) as [interval|]; [|done].
    destruct (parseDateOrNull _) as [|last]; [done|].
    destruct (createPlant _ _ _ _ _ _ _) as [plant db'] eqn:Hcreate. simpl.
    destruct plant as [[p|]|]; simpl; [done | |]; by intros [= <- _].
  - unfold put_plants. destruct (parseId rawId) as [id|]; [|done].
    destruct (_ || _); [done|].
    destruct (parseInterval _) as [interval|]; [|done].
    destruct (parseDateOrNull _) as [|last]; [done|].
    destruct (updatePlant _ _ _) as [updated db'] eqn:Hupd. simpl.
    destruct updated as [[p|]|]; simpl; [done | | by intros [= <- _]].
    intros _ _. change db' with (snd (Normal (@None Plant.t), db')).
    rewrite <- Hupd. apply updatePlant_returns_null. by rewrite Hupd.
  - unfold patch_plants. destruct (parseId rawId) as [id|]; [|done].
    destruct (patch_payload body) as [|payload]; [done|].
    destruct (no_keys payload); [done|].
    destruct (updatePlant _ _ _) as [updated db'] eqn:Hupd. simpl.
    destruct updated as [[p|]|]; simpl; [done | | by intros [= <- _]].
    intros _ _. change db' with (snd (Normal (@None Plant.t), db')).
    rewrite <- Hupd. apply updatePlant_returns_null. by rewrite Hupd.
  - unfold delete_plants. destruct (parseId rawId) as [id|]; [|done].
    unfold deletePlant. by destruct (plants db !! id).
Qed.

(** [mapRow] raises exactly on a row whose [last_watered_at] is a valid
    date with a due instant beyond the range of a Date. *)
Lemma mapRow_raises row :
  mapRow row = RangeError
  ↔ ∃ s t, Row.last_watered_at row = Some s ∧ s ≠ EmptyString
           ∧ new_Date s = Some t
           ∧ maxTime < Z.abs (addDays t (Row.watering_interval_days row)).
Proof.
  unfold mapRow.
  destruct (Row.last_watered_at row) as [[|c s]|] eqn:Hlast.
  { simpl. split; [done|]. by intros (s' & t & [= <-] & ? & _). }
  2: { simpl. split; [done|]. by intros (s' & t & ? & _). }
  rewrite nextWateringDueAt_present by done.
  destruct (new_Date (String c s)) as [t|] eqn:Ht; simpl.
  - destruct (TimeClip _) as [t'|] eqn:Hclip; simpl.
    + apply TimeClip_Some in Hclip as [_ Hrange].
      split; [done|]. intros (s' & t0 & [= <-] & _ & Ht0 & Hover).
      rewrite Ht in Ht0. injection Ht0 as <-. lia.
    + apply TimeClip_None in Hclip. split; [|done]. intros _.
      by exists (String c s), t.
  - split; [done|]. intros (s' & t0 & [= <-] & _ & Ht0 & _). congruence.
Qed.

(** A POST can store its row and answer 500 all the same.  When the body
    passes the validation and the due instant of its date lies beyond the
    range of a Date, the row is inserted under a new id, no record can be
    built from it ([getPlant] raises on it), and the answer is 500
    "Unexpected server error". *)
Theorem post_plants_inserts_before_500 (body : Payload.t) (clock : Z)
    (db : database) (interval : Z) (last : string) (t : Z) :
  formatText (Payload.name body) ≠ EmptyString →
  formatText (Payload.species body) ≠ EmptyString →
  parseInterval (Payload.wateringIntervalDays body) = Some interval →
  parseDateOrNull (Payload.lastWateredAt body) = DateValue (Some last) →
  new_Date last = Some t →
  maxTime < Z.abs (addDays t interval) →
  fst (post_plants body clock db) = RError 500 "Unexpected server error"
  ∧ ∃ id,
      plants db !! id = None
      ∧ plants (snd (post_plants body clock db)) !! id
        = Some {| Tuple.name := formatText (Payload.name body);
                  Tuple.species := formatText (Payload.species body);
                  Tuple.watering_interval_days := interval;
                  Tuple.last_watered_at := Some last;
                  Tuple.notes := formatNotes (Payload.notes body);
                  Tuple.created_at := datetime_text clock |}
      ∧ getPlant id (snd (post_plants body clock db)) = RangeError.
Proof.
  intros Hname Hspecies Hinterval Hlast Ht Hrange.
  assert (last ≠ EmptyString) as Hne.
  { destruct (parseDateOrNull_normal _ _ Hlast) as [|(t0 & _ & [= ->])];
      [done|]. apply toISOString_nonempty. }
  unfold post_plants. rewrite Hinterval, Hlast.
  apply is_empty_false in Hname as ->. apply is_empty_false in Hspecies as ->.
  destruct (createPlant_returns (formatText (Payload.name body))
              (formatText (Payload.species body)) interval (Some last)
              (formatNotes (Payload.notes body)) clock db)
    as (id & Hfresh & Hrow & Hplant).
  destruct (createPlant _ _ _ _ _ _ _) as [plant db'] eqn:Hcreate.
  simpl in Hrow, Hplant. simpl. subst plant.
  assert (getPlant id db' = RangeError) as Hget.
  { rewrite (getPlant_Some _ _ _ Hrow).
    assert (mapRow (row_of id
              {| Tuple.name := formatText (Payload.name body);
                 Tuple.species := formatText (Payload.species body);
                 Tuple.watering_interval_days := interval;
                 Tuple.last_watered_at := Some last;
                 Tuple.notes := formatNotes (Payload.notes body);
                 Tuple.created_at := datetime_text clock |}) = RangeError)
      as ->; [|done].
    apply mapRow_raises. by exists last, t. }
  rewrite Hget. simpl. split; [done|]. by exists id.
Qed.

(** A row whose record cannot be built blocks the service: the listing
    without a filter raises at every clock reading, the row cannot be
    fetched, and every update of it raises and changes nothing.  Deleting
    it still works. *)
Theorem unreadable_row_blocks (id : Z) (x : Tuple.t) (db : database) :
  plants db !! id = Some x →
  mapRow (row_of id x) = RangeError →
  (∀ now, listPlants None now db = RangeError)
  ∧ getPlant id db = RangeError
  ∧ (∀ updates, updatePlant id updates db = (RangeError, db))
  ∧ fst (deletePlant id db) = true
  ∧ plants (snd (deletePlant id db)) !! id = None.
Proof.
  intros Hx Hrow. split; [|split; [|split; [|split]]].
  - intros now. unfold listPlants. apply cmap_RangeError.
    exists (row_of id x). split; [|done].
    apply elem_of_query_rows. split; [|done].
    unfold select_plants. apply list_elem_of_fmap.
    exists (id, x). split; [done|]. by apply elem_of_map_to_list.
  - by rewrite (getPlant_Some _ _ x), Hrow.
  - intros updates. by apply (updatePlant_raises id updates db x).
  - unfold deletePlant. by rewrite Hx.
  - unfold deletePlant. rewrite Hx. simpl. apply lookup_delete_eq.
Qed.
End Failures.

(** ** Replacing and patching a record *)

Section Edits.
Context `{Host}.

Lemma database_eq (a b : database) :
  plants a = plants b → sqlite_sequence a = sqlite_sequence b → a = b.
Proof. destruct a, b. simpl. by intros -> ->. Qed.

Lemma tuple_eq (x y : Tuple.t) :
  Tuple.name x = Tuple.name y → Tuple.species x = Tuple.species y →
  Tuple.watering_interval_days x = Tuple.watering_interval_days y →
  Tuple.last_watered_at x = Tuple.last_watered_at y →
  Tuple.notes x = Tuple.notes y → Tuple.created_at x = Tuple.created_at y →
  x = y.
Proof. destruct x, y. simpl. by intros -> -> -> -> -> ->. Qed.

(** No update removes a row. *)
Lemma updatePlant_keeps_rows id updates db j x :
  plants db !! j = Some x →
  is_Some (plants (snd (updatePlant id updates db)) !! j).
Proof.
  intros Hj.
  destruct (plants db !! id) as [x0|] eqn:Hx;
    [|by rewrite updatePlant_not_found].
  destruct (mapRow (row_of id x0)) as [existing|] eqn:Hrow;
    [|by rewrite (updatePlant_raises id updates db x0)].
  destruct (updatePlant_found id updates db x0 existing Hx Hrow)
    as (x' & Hx' & Hother & _).
  destruct (decide (j = id)) as [->|Hne]; [by rewrite Hx'|].
  by rewrite Hother.
Qed.

(** [updatePlant] does nothing more when it is repeated with the same
    [updates]. *)
Theorem updatePlant_idempotent (id : Z) (updates : Payload.t) (db : database) :
  snd (updatePlant id updates (snd (updatePlant id updates db)))
  = snd (updatePlant id updates db).
Proof.
  destruct (plants db !! id) as [x|] eqn:Hx.
  2: { rewrite (updatePlant_not_found id updates db Hx). simpl.
       by rewrite (updatePlant_not_found id updates db Hx). }
  destruct (mapRow (row_of id x)) as [existing|] eqn:Hrow.
  2: { rewrite (updatePlant_raises id updates db x Hx Hrow). simpl.
       by rewrite (updatePlant_raises id updates db x Hx Hrow). }
  destruct (updatePlant_found id updates db x existing Hx Hrow)
    as (x' & Hx' & Hother & Hseq & _ & Hc & Hn & Hs & Hi & Hl & Ho).
  set (db' := snd (updatePlant id updates db)) in *.
  destruct (mapRow (row_of id x')) as [existing'|] eqn:Hrow';
    [|by rewrite (updatePlant_raises id updates db' x')].
  destruct (updatePlant_found id updates db' x' existing' Hx' Hrow')
    as (x'' & Hx'' & Hother' & Hseq' & _ & Hc' & Hn' & Hs' & Hi' & Hl' & Ho').
  apply database_eq; [|done].
  apply map_eq. intros j. destruct (decide (j = id)) as [->|Hne];
    [|by apply Hother'].
  rewrite Hx'', Hx'. f_equal. apply tuple_eq; [| | | | |done].
  - rewrite Hn', Hn. destruct (Payload.name updates); try done.
    by destruct (0 <? _).
  - rewrite Hs', Hs. destruct (Payload.species updates); try done.
    by destruct (0 <? _).
  - rewrite Hi', Hi.
    by destruct (Payload.wateringIntervalDays updates) as [| | |[z|]| |].
  - rewrite Hl', Hl. by destruct (Payload.lastWateredAt updates).
  - rewrite Ho', Ho. by destruct (Payload.notes updates).
Qed.

(** PATCH keeps every row, and in a row it changes a field only to the
    validated value of a key the body holds: a name or species that is a
    string, trimmed; an interval [parseInterval] accepts; a date as
    [parseDateOrNull] normalises it; notes trimmed.  A key absent from the
    body keeps the stored value. *)
Theorem patch_plants_keeps_absent_fields (rawId : string) (body : Payload.t)
    (db : database) (j : Z) (x : Tuple.t) :
  plants db !! j = Some x →
  ∃ y, plants (snd (patch_plants rawId body db)) !! j = Some y
    ∧ Tuple.created_at y = Tuple.created_at x
    ∧ (Tuple.name y = Tuple.name x
       ∨ ∃ raw, Payload.name body = VStr raw ∧ Tuple.name y = String_trim raw)
    ∧ (Tuple.species y = Tuple.species x
       ∨ ∃ raw, Payload.species body = VStr raw
                ∧ Tuple.species y = String_trim raw)
    ∧ (Tuple.watering_interval_days y = Tuple.watering_interval_days x
       ∨ parseInterval (Payload.wateringIntervalDays body)
         = Some (Tuple.watering_interval_days y))
    ∧ (Tuple.last_watered_at y = Tuple.last_watered_at x
       ∨ Payload.lastWateredAt body ≠ VUndefined
         ∧ parseDateOrNull (Payload.lastWateredAt body)
           = DateValue (Tuple.last_watered_at y))
    ∧ (Tuple.notes y = Tuple.notes x
       ∨ Payload.notes body ≠ VUndefined
         ∧ Tuple.notes y = formatNotes (Payload.notes body)).
Proof.
  intros Hx.
  assert (∃ y, plants db !! j = Some y
    ∧ Tuple.created_at y = Tuple.created_at x
    ∧ (Tuple.name y = Tuple.name x
       ∨ ∃ raw, Payload.name body = VStr raw ∧ Tuple.name y = String_trim raw)
    ∧ (Tuple.species y = Tuple.species x
       ∨ ∃ raw, Payload.species body = VStr raw
                ∧ Tuple.species y = String_trim raw)
    ∧ (Tuple.watering_interval_days y = Tuple.watering_interval_days x
       ∨ parseInterval (Payload.wateringIntervalDays body)
         = Some (Tuple.watering_interval_days y))
    ∧ (Tuple.last_watered_at y = Tuple.last_watered_at x
       ∨ Payload.lastWateredAt body ≠ VUndefined
         ∧ parseDateOrNull (Payload.lastWateredAt body)
           = DateValue (Tuple.last_watered_at y))
    ∧ (Tuple.notes y = Tuple.notes x
       ∨ Payload.notes body ≠ VUndefined
         ∧ Tuple.notes y = formatNotes (Payload.notes body))) as Hsame.
  { exists x. repeat split; auto. }
  unfold patch_plants. destruct (parseId rawId) as [id|]; [|done].
  destruct (patch_payload body) as [|payload] eqn:Hpayload; [done|].
  destruct (no_keys payload); [done|].
  destruct (updatePlant _ _ _) as [updated db'] eqn:Hupd. simpl.
  assert (db' = snd (updatePlant id payload db)) as -> by by rewrite Hupd.
  destruct (updatePlant_keeps_rows id payload db j x Hx) as [y Hy].
  exists y. split; [done|].
  destruct (updatePlant_row id payload db j y Hy)
    as (x0 & Hx0 & Hc & Hn & Hs & Hi & Hl & Ho).
  rewrite Hx in Hx0. injection Hx0 as <-.
  apply patch_payload_fields in Hpayload as (Pn & Ps & Pi & Pl & Po).
  split; [done|]. split; [|split; [|split; [|split]]].
  - destruct Hn as [? | (_ & _ & Hv)]; [by left|]. right.
    destruct Pn as [Hundef | (raw & Hraw & _ & Hp)]; [congruence|].
    exists raw. split; [done|]. congruence.
  - destruct Hs as [? | (_ & _ & Hv)]; [by left|]. right.
    destruct Ps as [Hundef | (raw & Hraw & _ & Hp)]; [congruence|].
    exists raw. split; [done|]. congruence.
  - destruct Hi as [? | (_ & Hv)]; [by left|]. right.
    destruct Pi as [[Hundef _] | (n & Hn' & Hp)]; [congruence|].
    rewrite Hp in Hv. by injection Hv as ->.
  - destruct Hl as [? | (_ & Hv)]; [by left|]. right.
    destruct Pl as [[Hundef _] | (v & Hv' & Hbody & Hp)].
    + rewrite Hundef in Hv. by destruct (Tuple.last_watered_at y).
    + rewrite Hp in Hv. apply date_value_inj in Hv. by subst v.
  - destruct Ho as [? | (_ & Hv)]; [by left|]. right.
    destruct Po as [[Hundef _] | [Hbody Hp]]; [congruence|].
    rewrite Hp in Hv. by injection Hv as ->.
Qed.
End Edits.

(** ** What a listing holds *)

Lemma filter_everything {A} (l : list A) : List.filter (λ _, true) l = l.
Proof. induction l as [|a l IH]; simpl; [done | by rewrite IH]. Qed.

Lemma filter_Permutation {A} (f : A → bool) (l k : list A) :
  l ≡ₚ k → List.filter f l ≡ₚ List.filter f k.
Proof.
  induction 1 as [|a l k Hlk IH|a b l|l k m Hlk IH1 Hkm IH2]; simpl.
  - done.
  - destruct (f a); [by constructor | done].
  - destruct (f a), (f b); try done. apply perm_swap.
  - by etrans.
Qed.

Lemma filter_StronglySorted {A} (R : relation A) (f : A → bool) (l : list A) :
  StronglySorted R l → StronglySorted R (List.filter f l).
Proof.
  induction 1 as [|a l Hsorted IH Hall]; simpl; [constructor|].
  destruct (f a); [|done]. constructor; [done|].
  rewrite Forall_forall in Hall. apply Forall_forall. intros b Hb.
  apply Hall. apply list_elem_of_In in Hb. apply filter_In in Hb as [Hb _].
  by apply list_elem_of_In.
Qed.

Lemma cmap_filter {A B} (f : A → completion B) (g : A → bool) (l : list A)
    (out : list B) :
  cmap f l = Normal out →
  ∃ part, cmap f (List.filter g l) = Normal part ∧ part `sublist_of` out.
Proof.
  revert out. induction l as [|a l IH]; intros out; simpl.
  - intros [= <-]. by exists [].
  - destruct (f a) as [b|] eqn:Hfa; simpl; [|done].
    destruct (cmap f l) as [bs|]; simpl; [|done]. intros [= <-].
    destruct (IH bs eq_refl) as (part & Hpart & Hsub).
    destruct (g a); simpl.
    + rewrite Hfa. simpl. rewrite Hpart. simpl.
      exists (b :: part). split; [done | by constructor].
    + exists part. split; [done | by constructor].
Qed.

Lemma select_plants_row db row :
  row ∈ select_plants db →
  ∃ x, plants db !! Row.id row = Some x ∧ row = row_of (Row.id row) x.
Proof.
  unfold select_plants. rewrite list_elem_of_fmap.
  intros ([i x] & -> & Hin). apply elem_of_map_to_list in Hin.
  simpl. by exists x.
Qed.

Section Listings.
Context `{Host}.

Lemma query_rows_None now db :
  query_rows None now db = merge_sort ordered (select_plants db).
Proof. unfold query_rows, where_clause. simpl. by rewrite filter_everything. Qed.

(** The rows of a filtered query are the rows of the full query that
    satisfy the condition, in the same order. *)
Lemma query_rows_filter filter now db :
  query_rows filter now db
  = List.filter (λ row, where_true (where_clause filter now row))
                (query_rows None now db).
Proof.
  rewrite query_rows_None. unfold query_rows.
  apply (StronglySorted_unique_strong ordered).
  - intros a b Ha Hb Hab Hba.
    rewrite merge_sort_Permutation in Ha.
    apply list_elem_of_In, filter_In in Ha as [Ha _].
    apply list_elem_of_In, filter_In in Hb as [Hb _].
    apply list_elem_of_In in Ha, Hb. rewrite merge_sort_Permutation in Hb.
    apply select_plants_row in Ha as (x & Hx & Ea).
    apply select_plants_row in Hb as (y & Hy & Eb).
    assert (Row.id a = Row.id b) as Hid.
    { unfold ordered, order_by in Hab, Hba.
      rewrite (String.compare_antisym (Row.created_at b) (Row.created_at a))
        in Hba.
      destruct (String.compare (Row.created_at a) (Row.created_at b));
        simpl in Hba; try done.
      apply Z.leb_le in Hab, Hba. lia. }
    rewrite Ea, Eb. rewrite Hid in Hx |- *. congruence.
  - apply StronglySorted_merge_sort; apply _.
  - apply filter_StronglySorted, StronglySorted_merge_sort; apply _.
  - rewrite merge_sort_Permutation. apply filter_Permutation.
    by rewrite merge_sort_Permutation.
Qed.

(** The 'due' and 'upcoming' views show plants of the full view, in the
    order of the full view: when the listing without a filter returns, so
    does every filtered listing, with a sublist of it. *)
Theorem listPlants_filtered_sublist (filter : option string) (now : Z)
    (db : database) (full : list Plant.t) :
  listPlants None now db = Normal full →
  ∃ part, listPlants filter now db = Normal part ∧ part `sublist_of` full.
Proof.
  unfold listPlants. rewrite (query_rows_filter filter). apply cmap_filter.
Qed.

(** Each plant of a listing is listed once and is the record [getPlant]
    returns for its id; the listing without a filter has one record for
    every row of the table. *)
Theorem listPlants_rows (filter : option string) (now : Z) (db : database)
    (listed : list Plant.t) :
  listPlants filter now db = Normal listed →
  NoDup (Plant.id <$> listed)
  ∧ (∀ plant, plant ∈ listed →
       getPlant (Plant.id plant) db = Normal (Some plant))
  ∧ (filter ≠ Some "due" → filter ≠ Some "upcoming" →
     length listed = size (plants db)
     ∧ ∀ id, is_Some (plants db !! id) →
             ∃ plant, plant ∈ listed ∧ Plant.id plant = id).
Proof.
  unfold listPlants. rewrite cmap_Normal. intros Hall.
  assert (Plant.id <$> listed = Row.id <$> query_rows filter now db) as Hids.
  { induction Hall as [|row plant rows plants Hrow Hall IH]; [done|].
    rewrite !fmap_cons, IH.
    by apply mapRow_Normal in Hrow as (-> & _). }
  split; [|split].
  - rewrite Hids. unfold query_rows. rewrite merge_sort_Permutation.
    eapply sublist_NoDup; [apply (select_plants_ids db)|].
    apply fmap_sublist.
    induction (select_plants db) as [|r l IH]; simpl; [constructor|].
    destruct (where_true _); by constructor.
  - intros plant Hin.
    apply list_elem_of_lookup_1 in Hin as [i Hi].
    destruct (Forall2_lookup_r _ _ _ _ _ Hall Hi) as (row & Hrow & Hmap).
    apply list_elem_of_lookup_2 in Hrow.
    apply elem_of_query_rows in Hrow as [Hrow _].
    apply select_plants_row in Hrow as (x & Hx & Erow).
    pose proof (mapRow_Normal _ _ Hmap) as (Hid & _).
    rewrite Hid, (getPlant_Some _ _ x Hx), <- Erow, Hmap. done.
  - intros Hdue Hupcoming.
    assert (query_rows filter now db ≡ₚ select_plants db) as Hperm.
    { unfold query_rows. rewrite merge_sort_Permutation.
      rewrite (filter_ext _ (λ _, true)); [by rewrite filter_everything|].
      intros row. unfold where_clause. by rewrite !decide_False. }
    split.
    + rewrite <- (Forall2_length _ _ _ Hall), Hperm.
      unfold select_plants. by rewrite length_fmap, length_map_to_list.
    + intros id [x Hx].
      assert (row_of id x ∈ query_rows filter now db) as Hrow.
      { rewrite Hperm. unfold select_plants. apply list_elem_of_fmap.
        exists (id, x). split; [done|]. by apply elem_of_map_to_list. }
      apply list_elem_of_lookup_1 in Hrow as [i Hi].
      destruct (Forall2_lookup_l _ _ _ _ _ Hall Hi) as (plant & Hplant & Hmap).
      exists plant. split; [by apply list_elem_of_lookup_2 with i|].
      by apply mapRow_Normal in Hmap as (-> & _).
Qed.
End Listings.

Section Replace.
Context `{Host}.

(** A PUT answered with a plant has replaced all five fields by the
    validated values of the body: trimmed name, species and notes (notes
    empty when absent), the parsed interval, the normalised date (null when
    absent).  The id and [createdAt] are those of the stored row, and the
    plant returned is the one now stored. *)
Theorem put_plants_replaces (rawId : string) (body : Payload.t)
    (db : database) (status : Z) (plant : Plant.t) :
  fst (put_plants rawId body db) = RPlant status plant →
  status = 200
  ∧ parseId rawId = Some (Plant.id plant)
  ∧ Plant.name plant = formatText (Payload.name body)
  ∧ Plant.name plant ≠ EmptyString
  ∧ Plant.species plant = formatText (Payload.species body)
  ∧ Plant.species plant ≠ EmptyString
  ∧ parseInterval (Payload.wateringIntervalDays body)
    = Some (Plant.wateringIntervalDays plant)
  ∧ parseDateOrNull (Payload.lastWateredAt body)
    = DateValue (Plant.lastWateredAt plant)
  ∧ Plant.notes plant = formatNotes (Payload.notes body)
  ∧ (∃ x, plants db !! Plant.id plant = Some x
          ∧ Plant.createdAt plant = Tuple.created_at x)
  ∧ getPlant (Plant.id plant) (snd (put_plants rawId body db))
    = Normal (Some plant).
Proof.
  unfold put_plants. destruct (parseId rawId) as [id|]; [|done].
  destruct (is_empty (formatText (Payload.name body))) eqn:Hname; [done|].
  destruct (is_empty (formatText (Payload.species body))) eqn:Hspecies;
    [done|].
  simpl orb. cbv iota.
  destruct (parseInterval _) as [interval|] eqn:Hint; [|done].
  destruct (parseDateOrNull _) as [|last] eqn:Hlast; [done|].
  apply is_empty_false in Hname, Hspecies.
  set (updates := {| Payload.name := VStr (formatText (Payload.name body));
                     Payload.species := VStr (formatText (Payload.species body));
                     Payload.wateringIntervalDays := VNum (NInt interval);
                     Payload.lastWateredAt := date_value last;
                     Payload.notes := VStr (formatNotes (Payload.notes body)) |}).
  destruct (plants db !! id) as [x|] eqn:Hx.
  2: { by rewrite (updatePlant_not_found id updates db Hx). }
  destruct (mapRow (row_of id x)) as [existing|] eqn:Hrow.
  2: { by rewrite (updatePlant_raises id updates db x Hx Hrow). }
  destruct (updatePlant_found id updates db x existing Hx Hrow)
    as (x' & Hx' & _ & _ & Hret & Hc & Hn & Hs & Hi & Hl & Ho).
  destruct (updatePlant id updates db) as [updated db'] eqn:Hupd.
  simpl in Hx', Hret, Hn, Hs, Hi, Hl, Ho |- *. subst updated.
  rewrite (getPlant_Some _ _ x' Hx').
  destruct (mapRow (row_of id x')) as [p|] eqn:Hp; simpl; [|done].
  intros [= <- <-].
  pose proof (mapRow_Normal _ _ Hp) as (Pid & Pn & Ps & Pi & Pl & Po & Pc & _).
  simpl in Pid, Pn, Ps, Pi, Pl, Po, Pc.
  apply string_length_pos in Hname as Hnlen.
  apply string_length_pos in Hspecies as Hslen.
  rewrite Hnlen in Hn. rewrite Hslen in Hs.
  assert (Tuple.last_watered_at x' = last) as Hl'.
  { rewrite Hl. by destruct last. }
  rewrite Pid, Pn, Ps, Pi, Pl, Po, Pc, Hn, Hs, Hi, Hl', Ho.
  repeat split; try done; [by exists x|].
  by rewrite (getPlant_Some _ _ x' Hx'), Hp.
Qed.
End Replace.

(** ** The client's summary and badge *)

Section Summary.
Context `{Host}.

(** The Due counter and the badge agree: [isDueNow] holds of a plant
    exactly when [dueLabel] gives it the tone due, so the summary counts as
    due the plants whose badge is due, and as upcoming all the others. *)
Theorem isDueNow_iff_due_badge (plants : list Plant.t) (now : Z) :
  (∀ plant, isDueNow plant now = true ↔ label_tone (dueLabel plant now) = due)
  ∧ upcomingCount plants now
    = Z.of_nat (length (List.filter (λ plant, negb (isDueNow plant now)) plants))
  ∧ 0 <= dueNowCount plants now <= Z.of_nat (length plants)
  ∧ 0 <= upcomingCount plants now <= Z.of_nat (length plants).
Proof.
  split.
  { intros plant. unfold isDueNow, dueLabel.
    destruct (falsy (Plant.lastWateredAt plant)); [done|].
    destruct (Plant.nextWateringDueAt plant) as [[|c s]|]; try done.
    destruct (new_Date _) as [dueDate|]; [|done]. cbv zeta.
    pose proof (ceil_div_sign (to_double (dueDate - now))
                  (1000 * 60 * 60 * 24) eq_refl) as Hceil.
    rewrite to_double_sign in Hceil.
    destruct (Z.leb_spec
                (ceil_div (to_double (dueDate - now)) (1000 * 60 * 60 * 24))
                0).
    - split; [done|]. intros _. apply Z.leb_le. lia.
    - rewrite Z.leb_le. split; [lia|].
      by destruct (_ <=? 2). }
  assert (length (List.filter (λ plant, isDueNow plant now) plants)
          + length (List.filter (λ plant, negb (isDueNow plant now)) plants)
          = length plants)%nat as Hsplit.
  { induction plants as [|p l IH]; simpl; [done|].
    destruct (isDueNow p now); simpl; lia. }
  unfold upcomingCount, dueNowCount. lia.
Qed.

(** The client classifies a record the server built as due exactly from
    the instant [wateringIntervalDays] calendar days after
    [lastWateredAt], provided the engine reads back the ISO text of that
    instant. *)
Theorem isDueNow_from_stored_date (row : Row.t) (plant : Plant.t) (now : Z)
    (s : string) (t : Z) :
  mapRow row = Normal plant →
  Row.last_watered_at row = Some s → s ≠ EmptyString →
  new_Date s = Some t →
  new_Date (toISOString (addDays t (Row.watering_interval_days row)))
  = Some (addDays t (Row.watering_interval_days row)) →
  Plant.nextWateringDueAt plant
  = Some (toISOString (addDays t (Row.watering_interval_days row)))
  ∧ (isDueNow plant now = true
     ↔ addDays t (Row.watering_interval_days row) <= now)
  ∧ (label_tone (dueLabel plant now) = due
     ↔ addDays t (Row.watering_interval_days row) <= now).
Proof.
  intros Hrow Hlast Hs Ht Hback.
  apply mapRow_Normal in Hrow as (_ & _ & _ & _ & Hl & _ & _ & Hnext).
  rewrite Hlast in Hl, Hnext.
  rewrite nextWateringDueAt_present, Ht in Hnext by done.
  destruct (TimeClip _) as [t'|] eqn:Hclip; [|done].
  apply TimeClip_Some in Hclip as [-> _]. injection Hnext as Hnext.
  symmetry in Hnext. split; [done|].
  assert (falsy (Plant.lastWateredAt plant) = false) as Hpresent.
  { rewrite Hl. by destruct s. }
  pose proof (toISOString_nonempty (addDays t (Row.watering_interval_days row)))
    as Hiso.
  split.
  - rewrite (isDueNow_present plant now _ Hpresent Hnext Hiso), Hback.
    apply Z.leb_le.
  - rewrite (dueLabel_present plant now _ _ Hpresent Hnext Hiso Hback).
    cbv zeta.
    pose proof (ceil_div_sign
      (to_double (addDays t (Row.watering_interval_days row) - now))
      msPerDay eq_refl) as Hceil.
    rewrite to_double_sign in Hceil.
    destruct (Z.leb_spec
      (ceil_div (to_double (addDays t (Row.watering_interval_days row) - now))
         msPerDay) 0).
    + split; [|done]. intros _. lia.
    + split; [by destruct (_ <=? 2)|]. lia.
Qed.
End Summary.

(** ** From the form to the store *)

Section Client.
Context `{Host}.

Lemma validateDraft_ok draft value :
  validateDraft draft = DraftOk value →
  Value.name value = String_trim (Draft.name draft)
  ∧ Value.name value ≠ EmptyString
  ∧ Value.species value = String_trim (Draft.species draft)
  ∧ Value.species value ≠ EmptyString
  ∧ parseInt10 (Draft.wateringIntervalDays draft)
    = NInt (Value.wateringIntervalDays value)
  ∧ 1 <= Value.wateringIntervalDays value <= 365
  ∧ Value.lastWateredAt value = fromDateInputValue (Draft.lastWateredAt draft)
  ∧ Value.notes value = String_trim (Draft.notes draft).
Proof.
  unfold validateDraft.
  destruct (is_empty (String_trim (Draft.name draft))) eqn:Hname; [done|].
  destruct (is_empty (String_trim (Draft.species draft))) eqn:Hspecies;
    [done|].
  destruct (parseInt10 _) as [n|]; [|done].
  destruct (Z.ltb_spec n 1); [done|]. destruct (Z.ltb_spec 365 n); [done|].
  simpl. intros [= <-]. simpl. apply is_empty_false in Hname, Hspecies.
  repeat split; try done; lia.
Qed.

(** The route POST /plants on the parsed body of a validated draft. *)
Lemma post_plants_validated (draft : Draft.t) (value : Value.t) (clock : Z)
    (db : database) :
  validateDraft draft = DraftOk value →
  String_trim (Value.name value) = Value.name value →
  String_trim (Value.species value) = Value.species value →
  String_trim (Value.notes value) = Value.notes value →
  (∀ s, Value.lastWateredAt value = Some s →
        ∃ t, new_Date s = Some t ∧ toISOString t = s) →
  ∃ id,
      plants db !! id = None
      ∧ plants (snd (handle (POST_plants (body_of value)) clock db)) !! id
        = Some {| Tuple.name := Value.name value;
                  Tuple.species := Value.species value;
                  Tuple.watering_interval_days := Value.wateringIntervalDays value;
                  Tuple.last_watered_at := Value.lastWateredAt value;
                  Tuple.notes := Value.notes value;
                  Tuple.created_at := datetime_text clock |}
      ∧ (fst (handle (POST_plants (body_of value)) clock db)
         = RError 500 "Unexpected server error"
         ∨ ∃ plant,
             fst (handle (POST_plants (body_of value)) clock db)
             = RPlant 201 plant
             ∧ Plant.id plant = id
             ∧ Plant.name plant = Value.name value
             ∧ Plant.species plant = Value.species value
             ∧ Plant.wateringIntervalDays plant = Value.wateringIntervalDays value
             ∧ Plant.lastWateredAt plant = Value.lastWateredAt value
             ∧ Plant.notes plant = Value.notes value).
Proof.
  intros Hvalid Hname Hspecies Hnotes Hdate.
  apply validateDraft_ok in Hvalid
    as (_ & Hn & _ & Hs & _ & Hrange & _ & _).
  simpl handle. unfold post_plants. simpl Payload.name. simpl Payload.species.
  simpl Payload.wateringIntervalDays. simpl Payload.notes.
  simpl Payload.lastWateredAt.
  simpl formatText. simpl formatNotes. rewrite Hname, Hspecies, Hnotes.
  apply is_empty_false in Hn as ->. apply is_empty_false in Hs as ->.
  assert (parseInterval (VNum (NInt (Value.wateringIntervalDays value)))
          = Some (Value.wateringIntervalDays value)) as ->.
  { unfold parseInterval. simpl.
    destruct (Z.leb_spec 1 (Value.wateringIntervalDays value)); [|lia].
    destruct (Z.leb_spec (Value.wateringIntervalDays value) 365); [done|lia]. }
  assert (parseDateOrNull (date_value (Value.lastWateredAt value))
          = DateValue (Value.lastWateredAt value)) as ->.
  { destruct (Value.lastWateredAt value) as [s|] eqn:Hlast; [|done].
    destruct (Hdate s eq_refl) as (t & Ht & Hback). simpl.
    pose proof (toISOString_nonempty t) as Hne. rewrite Hback in Hne.
    destruct s; [done|]. by rewrite Ht, Hback. }
  destruct (createPlant_returns (Value.name value) (Value.species value)
              (Value.wateringIntervalDays value) (Value.lastWateredAt value)
              (Value.notes value) clock db) as (id & Hfresh & Hrow & Hplant).
  destruct (createPlant _ _ _ _ _ _ _) as [created db'] eqn:Hcreate.
  simpl in Hrow, Hplant |- *. subst created.
  exists id. split; [done|]. split; [done|].
  rewrite (getPlant_Some _ _ _ Hrow).
  destruct (mapRow _) as [plant|] eqn:Hmap; simpl; [|by left].
  right. exists plant. split; [done|].
  by apply mapRow_Normal in Hmap as (? & ? & ? & ? & ? & ? & _).
Qed.

(** A draft the form accepts is not turned down by the validation of the
    server.  Where trimming the trimmed texts changes nothing and the engine
    reads back the ISO date the form wrote: if the JSON text of the value
    is within the limit of the body parser, POST /plants stores a row with
    exactly the validated name, species, interval, date and notes, and
    answers 201 with that plant (or 500, when the record cannot be built);
    if the text is longer, the answer is 500 and nothing is stored. *)
Theorem valid_draft_is_stored (draft : Draft.t) (value : Value.t) (clock : Z)
    (db : database) :
  validateDraft draft = DraftOk value →
  String_trim (Value.name value) = Value.name value →
  String_trim (Value.species value) = Value.species value →
  String_trim (Value.notes value) = Value.notes value →
  (∀ s, Value.lastWateredAt value = Some s →
        ∃ t, new_Date s = Some t ∧ toISOString t = s) →
  ∃ outcome,
    handleCreatePlant draft clock db = Some outcome
    ∧ (Z.of_nat (String.length (JSON_stringify value)) <= body_limit →
       ∃ id,
         plants db !! id = None
         ∧ plants (snd outcome) !! id
           = Some {| Tuple.name := Value.name value;
                     Tuple.species := Value.species value;
                     Tuple.watering_interval_days :=
                       Value.wateringIntervalDays value;
                     Tuple.last_watered_at := Value.lastWateredAt value;
                     Tuple.notes := Value.notes value;
                     Tuple.created_at := datetime_text clock |}
         ∧ (fst outcome = RError 500 "Unexpected server error"
            ∨ ∃ plant,
                fst outcome = RPlant 201 plant
                ∧ Plant.id plant = id
                ∧ Plant.name plant = Value.name value
                ∧ Plant.species plant = Value.species value
                ∧ Plant.wateringIntervalDays plant
                  = Value.wateringIntervalDays value
                ∧ Plant.lastWateredAt plant = Value.lastWateredAt value
                ∧ Plant.notes plant = Value.notes value))
    ∧ (body_limit < Z.of_nat (String.length (JSON_stringify value)) →
       outcome = (RError 500 "Unexpected server error", db)).
Proof.
  intros Hvalid Hname Hspecies Hnotes Hdate.
  pose proof (post_plants_validated draft value clock db Hvalid Hname
                Hspecies Hnotes Hdate) as Hroute.
  unfold handleCreatePlant, send, express_json. rewrite Hvalid.
  destruct (Z.leb_spec (Z.of_nat (String.length (JSON_stringify value)))
              body_limit) as [Hfits|Hlong].
  - eexists. split; [done|]. split; [by intros _|]. lia.
  - eexists. split; [done|]. split; [lia|done].
Qed.

(** The Water button: where the printed id is read back and the stored
    record can be read, the PATCH it sends sets [last_watered_at] to the ISO
    text of [now] and touches nothing else; the plant in the answer is next
    due [wateringIntervalDays] calendar days after [now], and the client
    calls it due from that instant on and not before. *)
Theorem markWateredNow_sets_the_date (plant : Plant.t) (now clock : Z)
    (db : database) (x : Tuple.t) (existing : Plant.t) :
  parseId (id_text (Plant.id plant)) = Some (Plant.id plant) →
  plants db !! Plant.id plant = Some x →
  mapRow (row_of (Plant.id plant) x) = Normal existing →
  new_Date (toISOString now) = Some now →
  plants (snd (handle (markWateredNow plant now) clock db)) !! Plant.id plant
  = Some {| Tuple.name := Tuple.name x;
            Tuple.species := Tuple.species x;
            Tuple.watering_interval_days := Tuple.watering_interval_days x;
            Tuple.last_watered_at := Some (toISOString now);
            Tuple.notes := Tuple.notes x;
            Tuple.created_at := Tuple.created_at x |}
  ∧ (∀ j, j ≠ Plant.id plant →
       plants (snd (handle (markWateredNow plant now) clock db)) !! j
       = plants db !! j)
  ∧ (fst (handle (markWateredNow plant now) clock db)
     = RError 500 "Unexpected server error"
     ∨ ∃ updated,
         fst (handle (markWateredNow plant now) clock db) = RPlant 200 updated
         ∧ Plant.lastWateredAt updated = Some (toISOString now)
         ∧ Plant.nextWateringDueAt updated
           = Some (toISOString (addDays now (Tuple.watering_interval_days x)))
         ∧ (new_Date
              (toISOString (addDays now (Tuple.watering_interval_days x)))
            = Some (addDays now (Tuple.watering_interval_days x)) →
            ∀ later,
              isDueNow updated later
              = (addDays now (Tuple.watering_interval_days x) <=? later))).
Proof.
  intros Hid Hx Hrow Hback.
  pose proof (toISOString_nonempty now) as Hne.
  unfold markWateredNow. simpl handle. unfold patch_plants. rewrite Hid.
  assert (patch_payload (set_lastWateredAt (VStr (toISOString now)) empty_payload)
          = inr (set_lastWateredAt (VStr (toISOString now)) empty_payload))
    as ->.
  { unfold patch_payload, and_then, patch_name, patch_species, patch_interval,
      patch_notes, patch_lastWateredAt. simpl.
    destruct (toISOString now) as [|c s] eqn:Hiso; [done|].
    by rewrite Hback, Hiso. }
  cbn [no_keys set_lastWateredAt empty_payload Payload.name Payload.species
       Payload.wateringIntervalDays Payload.lastWateredAt Payload.notes
       is_undefined andb].
  destruct (updatePlant_found (Plant.id plant)
              (set_lastWateredAt (VStr (toISOString now)) empty_payload)
              db x existing Hx Hrow)
    as (x' & Hx' & Hother & _ & Hret & Hc & Hn & Hs & Hi & Hl & Ho).
  destruct (updatePlant (Plant.id plant) _ db) as [updated db'] eqn:Hupd.
  simpl in Hx', Hother, Hret, Hn, Hs, Hi, Hl, Ho |- *. subst updated.
  assert (x' = {| Tuple.name := Tuple.name x;
                  Tuple.species := Tuple.species x;
                  Tuple.watering_interval_days := Tuple.watering_interval_days x;
                  Tuple.last_watered_at := Some (toISOString now);
                  Tuple.notes := Tuple.notes x;
                  Tuple.created_at := Tuple.created_at x |}) as Ex'.
  { by apply tuple_eq. }
  split; [by rewrite Hx', Ex'|]. split; [done|].
  rewrite (getPlant_Some _ _ x' Hx').
  destruct (mapRow (row_of (Plant.id plant) x')) as [p|] eqn:Hp; simpl;
    [|by left].
  right. exists p. split; [done|].
  apply mapRow_Normal in Hp as (_ & _ & _ & _ & Pl & _ & _ & Pnext).
  simpl in Pl, Pnext. rewrite Hl in Pl, Pnext. rewrite Hi in Pnext.
  split; [done|].
  rewrite nextWateringDueAt_present, Hback in Pnext by done.
  destruct (TimeClip _) as [t'|] eqn:Hclip; [|done].
  apply TimeClip_Some in Hclip as [-> _]. injection Pnext as Pnext.
  symmetry in Pnext. split; [done|]. intros Hread later.
  assert (falsy (Plant.lastWateredAt p) = false) as Hpresent.
  { rewrite Pl. by destruct (toISOString now). }
  by rewrite (isDueNow_present p later _ Hpresent Pnext
                (toISOString_nonempty _)), Hread.
Qed.
(** The route PATCH /plants/:id on the parsed body of a validated draft. *)
Lemma patch_plants_validated (id : Z) (draft : Draft.t)
    (value : Value.t) (clock : Z) (db : database) (x : Tuple.t)
    (existing : Plant.t) :
  validateDraft draft = DraftOk value →
  String_trim (Value.name value) = Value.name value →
  String_trim (Value.species value) = Value.species value →
  String_trim (Value.notes value) = Value.notes value →
  (∀ s, Value.lastWateredAt value = Some s →
        ∃ t, new_Date s = Some t ∧ toISOString t = s) →
  parseId (id_text id) = Some id →
  plants db !! id = Some x →
  mapRow (row_of id x) = Normal existing →
  plants (snd (handle (PATCH_plants (id_text id) (body_of value)) clock db))
    !! id
  = Some {| Tuple.name := Value.name value;
            Tuple.species := Value.species value;
            Tuple.watering_interval_days := Value.wateringIntervalDays value;
            Tuple.last_watered_at := Value.lastWateredAt value;
            Tuple.notes := Value.notes value;
            Tuple.created_at := Tuple.created_at x |}
  ∧ (∀ j, j ≠ id →
       plants (snd (handle (PATCH_plants (id_text id) (body_of value)) clock
                      db)) !! j
       = plants db !! j)
  ∧ sqlite_sequence
      (snd (handle (PATCH_plants (id_text id) (body_of value)) clock db))
    = sqlite_sequence db.
Proof.
  intros Hvalid Hname Hspecies Hnotes Hdate Hid Hx Hrow.
  apply validateDraft_ok in Hvalid
    as (_ & Hn & _ & Hs & _ & Hrange & _ & _).
  assert (parseInterval (VNum (NInt (Value.wateringIntervalDays value)))
          = Some (Value.wateringIntervalDays value)) as Hinterval.
  { unfold parseInterval. simpl.
    destruct (Z.leb_spec 1 (Value.wateringIntervalDays value)); [|lia].
    destruct (Z.leb_spec (Value.wateringIntervalDays value) 365); [done|lia]. }
  assert (parseDateOrNull (date_value (Value.lastWateredAt value))
          = DateValue (Value.lastWateredAt value)) as Hlast.
  { destruct (Value.lastWateredAt value) as [s|] eqn:Hlast; [|done].
    destruct (Hdate s eq_refl) as (t & Ht & Hback). simpl.
    pose proof (toISOString_nonempty t) as Hne. rewrite Hback in Hne.
    destruct s; [done|]. by rewrite Ht, Hback. }
  assert (patch_payload (body_of value) = inr (body_of value)) as Hpayload.
  { unfold patch_payload, patch_name, patch_species, patch_interval,
      patch_notes, patch_lastWateredAt, body_of.
    cbn [Payload.name Payload.species Payload.wateringIntervalDays
         Payload.lastWateredAt Payload.notes formatText formatNotes].
    rewrite Hname, Hspecies, Hnotes, Hinterval.
    apply is_empty_false in Hn as ->. apply is_empty_false in Hs as ->.
    cbn [and_then].
    destruct (Value.lastWateredAt value) as [s|]; cbn [date_value] in *;
      by rewrite Hlast. }
  simpl handle. unfold patch_plants. rewrite Hid, Hpayload.
  cbn [no_keys body_of Payload.name is_undefined andb].
  destruct (updatePlant_found id (body_of value) db x existing Hx Hrow)
    as (x' & Hx' & Hother & Hseq & _ & Hc & Pn & Ps & Pi & Pl & Po).
  fold (body_of value).
  destruct (updatePlant id (body_of value) db) as [updated db'] eqn:Hupd.
  simpl in Hx', Hother, Hseq, Pn, Ps, Pi, Pl, Po |- *.
  split; [|done]. rewrite Hx'. f_equal. apply tuple_eq; simpl; try done.
  - apply string_length_pos in Hn. by rewrite Pn, Hn.
  - apply string_length_pos in Hs. by rewrite Ps, Hs.
  - rewrite Pl. by destruct (Value.lastWateredAt value).
Qed.

(** Saving an edit overwrites all five fields of the row with the values
    of the validated form: the PATCH carries every key, so notes left empty
    are erased and a date left empty is set to NULL.  The id, [created_at]
    and every other row stay.  That is for a JSON text within the limit of
    the body parser; a longer one is answered 500 and the row stays as it
    was. *)
Theorem saveEdit_replaces_all_fields (id : Z) (draft : Draft.t)
    (value : Value.t) (clock : Z) (db : database) (x : Tuple.t)
    (existing : Plant.t) :
  validateDraft draft = DraftOk value →
  String_trim (Value.name value) = Value.name value →
  String_trim (Value.species value) = Value.species value →
  String_trim (Value.notes value) = Value.notes value →
  (∀ s, Value.lastWateredAt value = Some s →
        ∃ t, new_Date s = Some t ∧ toISOString t = s) →
  parseId (id_text id) = Some id →
  plants db !! id = Some x →
  mapRow (row_of id x) = Normal existing →
  ∃ outcome,
    saveEdit id draft clock db = Some outcome
    ∧ (Z.of_nat (String.length (JSON_stringify value)) <= body_limit →
       plants (snd outcome) !! id
       = Some {| Tuple.name := Value.name value;
                 Tuple.species := Value.species value;
                 Tuple.watering_interval_days :=
                   Value.wateringIntervalDays value;
                 Tuple.last_watered_at := Value.lastWateredAt value;
                 Tuple.notes := Value.notes value;
                 Tuple.created_at := Tuple.created_at x |}
       ∧ (∀ j, j ≠ id → plants (snd outcome) !! j = plants db !! j)
       ∧ sqlite_sequence (snd outcome) = sqlite_sequence db)
    ∧ (body_limit < Z.of_nat (String.length (JSON_stringify value)) →
       outcome = (RError 500 "Unexpected server error", db)).
Proof.
  intros Hvalid Hname Hspecies Hnotes Hdate Hid Hx Hrow.
  pose proof (patch_plants_validated id draft value clock db x existing
                Hvalid Hname Hspecies Hnotes Hdate Hid Hx Hrow) as Hroute.
  unfold saveEdit, send, express_json. rewrite Hvalid.
  destruct (Z.leb_spec (Z.of_nat (String.length (JSON_stringify value)))
              body_limit) as [Hfits|Hlong].
  - eexists. split; [done|]. split; [by intros _|]. lia.
  - eexists. split; [done|]. split; [lia|done].
Qed.
End Client.

(** ** The due query, second by second *)

Lemma append_length a b :
  String.length (a +:+ b) = (String.length a + String.length b)%nat.
Proof. induction a as [|c a IH]; simpl; [done|]. by rewrite IH. Qed.

Lemma pad_length w n : String.length (pad w n) = w.
Proof.
  revert n. induction w as [|w IH]; intros n; [done|].
  simpl. rewrite append_length, IH. simpl. lia.
Qed.

Lemma ascii_compare_refl c : Ascii.compare c c = Eq.
Proof. unfold Ascii.compare. apply N.compare_refl. Qed.

(** Strings of one length are compared before what follows them. *)
Lemma compare_append a b r1 r2 :
  String.length a = String.length b →
  String.compare (a +:+ r1) (b +:+ r2)
  = match String.compare a b with
    | Eq => String.compare r1 r2
    | c => c
    end.
Proof.
  revert b. induction a as [|c a IH]; intros [|d b]; try discriminate.
  - done.
  - intros [= Hlen]. simpl. destruct (Ascii.compare c d); try done.
    by apply IH.
Qed.

Lemma compare_separator c r1 r2 :
  String.compare (String c EmptyString +:+ r1) (String c EmptyString +:+ r2)
  = String.compare r1 r2.
Proof. simpl. by rewrite ascii_compare_refl. Qed.

Lemma digit_compare x y :
  Ascii.compare (digit x) (digit y) = (x mod 10 ?= y mod 10).
Proof.
  unfold digit.
  pose proof (Z.mod_pos_bound x 10 eq_refl) as Hx.
  pose proof (Z.mod_pos_bound y 10 eq_refl) as Hy.
  generalize dependent (x mod 10). intros a Ha.
  generalize dependent (y mod 10). intros b Hb.
  assert (a = 0 ∨ a = 1 ∨ a = 2 ∨ a = 3 ∨ a = 4 ∨ a = 5 ∨ a = 6 ∨ a = 7
          ∨ a = 8 ∨ a = 9) as Ea by lia.
  assert (b = 0 ∨ b = 1 ∨ b = 2 ∨ b = 3 ∨ b = 4 ∨ b = 5 ∨ b = 6 ∨ b = 7
          ∨ b = 8 ∨ b = 9) as Eb by lia.
  clear Ha Hb.
  repeat (destruct Ea as [-> | Ea]); try subst a;
    repeat (destruct Eb as [-> | Eb]); try subst b; reflexivity.
Qed.

(** Zero-padded numbers of one width compare as the numbers do. *)
Lemma pad_compare w x y :
  0 <= x < 10 ^ Z.of_nat w → 0 <= y < 10 ^ Z.of_nat w →
  String.compare (pad w x) (pad w y) = (x ?= y).
Proof.
  revert x y. induction w as [|w IH]; intros x y Hx Hy.
  - simpl in *. assert (x = 0) as -> by lia. by assert (y = 0) as -> by lia.
  - rewrite Nat2Z.inj_succ, Z.pow_succ_r in Hx, Hy by lia.
    cbn [pad]. rewrite compare_append by (by rewrite !pad_length).
    rewrite IH by (Z.div_mod_to_equations; lia). simpl.
    rewrite digit_compare.
    destruct (Z.compare_spec (x / 10) (y / 10)) as [Hq|Hq|Hq];
      destruct (Z.compare_spec (x mod 10) (y mod 10)) as [Hr|Hr|Hr];
      destruct (Z.compare_spec x y) as [Hc|Hc|Hc];
      try done; exfalso; Z.div_mod_to_equations; lia.
Qed.

Lemma pad_compare_append w x y r1 r2 :
  0 <= x < 10 ^ Z.of_nat w → 0 <= y < 10 ^ Z.of_nat w →
  String.compare (pad w x +:+ r1) (pad w y +:+ r2)
  = match x ?= y with
    | Eq => String.compare r1 r2
    | c => c
    end.
Proof.
  intros Hx Hy. rewrite compare_append by (by rewrite !pad_length).
  by rewrite pad_compare.
Qed.

Lemma DayFromYear_mono x y : x <= y → DayFromYear x <= DayFromYear y.
Proof. unfold DayFromYear. intros Hxy. Z.div_mod_to_equations. lia. Qed.

Lemma YearFromTime_mono a b :
  Day a <= Day b → YearFromTime a <= YearFromTime b.
Proof.
  intros Hab.
  pose proof (YearFromTime_spec a) as Ha.
  pose proof (YearFromTime_spec b) as Hb.
  destruct (Z.le_gt_cases (YearFromTime a) (YearFromTime b)) as [|Hlt];
    [done|].
  pose proof (DayFromYear_mono (YearFromTime b + 1) (YearFromTime a)). lia.
Qed.

(** The calendar date is a function of the day number. *)
Lemma calendar_Day a b :
  Day a = Day b →
  YearFromTime a = YearFromTime b ∧ MonthFromTime a = MonthFromTime b
  ∧ DateFromTime a = DateFromTime b.
Proof.
  intros Hab.
  assert (YearFromTime a = YearFromTime b) as Hy.
  { unfold YearFromTime. by rewrite Hab. }
  assert (DayWithinYear a = DayWithinYear b) as Hd.
  { unfold DayWithinYear. by rewrite Hab, Hy. }
  assert (InLeapYear a = InLeapYear b) as Hl.
  { unfold InLeapYear. by rewrite Hy. }
  unfold DateFromTime, MonthFromTime. by rewrite Hd, Hl.
Qed.

(** A later day has a later calendar date. *)
Lemma calendar_order a b :
  Day a < Day b →
  YearFromTime a < YearFromTime b
  ∨ YearFromTime a = YearFromTime b
    ∧ (MonthFromTime a < MonthFromTime b
       ∨ MonthFromTime a = MonthFromTime b
         ∧ DateFromTime a < DateFromTime b).
Proof.
  intros Hab.
  pose proof (YearFromTime_mono a b) as Hy.
  destruct (Z.eq_dec (YearFromTime a) (YearFromTime b)) as [Heq|Hne];
    [right; split; [done|] | left; lia].
  assert (DayWithinYear a < DayWithinYear b) as Hd.
  { unfold DayWithinYear. rewrite Heq. lia. }
  assert (InLeapYear a = InLeapYear b) as Hl.
  { unfold InLeapYear. by rewrite Heq. }
  assert (0 <= InLeapYear b <= 1) as Hleap.
  { unfold InLeapYear. case_match; lia. }
  unfold DateFromTime, MonthFromTime. rewrite Hl.
  generalize dependent (DayWithinYear a). intros da.
  generalize dependent (DayWithinYear b). intros db.
  generalize dependent (InLeapYear b). intros leap.
  intros. repeat case_match; simpl; lia.
Qed.

(** Within one day, a later second has a later clock time. *)
Lemma clock_order a b :
  Day a = Day b → a / 1000 < b / 1000 →
  HourFromTime a < HourFromTime b
  ∨ HourFromTime a = HourFromTime b
    ∧ (MinFromTime a < MinFromTime b
       ∨ MinFromTime a = MinFromTime b ∧ SecFromTime a < SecFromTime b).
Proof.
  unfold Day, HourFromTime, MinFromTime, SecFromTime, msPerDay, msPerHour,
    msPerMinute, msPerSecond.
  intros Hday Hsec. Z.div_mod_to_equations. lia.
Qed.

Lemma clock_seconds a b :
  a / 1000 = b / 1000 →
  Day a = Day b ∧ HourFromTime a = HourFromTime b
  ∧ MinFromTime a = MinFromTime b ∧ SecFromTime a = SecFromTime b.
Proof.
  unfold Day, HourFromTime, MinFromTime, SecFromTime, msPerDay, msPerHour,
    msPerMinute, msPerSecond.
  intros Hsec. Z.div_mod_to_equations. lia.
Qed.

Lemma clock_range t :
  0 <= HourFromTime t < 24 ∧ 0 <= MinFromTime t < 60
  ∧ 0 <= SecFromTime t < 60.
Proof.
  unfold HourFromTime, MinFromTime, SecFromTime.
  repeat split; apply Z.mod_pos_bound; lia.
Qed.

Lemma YearFromTime_valid t : validJulianDay t = true → YearFromTime t <= 9999.
Proof.
  unfold validJulianDay, sqliteMaxTime. intros [_ Hmax%Z.leb_le]%andb_true_iff.
  pose proof (YearFromTime_spec t) as [Hy _].
  destruct (Z.le_gt_cases (YearFromTime t) 9999) as [|Hlt]; [done|].
  pose proof (DayFromYear_mono 10000 (YearFromTime t)) as Hm.
  assert (Day t <= 2932896).
  { unfold Day, msPerDay. Z.div_mod_to_equations. lia. }
  assert (DayFromYear 10000 = 2932897) as E by reflexivity. lia.
Qed.

Lemma datetime_text_seconds a b :
  a / 1000 = b / 1000 → datetime_text a = datetime_text b.
Proof.
  intros (Hday & Hh & Hm & Hs)%clock_seconds.
  apply calendar_Day in Hday as (Hy & Hmo & Hd).
  unfold datetime_text. by rewrite Hy, Hmo, Hd, Hh, Hm, Hs.
Qed.

Ltac compare_fields :=
  repeat match goal with
         | |- context [?x ?= ?y] =>
             destruct (Z.compare_spec x y); try done; try lia
         end.

(** From year 0000 on, the text of an earlier second sorts first. *)
Lemma datetime_text_lt a b :
  0 <= YearFromTime a → YearFromTime b <= 9999 → a / 1000 < b / 1000 →
  String.compare (datetime_text a) (datetime_text b) = Lt.
Proof.
  intros Hya Hyb Hsec.
  assert (Day a <= Day b) as Hday.
  { unfold Day, msPerDay. Z.div_mod_to_equations. lia. }
  pose proof (YearFromTime_mono a b Hday) as Hy.
  pose proof (MonthFromTime_range a) as Hma.
  pose proof (MonthFromTime_range b) as Hmb.
  pose proof (DateFromTime_range a) as Hda.
  pose proof (DateFromTime_range b) as Hdb.
  pose proof (clock_range a) as (Hha & Hmia & Hsa).
  pose proof (clock_range b) as (Hhb & Hmib & Hsb).
  unfold datetime_text. cbv zeta.
  rewrite (proj2 (Z.ltb_ge (YearFromTime a) 0)) by lia.
  rewrite (proj2 (Z.ltb_ge (YearFromTime b) 0)) by lia.
  rewrite pad_compare_append by (simpl; lia). rewrite compare_separator.
  rewrite pad_compare_append by (simpl; lia). rewrite compare_separator.
  rewrite pad_compare_append by (simpl; lia). rewrite compare_separator.
  rewrite pad_compare_append by (simpl; lia). rewrite compare_separator.
  rewrite pad_compare_append by (simpl; lia). rewrite compare_separator.
  rewrite pad_compare by (simpl; lia).
  destruct (Z.eq_dec (Day a) (Day b)) as [Heq|Hne].
  - pose proof (clock_order a b Heq Hsec) as Hclock.
    apply calendar_Day in Heq as (Ey & Em & Ed).
    compare_fields.
  - assert (Day a < Day b) as Hlt by lia.
    pose proof (calendar_order a b Hlt) as Hcal.
    compare_fields.
Qed.

Lemma string_compare_refl s : String.compare s s = Eq.
Proof.
  induction s as [|c s IH]; simpl; [done|]. by rewrite ascii_compare_refl.
Qed.

(** [datetime(..) <= datetime(..)] compares whole seconds. *)
Lemma datetime_text_le a b :
  0 <= YearFromTime a <= 9999 → 0 <= YearFromTime b <= 9999 →
  match String.compare (datetime_text a) (datetime_text b) with
  | Gt => false
  | _ => true
  end = (a / 1000 <=? b / 1000).
Proof.
  intros Ha Hb.
  destruct (Z.lt_trichotomy (a / 1000) (b / 1000)) as [Hlt|[Heq|Hgt]].
  - rewrite datetime_text_lt by lia. symmetry. apply Z.leb_le. lia.
  - rewrite (datetime_text_seconds a b Heq), string_compare_refl.
    symmetry. apply Z.leb_le. lia.
  - rewrite String.compare_antisym, datetime_text_lt by lia. simpl.
    symmetry. apply Z.leb_gt. lia.
Qed.

Section DueSeconds.
Context `{Host}.

Lemma elem_of_select_plants db id x :
  plants db !! id = Some x → row_of id x ∈ select_plants db.
Proof.
  intros Hx. unfold select_plants. apply list_elem_of_fmap.
  exists (id, x). split; [done|]. by apply elem_of_map_to_list.
Qed.

(** The two conditions on a row whose date the engine reads, from year
    0000 on: both compare the due second with the current second. *)
Lemma conditions_compare_seconds now row s t :
  Row.last_watered_at row = Some s →
  sqlite_time s = Some t →
  0 <= Row.watering_interval_days row →
  validJulianDay (t + Row.watering_interval_days row * msPerDay) = true →
  0 <= YearFromTime (t + Row.watering_interval_days row * msPerDay) →
  validJulianDay now = true → 0 <= YearFromTime now →
  due_condition now row
  = Some ((t + Row.watering_interval_days row * msPerDay) / 1000
          <=? now / 1000)
  ∧ upcoming_condition now row
    = Some (now / 1000
            <? (t + Row.watering_interval_days row * msPerDay) / 1000).
Proof.
  intros Hlast Hs Hn Hdue Hyear Hnow Hynow.
  pose proof (YearFromTime_valid _ Hdue) as Hmax.
  pose proof (YearFromTime_valid _ Hnow) as Hmaxnow.
  unfold due_condition, upcoming_condition, datetime_plus_days, datetime_now.
  rewrite Hlast, Hs, Hdue, Hnow.
  rewrite (proj2 (Z.ltb_ge (Row.watering_interval_days row) 0)) by lia.
  cbv zeta. cbn [sql_is_null sql_is_not_null sql_le sql_gt].
  pose proof (datetime_text_le
                (t + Row.watering_interval_days row * msPerDay) now
                (conj Hyear Hmax) (conj Hynow Hmaxnow)) as Hle.
  rewrite Z.ltb_antisym, <- Hle.
  by destruct (String.compare _ _).
Qed.

(** The 'due' and 'upcoming' listings compare whole seconds: a stored plant
    whose date the SQL engine reads as [t], with the due instant in the
    years 0000 to 9999, is in the 'due' listing exactly when the second of
    [t] plus the interval in 24-hour days is not after the second of the
    clock, and in the 'upcoming' listing exactly otherwise. *)
Theorem due_listing_compares_seconds (db : database) (now id : Z)
    (x : Tuple.t) (s : string) (t : Z) :
  plants db !! id = Some x →
  Tuple.last_watered_at x = Some s →
  sqlite_time s = Some t →
  0 <= Tuple.watering_interval_days x →
  validJulianDay (t + Tuple.watering_interval_days x * msPerDay) = true →
  0 <= YearFromTime (t + Tuple.watering_interval_days x * msPerDay) →
  validJulianDay now = true → 0 <= YearFromTime now →
  (row_of id x ∈ query_rows (Some "due") now db
   ↔ (t + Tuple.watering_interval_days x * msPerDay) / 1000 <= now / 1000)
  ∧ (row_of id x ∈ query_rows (Some "upcoming") now db
     ↔ now / 1000 < (t + Tuple.watering_interval_days x * msPerDay) / 1000).
Proof.
  intros Hx Hlast Hs Hn Hdue Hyear Hnow Hynow.
  destruct (conditions_compare_seconds now (row_of id x) s t
              Hlast Hs Hn Hdue Hyear Hnow Hynow) as [Hd Hu].
  apply elem_of_select_plants in Hx.
  rewrite !elem_of_query_rows. unfold where_clause.
  rewrite decide_True by done. rewrite decide_False by done.
  rewrite decide_True by done. rewrite Hd, Hu. simpl in *.
  split.
  - destruct (Z.leb_spec
                ((t + Tuple.watering_interval_days x * msPerDay) / 1000)
                (now / 1000)); simpl; split; try done; try lia.
  - destruct (Z.ltb_spec (now / 1000)
                ((t + Tuple.watering_interval_days x * msPerDay) / 1000));
      simpl; split; try done; try lia.
Qed.

(** Where the server and the client agree.  In a zone with a fixed offset,
    for a stored plant whose date both engines read as the same whole
    second, with the due instant in the years 0000 to 9999: the plant is in
    the 'due' listing exactly when [isDueNow] holds of its record, and in
    the 'upcoming' listing exactly when it does not. *)
Theorem due_listing_agrees_with_isDueNow (offset : Z) (db : database)
    (now id : Z) (x : Tuple.t) (plant : Plant.t) (s : string) (t : Z) :
  (∀ u isUTC, LocalTZA u isUTC = offset) →
  plants db !! id = Some x →
  mapRow (row_of id x) = Normal plant →
  Tuple.last_watered_at x = Some s → s ≠ EmptyString →
  new_Date s = Some t → sqlite_time s = Some t →
  t mod 1000 = 0 →
  0 <= Tuple.watering_interval_days x →
  validJulianDay (t + Tuple.watering_interval_days x * msPerDay) = true →
  0 <= YearFromTime (t + Tuple.watering_interval_days x * msPerDay) →
  validJulianDay now = true → 0 <= YearFromTime now →
  new_Date (toISOString (t + Tuple.watering_interval_days x * msPerDay))
  = Some (t + Tuple.watering_interval_days x * msPerDay) →
  (row_of id x ∈ query_rows (Some "due") now db ↔ isDueNow plant now = true)
  ∧ (row_of id x ∈ query_rows (Some "upcoming") now db
     ↔ isDueNow plant now = false).
Proof.
  intros Hzone Hx Hrow Hlast Hne Ht Hs Hwhole Hn Hdue Hyear Hnow Hynow Hback.
  destruct (conditions_compare_seconds now (row_of id x) s t
              Hlast Hs Hn Hdue Hyear Hnow Hynow) as [Hd Hu].
  apply elem_of_select_plants in Hx.
  apply mapRow_Normal in Hrow as (_ & _ & _ & _ & Hl & _ & _ & Hnext).
  simpl in Hd, Hu, Hl, Hnext. rewrite Hlast in Hl, Hnext.
  rewrite nextWateringDueAt_present, Ht in Hnext by done.
  rewrite (addDays_fixed_offset offset) in Hnext by done.
  destruct (TimeClip _) as [t'|] eqn:Hclip; [|done].
  apply TimeClip_Some in Hclip as [-> _]. injection Hnext as Hnext.
  symmetry in Hnext.
  assert (falsy (Plant.lastWateredAt plant) = false) as Hpresent.
  { rewrite Hl. by destruct s. }
  rewrite (isDueNow_present plant now _ Hpresent Hnext
             (toISOString_nonempty _)), Hback.
  rewrite !elem_of_query_rows. unfold where_clause.
  rewrite decide_True by done. rewrite decide_False by done.
  rewrite decide_True by done. rewrite Hd, Hu.
  assert ((t + Tuple.watering_interval_days x * msPerDay) / 1000 <= now / 1000
          ↔ t + Tuple.watering_interval_days x * msPerDay <= now) as Hsec.
  { unfold msPerDay. Z.div_mod_to_equations. lia. }
  split.
  - destruct (Z.leb_spec
                ((t + Tuple.watering_interval_days x * msPerDay) / 1000)
                (now / 1000));
      destruct (Z.leb_spec
                  (t + Tuple.watering_interval_days x * msPerDay) now);
      simpl; split; try done; try lia.
  - destruct (Z.ltb_spec (now / 1000)
                ((t + Tuple.watering_interval_days x * msPerDay) / 1000));
      destruct (Z.leb_spec
                  (t + Tuple.watering_interval_days x * msPerDay) now);
      simpl; split; try done; try lia.
Qed.

(** A plant never watered is due for the server and for the client: at
    every clock reading it is in the 'due' listing and not in the
    'upcoming' one, its record has no next due date, and the client shows
    it as due with the badge "Needs water". *)
Theorem never_watered_is_due (db : database) (now id : Z) (x : Tuple.t) :
  plants db !! id = Some x →
  Tuple.last_watered_at x = None →
  row_of id x ∈ query_rows (Some "due") now db
  ∧ (row_of id x ∉ query_rows (Some "upcoming") now db)
  ∧ ∃ plant,
      getPlant id db = Normal (Some plant)
      ∧ Plant.nextWateringDueAt plant = None
      ∧ isDueNow plant now = true
      ∧ dueLabel plant now = {| text := "Needs water"; label_tone := due |}.
Proof.
  intros Hx Hlast.
  destruct x as [name species interval last notes created].
  simpl in Hlast. subst last.
  rewrite !elem_of_query_rows. unfold where_clause.
  rewrite decide_True by done. rewrite decide_False by done.
  rewrite decide_True by done.
  split; [split; [by apply elem_of_select_plants|done]|].
  split; [by intros [_ ?]|].
  rewrite (getPlant_Some _ _ _ Hx). unfold mapRow. simpl.
  by eexists.
Qed.
End DueSeconds.

(** ** A new plant in the listing *)

Section Newest.
Context `{Host}.

(** With a clock that has not gone back since the rows were created, the
    plant [createPlant] has just inserted is the first of the listing
    without a filter, and it is the record [createPlant] returned. *)
Theorem createPlant_listed_first (name species : string) (interval : Z)
    (last : option string) (notes : string) (clock now : Z) (db : database)
    (listed : list Plant.t) :
  (∀ id x, plants db !! id = Some x →
           String.compare (Tuple.created_at x) (datetime_text clock) ≠ Gt) →
  listPlants None now
    (snd (createPlant name species interval last notes clock db))
  = Normal listed →
  ∃ plant rest,
    fst (createPlant name species interval last notes clock db)
    = Normal (Some plant)
    ∧ listed = plant :: rest.
Proof.
  intros Hclock Hlisted.
  pose proof (max_rowid_nonneg (plants db)) as Hnonneg.
  unfold createPlant in *. cbv zeta in *. simpl fst. simpl snd in Hlisted.
  set (id := Z.max (sqlite_sequence db) (max_rowid (plants db)) + 1) in *.
  set (x := {| Tuple.name := name;
               Tuple.species := species;
               Tuple.watering_interval_days := interval;
               Tuple.last_watered_at := last;
               Tuple.notes := notes;
               Tuple.created_at := datetime_text clock |}) in *.
  set (db' := {| plants := <[id := x]> (plants db); sqlite_sequence := id |})
    in *.
  assert ((id =? 0) = false) as -> by (apply Z.eqb_neq; lia).
  assert (plants db' !! id = Some x) as Hx by apply lookup_insert_eq.
  assert (row_of id x ∈ query_rows None now db') as Hin.
  { apply elem_of_query_rows. split; [by apply elem_of_select_plants|done]. }
  pose proof (query_rows_sorted None now db') as Hsorted.
  assert (∃ rest, query_rows None now db' = row_of id x :: rest)
    as [rows Hrows].
  { destruct (query_rows None now db') as [|r rows] eqn:Hq;
      [by apply elem_of_nil in Hin|].
    apply elem_of_cons in Hin as [<-|Hin]; [by exists rows|]. exfalso.
    apply StronglySorted_inv in Hsorted as [_ Hall].
    rewrite Forall_forall in Hall. destruct (Hall _ Hin) as [Hord Hid].
    assert (r ∈ query_rows None now db') as Hr.
    { rewrite Hq. apply elem_of_cons. by left. }
    apply elem_of_query_rows in Hr as [Hr _].
    apply select_plants_row in Hr as (y & Hy & Er).
    assert (Row.created_at r = Tuple.created_at y) as Ecreated
      by (by rewrite Er).
    simpl in Hid, Hy. rewrite lookup_insert_ne in Hy by done.
    pose proof (max_rowid_bound _ _ _ Hy) as Hbound.
    specialize (Hclock _ _ Hy).
    unfold ordered, order_by in Hord. simpl in Hord.
    rewrite Ecreated in Hord.
    destruct (String.compare _ _); [|done|done].
    apply Z.leb_le in Hord. lia. }
  unfold listPlants in Hlisted. rewrite Hrows in Hlisted. simpl in Hlisted.
  rewrite (getPlant_Some _ _ x Hx).
  destruct (mapRow (row_of id x)) as [plant|]; [|done]. simpl in *.
  destruct (cmap mapRow rows) as [rest|]; [|done]. simpl in *.
  injection Hlisted as <-. by exists plant, rest.
Qed.
End Newest.

(** ** PUT and PATCH *)

Section Same.
Context `{Host}.

(** A PATCH whose body holds all five keys, with strings for the name and
    the species, does what the PUT with that body does: the same store and
    the same answer, or both answer 400 (with their own messages). *)
Theorem patch_plants_full_body_as_put (rawId : string) (body : Payload.t)
    (db : database) (name species : string) :
  Payload.name body = VStr name →
  Payload.species body = VStr species →
  Payload.wateringIntervalDays body ≠ VUndefined →
  Payload.lastWateredAt body ≠ VUndefined →
  Payload.notes body ≠ VUndefined →
  snd (patch_plants rawId body db) = snd (put_plants rawId body db)
  ∧ (fst (patch_plants rawId body db) = fst (put_plants rawId body db)
     ∨ ∃ refused refused',
         fst (patch_plants rawId body db) = RError 400 refused
         ∧ fst (put_plants rawId body db) = RError 400 refused'
         ∧ snd (put_plants rawId body db) = db).
Proof.
  intros Hname Hspecies Hinterval Hlast Hnotes.
  unfold patch_plants, put_plants.
  destruct (parseId rawId) as [id|]; [|by split; [|left]].
  unfold patch_payload, patch_name, patch_species, patch_interval,
    patch_notes, patch_lastWateredAt.
  rewrite Hname, Hspecies. cbv zeta.
  destruct (is_empty (formatText (VStr name))) eqn:En;
    [by split; [|right; eexists _, _]|].
  destruct (is_empty (formatText (VStr species))) eqn:Es;
    [by split; [|right; eexists _, _]|].
  cbn [and_then orb].
  destruct (Payload.wateringIntervalDays body) as [| |flag|n|text|object]
    eqn:Ei; [done|..];
    (destruct (parseInterval _) as [interval|];
       [|by split; [|right; eexists _, _]]);
    cbn [and_then];
    (destruct (Payload.notes body) as [| |flag'|n'|text'|object'] eqn:Eo;
       [done|..]);
    cbn [and_then];
    (destruct (Payload.lastWateredAt body) as [| |flag''|n''|text''|object'']
       eqn:El; [done|..]);
    (destruct (parseDateOrNull _) as [|date];
       [by split; [|right; eexists _, _]|]);
    cbn [no_keys set_name set_species set_wateringIntervalDays set_notes
         set_lastWateredAt empty_payload Payload.name Payload.species
         Payload.wateringIntervalDays Payload.lastWateredAt Payload.notes
         is_undefined andb];
    by split; [|left].
Qed.
End Same.

(** ** As the clock moves on *)

Section Later.
Context `{Host}.

Lemma string_compare_le_trans a b c :
  String.compare a b ≠ Gt → String.compare b c ≠ Gt →
  String.compare a c ≠ Gt.
Proof.
  intros Hab Hbc Hac.
  destruct (String.compare b c) eqn:Ebc; [| |done].
  - apply String.compare_eq_iff in Ebc as ->. done.
  - destruct (String.compare a b) eqn:Eab; [| |done].
    + apply String.compare_eq_iff in Eab as ->. congruence.
    + rewrite String.compare_antisym in Ebc.
      destruct (String.compare c b) eqn:Ecb; try done.
      rewrite String.compare_antisym in Eab.
      destruct (String.compare b a) eqn:Eba; try done.
      pose proof (string_compare_gt_trans _ _ _ Hac Ecb) as Hcontra.
      rewrite String.compare_antisym, Eba in Hcontra. done.
Qed.

(** A plant that is due stays due until it is watered: as the clock moves
    on (within the years 0000 to 9999), a row of the 'due' listing stays in
    it, and a record for which [isDueNow] holds keeps it. *)
Theorem due_stays_due (db : database) (row : Row.t) (plant : Plant.t)
    (now later : Z) :
  now <= later →
  validJulianDay now = true → 0 <= YearFromTime now →
  validJulianDay later = true →
  (row ∈ query_rows (Some "due") now db →
   row ∈ query_rows (Some "due") later db)
  ∧ (isDueNow plant now = true → isDueNow plant later = true).
Proof.
  intros Hlater Hnow Hyear Hvalid. split.
  - rewrite !elem_of_query_rows. intros [Hrow Hdue]. split; [done|].
    unfold where_clause in *. rewrite decide_True in * by done.
    unfold due_condition, datetime_now in *. rewrite Hnow in Hdue.
    rewrite Hvalid.
    destruct (Row.last_watered_at row) as [s|]; [|done].
    destruct (datetime_plus_days _ _) as [d|]; [|done].
    simpl in *.
    assert (String.compare (datetime_text now) (datetime_text later) ≠ Gt)
      as Hclock.
    { pose proof (YearFromTime_valid _ Hnow).
      pose proof (YearFromTime_valid _ Hvalid).
      assert (Day now <= Day later) as Hday.
      { unfold Day, msPerDay. Z.div_mod_to_equations. lia. }
      pose proof (YearFromTime_mono _ _ Hday).
      assert ((now / 1000 <=? later / 1000) = true) as Hsec.
      { apply Z.leb_le. Z.div_mod_to_equations. lia. }
      assert (0 <= YearFromTime now <= 9999) as Ya by lia.
      assert (0 <= YearFromTime later <= 9999) as Yb by lia.
      pose proof (datetime_text_le now later Ya Yb) as Hle.
      rewrite Hsec in Hle. intros Hgt. by rewrite Hgt in Hle. }
    assert (String.compare d (datetime_text now) ≠ Gt) as Hd.
    { by destruct (String.compare d _). }
    pose proof (string_compare_le_trans _ _ _ Hd Hclock).
    by destruct (String.compare d (datetime_text later)).
  - unfold isDueNow. destruct (falsy _); [done|].
    destruct (Plant.nextWateringDueAt plant) as [[|c s]|]; try done.
    destruct (new_Date _) as [dueDate|]; [|done].
    rewrite !Z.leb_le. lia.
Qed.
End Later.

(** ** Editing without a change *)

(** The day number from the calendar date. *)
Lemma Day_from_date t :
  Day t = DayFromYear (YearFromTime t)
          + monthStart (MonthFromTime t) (InLeapYear t) + DateFromTime t - 1.
Proof. unfold DateFromTime, DayWithinYear. lia. Qed.

(** In the years 0000 to 9999 two instants with one ISO text are one. *)
Lemma toISOString_inj a b :
  0 <= YearFromTime a <= 9999 → 0 <= YearFromTime b <= 9999 →
  toISOString a = toISOString b → a = b.
Proof.
  intros Ha Hb Heq.
  pose proof (string_compare_refl (toISOString b)) as Hcmp.
  rewrite <- Heq in Hcmp at 1. clear Heq. revert Hcmp.
  pose proof (MonthFromTime_range a) as Hma.
  pose proof (MonthFromTime_range b) as Hmb.
  pose proof (DateFromTime_range a) as Hda.
  pose proof (DateFromTime_range b) as Hdb.
  pose proof (clock_range a) as (Hha & Hmia & Hsa).
  pose proof (clock_range b) as (Hhb & Hmib & Hsb).
  assert (0 <= msFromTime a < 1000) as Hmsa
    by (unfold msFromTime, msPerSecond; apply Z.mod_pos_bound; lia).
  assert (0 <= msFromTime b < 1000) as Hmsb
    by (unfold msFromTime, msPerSecond; apply Z.mod_pos_bound; lia).
  unfold toISOString, iso_year.
  rewrite (proj2 (andb_true_iff _ _)) by (rewrite !Z.leb_le; lia).
  rewrite (proj2 (andb_true_iff (0 <=? YearFromTime b) _))
    by (rewrite !Z.leb_le; lia).
  rewrite pad_compare_append by (simpl; lia). rewrite compare_separator.
  rewrite pad_compare_append by (simpl; lia). rewrite compare_separator.
  rewrite pad_compare_append by (simpl; lia). rewrite compare_separator.
  rewrite pad_compare_append by (simpl; lia). rewrite compare_separator.
  rewrite pad_compare_append by (simpl; lia). rewrite compare_separator.
  rewrite pad_compare_append by (simpl; lia). rewrite compare_separator.
  rewrite pad_compare_append by (simpl; lia).
  destruct (Z.compare_spec (YearFromTime a) (YearFromTime b)) as [Ey| |];
    [|done|done].
  destruct (Z.compare_spec (MonthFromTime a + 1) (MonthFromTime b + 1))
    as [Em| |]; [|done|done].
  destruct (Z.compare_spec (DateFromTime a) (DateFromTime b)) as [Ed| |];
    [|done|done].
  destruct (Z.compare_spec (HourFromTime a) (HourFromTime b)) as [Eh| |];
    [|done|done].
  destruct (Z.compare_spec (MinFromTime a) (MinFromTime b)) as [Emi| |];
    [|done|done].
  destruct (Z.compare_spec (SecFromTime a) (SecFromTime b)) as [Es| |];
    [|done|done].
  destruct (Z.compare_spec (msFromTime a) (msFromTime b)) as [Ems| |];
    [|done|done].
  intros _.
  assert (Day a = Day b) as Hday.
  { rewrite (Day_from_date a), (Day_from_date b).
    assert (MonthFromTime a = MonthFromTime b) as -> by lia.
    unfold InLeapYear. rewrite Ey, Ed. done. }
  revert Hday Eh Emi Es Ems.
  unfold Day, HourFromTime, MinFromTime, SecFromTime, msFromTime, msPerDay,
    msPerHour, msPerMinute, msPerSecond.
  intros. Z.div_mod_to_equations. lia.
Qed.

Section Editing.
Context `{Host}.

Lemma toDateInputValue_present s :
  s ≠ EmptyString →
  toDateInputValue (Some s)
  = match new_Date s with
    | None => EmptyString
    | Some date => substring 0 10 (toISOString date)
    end.
Proof. by destruct s. Qed.

Lemma fromDateInputValue_present value :
  value ≠ EmptyString →
  fromDateInputValue value
  = match new_Date (value +:+ "T12:00:00") with
    | None => None
    | Some date => Some (toISOString date)
    end.
Proof. by destruct value. Qed.

(** Saving an edit form that was opened and left as it is does not keep
    the time of watering: the form shows the first ten characters of the
    stored ISO text, and what is sent back is the instant the engine reads
    from that text followed by [T12:00:00], noon of that day in local time.
    In the years 0000 to 9999 the value sent equals the stored one only for
    a plant watered at exactly that instant. *)
Theorem unchanged_edit_rewrites_watering_time (plant : Plant.t)
    (value : Value.t) (t noon : Z) :
  Plant.lastWateredAt plant = Some (toISOString t) →
  new_Date (toISOString t) = Some t →
  new_Date (substring 0 10 (toISOString t) +:+ "T12:00:00") = Some noon →
  0 <= YearFromTime t <= 9999 → 0 <= YearFromTime noon <= 9999 →
  validateDraft (startEditing plant) = DraftOk value →
  Draft.lastWateredAt (startEditing plant) = substring 0 10 (toISOString t)
  ∧ Value.lastWateredAt value = Some (toISOString noon)
  ∧ (Value.lastWateredAt value = Plant.lastWateredAt plant ↔ noon = t).
Proof.
  intros Hlast Hread Hnoon Ht Hn Hvalid.
  apply validateDraft_ok in Hvalid as (_ & _ & _ & _ & _ & _ & Hvalue & _).
  pose proof (toISOString_nonempty t) as Hne.
  assert (Draft.lastWateredAt (startEditing plant)
          = substring 0 10 (toISOString t)) as Hshown.
  { unfold startEditing. simpl.
    by rewrite Hlast, (toDateInputValue_present _ Hne), Hread. }
  split; [done|].
  assert (Value.lastWateredAt value = Some (toISOString noon)) as Hsent.
  { rewrite Hvalue, Hshown, fromDateInputValue_present, Hnoon; [done|].
    by destruct (toISOString t). }
  split; [done|]. rewrite Hsent, Hlast. split.
  - intros [= Heq]. by apply toISOString_inj.
  - by intros ->.
Qed.

(** The Delete button: where the printed id is read back, the request
    [removePlant] sends for a stored plant removes its row and nothing
    else and is answered 204; sent again, it is answered 404. *)
Theorem removePlant_deletes (plant : Plant.t) (clock : Z) (db : database)
    (x : Tuple.t) :
  parseId (id_text (Plant.id plant)) = Some (Plant.id plant) →
  plants db !! Plant.id plant = Some x →
  handle (removePlant plant) clock db
  = (RNoContent, {| plants := delete (Plant.id plant) (plants db);
                    sqlite_sequence := sqlite_sequence db |})
  ∧ handle (removePlant plant) clock (snd (handle (removePlant plant) clock db))
    = (RError 404 "Plant not found",
       snd (handle (removePlant plant) clock db)).
Proof.
  intros Hid Hx. unfold removePlant. simpl handle. unfold delete_plants.
  rewrite Hid. unfold deletePlant. rewrite Hx. simpl.
  split; [done|]. by rewrite lookup_delete_eq.
Qed.
End Editing.

(** ** The further properties on concrete stores *)

Lemma reachable_two_plants : @reachable reference_host Examples.two_plants.
Proof.
  apply (@reachable_handle reference_host).
  apply (@reachable_handle reference_host).
  apply reachable_empty.
Qed.

Lemma reachable_ids_never_reused_witness : ids_issued Examples.two_plants.
Proof.
  exact (proj1 (@reachable_ids_never_reused reference_host Examples.two_plants
                  reachable_two_plants)).
Defined.

Lemma reachable_names_present_witness : names_present Examples.two_plants.
Proof.
  exact (@reachable_names_present reference_host Examples.two_plants
           reachable_two_plants).
Defined.

Lemma reachable_dates_normal_witness : dates_normal Examples.two_plants.
Proof.
  exact (@reachable_dates_normal reference_host Examples.two_plants
           reachable_two_plants).
Defined.

Lemma rejected_request_changes_nothing_witness :
  fst (@handle reference_host (DELETE_plants "7") Examples.new_year
         Examples.two_plants) = RError 404 "Plant not found"
  ∧ snd (@handle reference_host (DELETE_plants "7") Examples.new_year
           Examples.two_plants) = Examples.two_plants.
Proof.
  split; [vm_compute; reflexivity|].
  apply (@rejected_request_changes_nothing reference_host (DELETE_plants "7")
           Examples.new_year Examples.two_plants 404 "Plant not found").
  - vm_compute. reflexivity.
  - discriminate.
Defined.

Lemma post_plants_inserts_before_500_witness :
  fst (@post_plants reference_host
         (Examples.fern (VStr Forms.last_instant) 1) Examples.new_year
         empty_database) = RError 500 "Unexpected server error".
Proof.
  refine (proj1 (@post_plants_inserts_before_500 reference_host
                   (Examples.fern (VStr Forms.last_instant) 1)
                   Examples.new_year empty_database 1 Forms.last_instant
                   maxTime _ _ _ _ _ _)).
  - vm_compute. discriminate.
  - vm_compute. discriminate.
  - vm_compute. reflexivity.
  - vm_compute. reflexivity.
  - vm_compute. reflexivity.
  - vm_compute. reflexivity.
Defined.

Lemma unreadable_row_blocks_witness :
  @getPlant reference_host 1 (Examples.posted (VStr Forms.last_instant) 1)
  = RangeError
  ∧ fst (deletePlant 1 (Examples.posted (VStr Forms.last_instant) 1)) = true.
Proof.
  destruct (@unreadable_row_blocks reference_host 1 Forms.last_row
              (Examples.posted (VStr Forms.last_instant) 1))
    as (_ & Hget & _ & Hdelete & _).
  - vm_compute. reflexivity.
  - vm_compute. reflexivity.
  - split; [exact Hget | exact Hdelete].
Defined.

Lemma patch_plants_keeps_absent_fields_witness :
  ∃ y,
    plants (snd (@patch_plants reference_host "1" Forms.shade
                   Examples.two_plants)) !! 1 = Some y
    ∧ Tuple.created_at y = "2024-01-01 00:00:00".
Proof.
  destruct (@patch_plants_keeps_absent_fields reference_host "1" Forms.shade
              Examples.two_plants 1 Forms.first_row)
    as (y & Hy & Hcreated & _).
  - vm_compute. reflexivity.
  - exists y. split; [exact Hy | exact Hcreated].
Defined.

Lemma listPlants_filtered_sublist_witness :
  ∃ part,
    @listPlants reference_host (Some "due") Examples.new_year
      Examples.two_plants = Normal part
    ∧ part `sublist_of` Examples.two_listed.
Proof.
  apply (@listPlants_filtered_sublist reference_host (Some "due")
           Examples.new_year Examples.two_plants Examples.two_listed).
  vm_compute. reflexivity.
Defined.

Lemma listPlants_rows_witness : NoDup (Plant.id <$> Examples.two_listed).
Proof.
  refine (proj1 (@listPlants_rows reference_host None Examples.new_year
                   Examples.two_plants Examples.two_listed _)).
  vm_compute. reflexivity.
Defined.

Lemma put_plants_replaces_witness :
  @getPlant reference_host 1
    (snd (@put_plants reference_host "1" (Examples.fern VNull 5)
            Examples.two_plants))
  = Normal (Some (Examples.listed 5 None None)).
Proof.
  destruct (@put_plants_replaces reference_host "1" (Examples.fern VNull 5)
              Examples.two_plants 200 (Examples.listed 5 None None))
    as (_ & _ & _ & _ & _ & _ & _ & _ & _ & _ & Hstored).
  - vm_compute. reflexivity.
  - exact Hstored.
Defined.

Lemma isDueNow_from_stored_date_witness :
  Plant.nextWateringDueAt
    (Examples.listed 3 (Some "2023-12-30T12:00:00.000Z")
       (Some "2024-01-02T12:00:00.000Z"))
  = Some (toISOString (@addDays reference_host 1703937600000 3)).
Proof.
  refine (proj1 (@isDueNow_from_stored_date reference_host
                   (row_of 1 Forms.first_row)
                   (Examples.listed 3 (Some "2023-12-30T12:00:00.000Z")
                      (Some "2024-01-02T12:00:00.000Z"))
                   Examples.new_year "2023-12-30T12:00:00.000Z" 1703937600000
                   _ _ _ _ _)).
  - vm_compute. reflexivity.
  - reflexivity.
  - discriminate.
  - vm_compute. reflexivity.
  - vm_compute. reflexivity.
Defined.

Lemma valid_draft_is_stored_witness :
  ∃ outcome,
    @handleCreatePlant browser_host Forms.fern Examples.new_year
      Examples.two_plants = Some outcome
    ∧ ∃ id,
        plants (snd outcome) !! id
        = Some {| Tuple.name := "Fern";
                  Tuple.species := "Nephrolepis";
                  Tuple.watering_interval_days := 7;
                  Tuple.last_watered_at := Some "2024-01-01T12:00:00.000Z";
                  Tuple.notes := "shade";
                  Tuple.created_at := "2024-01-01 00:00:00" |}.
Proof.
  destruct (@valid_draft_is_stored browser_host Forms.fern Forms.fern_value
              Examples.new_year Examples.two_plants)
    as (outcome & Hsent & Hfits & _).
  - vm_compute. reflexivity.
  - vm_compute. reflexivity.
  - vm_compute. reflexivity.
  - vm_compute. reflexivity.
  - intros s [= <-]. exists 1704110400000. split; vm_compute; reflexivity.
  - destruct Hfits as (id & _ & Hrow & _); [vm_compute; discriminate|].
    exists outcome. split; [exact Hsent|]. exists id. exact Hrow.
Defined.

Lemma markWateredNow_sets_the_date_witness :
  plants (snd (@handle reference_host
                 (markWateredNow
                    (Examples.listed 3 (Some "2023-12-30T12:00:00.000Z")
                       (Some "2024-01-02T12:00:00.000Z"))
                    Examples.new_year)
                 Examples.new_year Examples.two_plants)) !! 1
  = Some {| Tuple.name := "Fern";
            Tuple.species := "Nephrolepis";
            Tuple.watering_interval_days := 3;
            Tuple.last_watered_at := Some (toISOString Examples.new_year);
            Tuple.notes := "";
            Tuple.created_at := "2024-01-01 00:00:00" |}.
Proof.
  refine (proj1 (@markWateredNow_sets_the_date reference_host
                   (Examples.listed 3 (Some "2023-12-30T12:00:00.000Z")
                      (Some "2024-01-02T12:00:00.000Z"))
                   Examples.new_year Examples.new_year Examples.two_plants
                   Forms.first_row
                   (Examples.listed 3 (Some "2023-12-30T12:00:00.000Z")
                      (Some "2024-01-02T12:00:00.000Z"))
                   _ _ _ _)).
  - vm_compute. reflexivity.
  - vm_compute. reflexivity.
  - vm_compute. reflexivity.
  - vm_compute. reflexivity.
Defined.

Lemma saveEdit_replaces_all_fields_witness :
  ∃ outcome,
    @saveEdit browser_host 1 Forms.fern Examples.new_year Examples.two_plants
    = Some outcome
    ∧ plants (snd outcome) !! 1
      = Some {| Tuple.name := "Fern";
                Tuple.species := "Nephrolepis";
                Tuple.watering_interval_days := 7;
                Tuple.last_watered_at := Some "2024-01-01T12:00:00.000Z";
                Tuple.notes := "shade";
                Tuple.created_at := "2024-01-01 00:00:00" |}.
Proof.
  destruct (@saveEdit_replaces_all_fields browser_host 1 Forms.fern
              Forms.fern_value Examples.new_year Examples.two_plants
              Forms.first_row
              (Examples.listed 3 (Some "2023-12-30T12:00:00.000Z")
                 (Some "2024-01-02T12:00:00.000Z")))
    as (outcome & Hsent & Hfits & _).
  - vm_compute. reflexivity.
  - vm_compute. reflexivity.
  - vm_compute. reflexivity.
  - vm_compute. reflexivity.
  - intros s [= <-]. exists 1704110400000. split; vm_compute; reflexivity.
  - vm_compute. reflexivity.
  - vm_compute. reflexivity.
  - vm_compute. reflexivity.
  - destruct Hfits as (Hrow & _); [vm_compute; discriminate|].
    exists outcome. split; [exact Hsent | exact Hrow].
Defined.

Lemma due_listing_compares_seconds_witness :
  row_of 1 Forms.first_row
  ∈ @query_rows reference_host (Some "upcoming") Examples.new_year
      Examples.two_plants.
Proof.
  refine (proj2 (proj2 (@due_listing_compares_seconds reference_host
                          Examples.two_plants Examples.new_year 1
                          Forms.first_row "2023-12-30T12:00:00.000Z"
                          1703937600000 _ _ _ _ _ _ _ _)) _).
  - vm_compute. reflexivity.
  - reflexivity.
  - vm_compute. reflexivity.
  - vm_compute. discriminate.
  - vm_compute. reflexivity.
  - vm_compute. discriminate.
  - vm_compute. reflexivity.
  - vm_compute. discriminate.
  - vm_compute. reflexivity.
Defined.

Lemma due_listing_agrees_with_isDueNow_witness :
  row_of 1 Forms.first_row
  ∈ @query_rows reference_host (Some "due") 1704240000000
      Examples.two_plants.
Proof.
  refine (proj2 (proj1 (@due_listing_agrees_with_isDueNow reference_host 0
                          Examples.two_plants 1704240000000 1
                          Forms.first_row
                          (Examples.listed 3 (Some "2023-12-30T12:00:00.000Z")
                             (Some "2024-01-02T12:00:00.000Z"))
                          "2023-12-30T12:00:00.000Z" 1703937600000
                          _ _ _ _ _ _ _ _ _ _ _ _ _ _)) _).
  - intros u isUTC. reflexivity.
  - vm_compute. reflexivity.
  - vm_compute. reflexivity.
  - reflexivity.
  - discriminate.
  - vm_compute. reflexivity.
  - vm_compute. reflexivity.
  - vm_compute. reflexivity.
  - vm_compute. discriminate.
  - vm_compute. reflexivity.
  - vm_compute. discriminate.
  - vm_compute. reflexivity.
  - vm_compute. discriminate.
  - vm_compute. reflexivity.
  - vm_compute. reflexivity.
Defined.

Lemma never_watered_is_due_witness :
  row_of 2 Forms.second_row
  ∈ @query_rows reference_host (Some "due") Examples.new_year
      Examples.two_plants.
Proof.
  refine (proj1 (@never_watered_is_due reference_host Examples.two_plants
                   Examples.new_year 2 Forms.second_row _ _)).
  - vm_compute. reflexivity.
  - reflexivity.
Defined.

Lemma createPlant_listed_first_witness :
  ∃ plant rest,
    fst (@createPlant reference_host "Fern" "Nephrolepis" 7 None ""
           (Examples.new_year + msPerDay)
           (Examples.posted (VStr "2023-12-30T12:00:00.000Z") 3))
    = Normal (Some plant)
    ∧ Examples.two_listed = plant :: rest.
Proof.
  apply (@createPlant_listed_first reference_host "Fern" "Nephrolepis" 7 None
           "" (Examples.new_year + msPerDay) Examples.new_year
           (Examples.posted (VStr "2023-12-30T12:00:00.000Z") 3)
           Examples.two_listed).
  - assert (plants (Examples.posted (VStr "2023-12-30T12:00:00.000Z") 3)
            = <[1 := Forms.first_row]> ∅) as -> by (vm_compute; reflexivity).
    intros id x [[<- <-]|[_ Hnone]]%lookup_insert_Some.
    + vm_compute. discriminate.
    + by rewrite lookup_empty in Hnone.
  - vm_compute. reflexivity.
Defined.

Lemma patch_plants_full_body_as_put_witness :
  snd (@patch_plants reference_host "1" (Examples.fern VNull 5)
         Examples.two_plants)
  = snd (@put_plants reference_host "1" (Examples.fern VNull 5)
           Examples.two_plants).
Proof.
  refine (proj1 (@patch_plants_full_body_as_put reference_host "1"
                   (Examples.fern VNull 5) Examples.two_plants
                   "Fern" "Nephrolepis" _ _ _ _ _)).
  - reflexivity.
  - reflexivity.
  - discriminate.
  - discriminate.
  - discriminate.
Defined.

Lemma due_stays_due_witness :
  @isDueNow reference_host
    (Examples.listed 3 (Some "2023-12-30T12:00:00.000Z")
       (Some "2024-01-02T12:00:00.000Z")) (1704240000000 + msPerDay) = true.
Proof.
  refine (proj2 (@due_stays_due reference_host Examples.two_plants
                   (row_of 1 Forms.first_row)
                   (Examples.listed 3 (Some "2023-12-30T12:00:00.000Z")
                      (Some "2024-01-02T12:00:00.000Z"))
                   1704240000000 (1704240000000 + msPerDay) _ _ _ _) _).
  - vm_compute. discriminate.
  - vm_compute. reflexivity.
  - vm_compute. discriminate.
  - vm_compute. reflexivity.
  - vm_compute. reflexivity.
Defined.

Lemma unchanged_edit_rewrites_watering_time_witness :
  Value.lastWateredAt Forms.evening_value
  = Some (toISOString 1704110400000).
Proof.
  refine (proj1 (proj2 (@unchanged_edit_rewrites_watering_time browser_host
                          Forms.watered_evening Forms.evening_value
                          Forms.evening 1704110400000 _ _ _ _ _ _))).
  - reflexivity.
  - vm_compute. reflexivity.
  - vm_compute. reflexivity.
  - vm_compute. split; discriminate.
  - vm_compute. split; discriminate.
  - vm_compute. reflexivity.
Defined.

Lemma removePlant_deletes_witness :
  @handle reference_host
    (removePlant (Examples.listed 3 (Some "2023-12-30T12:00:00.000Z")
                    (Some "2024-01-02T12:00:00.000Z")))
    Examples.new_year Examples.two_plants
  = (RNoContent,
     {| plants := delete 1 (plants Examples.two_plants);
        sqlite_sequence := sqlite_sequence Examples.two_plants |}).
Proof.
  refine (proj1 (@removePlant_deletes reference_host
                   (Examples.listed 3 (Some "2023-12-30T12:00:00.000Z")
                      (Some "2024-01-02T12:00:00.000Z"))
                   Examples.new_year Examples.two_plants Forms.first_row
                   _ _)).
  - vm_compute. reflexivity.
  - vm_compute. reflexivity.
Defined.
